(** * The order lifecycle of the trading engine

    A shallow embedding of [TradingEngine] (trading_engine.cpp) and of the
    command records of core/protocol.h, with the properties of the order
    registry that the engine's callers and the gateway rely on.

    The engine is a sequential state machine once its mutex is taken: every
    command of the dispatch loop and every gateway callback is a function
    from the engine state to the engine state.  Everything the engine does to
    its collaborators (the risk manager, the gateway, the logger, its own
    mutex) is recorded, in program order, in a list of events carried by the
    state, so that "is invoked", "is never called" and "exactly once" are
    statements about that list. *)

From stdpp Require Import gmap strings list fin_maps.
From Stdlib Require Import ZArith Floats.

#[local] Open Scope Z_scope.

(** ** Machine integers *)

(** [int] is 32 bits wide.  The engine adds volumes with [+] and [+=] on
    [int]; the sum is taken modulo 2^32 and read back as a signed number, as
    the two's complement targets of the build do. *)
Definition INT_MIN : Z := - 2 ^ 31.
Definition INT_MAX : Z := 2 ^ 31 - 1.

Definition wrap_int (z : Z) : Z := (z + 2 ^ 31) mod 2 ^ 32 - 2 ^ 31.

Definition int_range (z : Z) : Prop := INT_MIN <= z <= INT_MAX.

(** [uint64_t] counters wrap modulo 2^64. *)
Definition wrap_uint64 (z : Z) : Z := z mod 2 ^ 64.

(** ** Data model (core/protocol.h and the records the engine reads) *)

(** The fields of [Contract] the engine reads. *)
Record Contract := mkContract {
  index : Z;
  ticker : string;
}.

(** [struct OrderReq]: what the engine hands to the gateway.  [contract] is a
    pointer into the contract table, which is never mutated at run time, so
    the record holds the contract itself. *)
Record OrderReq := mkOrderReq {
  engine_order_id : Z;
  contract : Contract;
  req_type : Z;
  req_direction : Z;
  req_offset : Z;
  volume : Z;
  price : float;
  req_flags : Z;
}.

Definition TRADER_CMD_MAGIC : Z := 0x1709394.

(** [enum TraderCmdType]: the first enumerator is 1, the others follow. *)
Definition CMD_NEW_ORDER : Z := 1.
Definition CMD_CANCEL_ORDER : Z := 2.
Definition CMD_CANCEL_TICKER : Z := 3.
Definition CMD_CANCEL_ALL : Z := 4.

Record TraderOrderReq := mkTraderOrderReq {
  tor_user_order_id : Z;
  tor_ticker_index : Z;
  tor_direction : Z;
  tor_offset : Z;
  tor_type : Z;
  tor_volume : Z;
  tor_price : float;
  tor_flags : Z;
  without_check : bool;
}.

Record TraderCancelReq := mkTraderCancelReq {
  tcr_order_id : Z;
}.

Record TraderCancelTickerReq := mkTraderCancelTickerReq {
  tctr_ticker_index : Z;
}.

(** [struct TraderCommand].  The three payloads share storage in the source
    (a union); the engine reads exactly the one selected by [cmd_type], so
    the record keeps the three views side by side. *)
Record TraderCommand := mkTraderCommand {
  magic : Z;
  cmd_type : Z;
  cmd_strategy_id : string;
  order_req : TraderOrderReq;
  cancel_req : TraderCancelReq;
  cancel_ticker_req : TraderCancelTickerReq;
}.

(** [OrderStatus], of which the engine only ever writes [SUBMITTING]. *)
Inductive OrderStatus := SUBMITTING | ACCEPTED | CANCELING | DONE.

(** The fields of [Order] the engine reads and writes.  [Order order{}]
    value-initialises them: numbers are 0 and [accepted] is false. *)
Record Order := mkOrder {
  req : OrderReq;
  user_order_id : Z;
  strategy_id : string;
  order_id : Z;
  status : OrderStatus;
  accepted : bool;
  traded_volume : Z;
  canceled_volume : Z;
}.

Definition set_order_id (v : Z) (o : Order) : Order :=
  mkOrder (req o) (user_order_id o) (strategy_id o) v (status o)
          (accepted o) (traded_volume o) (canceled_volume o).

Definition set_accepted (v : bool) (o : Order) : Order :=
  mkOrder (req o) (user_order_id o) (strategy_id o) (order_id o) (status o)
          v (traded_volume o) (canceled_volume o).

Definition set_traded_volume (v : Z) (o : Order) : Order :=
  mkOrder (req o) (user_order_id o) (strategy_id o) (order_id o) (status o)
          (accepted o) v (canceled_volume o).

Definition set_canceled_volume (v : Z) (o : Order) : Order :=
  mkOrder (req o) (user_order_id o) (strategy_id o) (order_id o) (status o)
          (accepted o) (traded_volume o) v.

(** [TradeType].  The engine names five enumerators; any other value of the
    tag falls through the chain of tests in [on_primary_market_traded]. *)
Inductive TradeType :=
  | SECONDARY_MARKET
  | PRIMARY_MARKET
  | ACQUIRED_STOCK
  | RELEASED_STOCK
  | CASH_SUBSTITUTION
  | OTHER_TRADE_TYPE.

(** The gateway's responses, with the fields the engine reads.  Their
    declarations are in the gateway's header; the volumes are taken to be
    [int]s like the fields of [Order] they are added and assigned to, and the
    ids are copied as they come. *)
Record OrderAcceptedRsp := mkOrderAcceptedRsp {
  acc_engine_order_id : Z;
  acc_order_id : Z;
}.

Record OrderRejectedRsp := mkOrderRejectedRsp {
  rej_engine_order_id : Z;
  rej_reason : string;
}.

Record OrderTradedRsp := mkOrderTradedRsp {
  trd_engine_order_id : Z;
  trd_order_id : Z;
  trade_type : TradeType;
  trd_volume : Z;
  trd_price : float;
}.

Record OrderCanceledRsp := mkOrderCanceledRsp {
  can_engine_order_id : Z;
  can_canceled_volume : Z;
}.

Record OrderCancelRejectedRsp := mkOrderCancelRejectedRsp {
  crj_engine_order_id : Z;
  crj_reason : string;
}.

(** ** What the engine does to its collaborators *)

Inductive LogLevel := LTrace | LDebug | LInfo | LWarn | LError.

(** One event per call that leaves the engine: the mutex, spdlog, the eight
    entry points of [RiskManager] (with the order as it is when the hook
    runs) and the two requests of the gateway. *)
Inductive Event :=
  | Lock
  | Unlock
  | Log (lvl : LogLevel) (msg : string)
  | RiskCheckOrderReq (o : Order)
  | RiskOnOrderSent (o : Order)
  | RiskOnOrderAccepted (o : Order)
  | RiskOnOrderTraded (o : Order) (rsp : OrderTradedRsp)
  | RiskOnOrderCanceled (o : Order) (canceled : Z)
  | RiskOnOrderRejected (o : Order) (error_code : Z)
  | RiskOnOrderCompleted (o : Order)
  | GatewaySendOrder (r : OrderReq)
  | GatewayCancelOrder (id : Z).

(** The engine: the registry [order_map_], the counter behind
    [next_engine_order_id] and the events so far, oldest first. *)
Record TradingEngine := mkTradingEngine {
  order_map_ : gmap Z Order;
  next_engine_order_id_ : Z;
  events : list Event;
}.

Definition emit (e : Event) (te : TradingEngine) : TradingEngine :=
  mkTradingEngine (order_map_ te) (next_engine_order_id_ te) (events te ++ [e]).

(** Writing through [iter->second]: the registry holds the order itself. *)
Definition store (id : Z) (o : Order) (te : TradingEngine) : TradingEngine :=
  mkTradingEngine (<[id := o]> (order_map_ te)) (next_engine_order_id_ te)
                  (events te).

(** [order_map_.erase(iter)]. *)
Definition erase (id : Z) (te : TradingEngine) : TradingEngine :=
  mkTradingEngine (delete id (order_map_ te)) (next_engine_order_id_ te)
                  (events te).

(** [order_map_.emplace(key, order)]: nothing happens when the key is there. *)
Definition emplace (id : Z) (o : Order) (te : TradingEngine) : TradingEngine :=
  match order_map_ te !! id with
  | Some _ => te
  | None => store id o te
  end.

(** Modelled from the spec: [next_engine_order_id] is declared in the engine's
    header; the spec gives engine order ids as a monotonically increasing
    64-bit counter whose first value is 1.  It returns the counter and
    advances it. *)
Definition next_engine_order_id (te : TradingEngine) : Z * TradingEngine :=
  (next_engine_order_id_ te,
   mkTradingEngine (order_map_ te)
                   (wrap_uint64 (next_engine_order_id_ te + 1)) (events te)).

Definition initial_engine : TradingEngine := mkTradingEngine ∅ 1 [].

(** Modelled from the spec: core/error_code.h gives [NO_ERROR] the value 0. *)
Definition NO_ERROR : Z := 0.

(** ** The engine (trading_engine.cpp) *)

Section Engine.

(** The collaborators whose code lies outside the engine.  The verdict of the
    risk manager and the answer of the gateway may depend on everything that
    happened so far, so both read the engine state.  The risk hooks and the
    gateway leave orders as they find them. *)
Variable get_by_index : Z -> option Contract.
Variable check_order_req : TradingEngine -> Order -> Z.
Variable gateway_send_order : TradingEngine -> OrderReq -> bool.
Variable ERR_SEND_FAILED : Z.
Variable ERR_REJECTED : Z.

(** Lines 189-201 of [send_order]: the order built from the command, with
    the contract found in the table and the id taken from the counter. *)
Definition order_of_cmd (cmd : TraderCommand) (contract : Contract) (id : Z)
  : Order :=
  let req :=
    mkOrderReq id contract (tor_type (order_req cmd))
               (tor_direction (order_req cmd)) (tor_offset (order_req cmd))
               (tor_volume (order_req cmd)) (tor_price (order_req cmd))
               (tor_flags (order_req cmd)) in
  mkOrder req (tor_user_order_id (order_req cmd)) (cmd_strategy_id cmd)
          0 SUBMITTING false 0 0.

Definition send_order (cmd : TraderCommand) (te : TradingEngine)
  : bool * TradingEngine :=
  match get_by_index (tor_ticker_index (order_req cmd)) with
  | None =>
      (false,
       emit (Log LError "[TradingEngine::send_order] Contract not found") te)
  | Some contract =>
      let '(id, te) := next_engine_order_id te in
      let order := order_of_cmd cmd contract id in
      let te := emit Lock te in
      (* from [gateway_->send_order(req)] to the end of the function *)
      let push (te : TradingEngine) : bool * TradingEngine :=
        let pushed := gateway_send_order te (req order) in
        let te := emit (GatewaySendOrder (req order)) te in
        if negb pushed then
          let te :=
            emit (Log LError "[StrategyEngine::send_order] Failed to send_order.") te in
          let te := emit (RiskOnOrderRejected order ERR_SEND_FAILED) te in
          (false, emit Unlock te)
        else
          let te := emplace (engine_order_id (req order)) order te in
          let te := emit (RiskOnOrderSent order) te in
          let te := emit (Log LDebug "[StrategyEngine::send_order] Success.") te in
          (true, emit Unlock te) in
      if negb (without_check (order_req cmd)) then
        let error_code := check_order_req te order in
        let te := emit (RiskCheckOrderReq order) te in
        if negb (error_code =? NO_ERROR) then
          let te := emit (Log LError "[TradingEngine::send_order] 风控未通过") te in
          let te := emit (RiskOnOrderRejected order error_code) te in
          (false, emit Unlock te)
        else push te
      else push te
  end.

Definition cancel_order (order_id : Z) (te : TradingEngine) : TradingEngine :=
  emit (GatewayCancelOrder order_id) te.

(** The two scans visit the registry in its iteration order. *)
Definition cancel_for_ticker (ticker_index : Z) (te : TradingEngine)
  : TradingEngine :=
  let te := emit Lock te in
  let te :=
    foldl (fun te (entry : Z * Order) =>
             if ticker_index =? index (contract (req entry.2))
             then emit (GatewayCancelOrder (order_id entry.2)) te
             else te)
          te (map_to_list (order_map_ te)) in
  emit Unlock te.

Definition cancel_all (te : TradingEngine) : TradingEngine :=
  let te := emit Lock te in
  let te :=
    foldl (fun te (entry : Z * Order) =>
             emit (GatewayCancelOrder (order_id entry.2)) te)
          te (map_to_list (order_map_ te)) in
  emit Unlock te.

Definition execute_cmd (cmd : TraderCommand) (te : TradingEngine)
  : TradingEngine :=
  if negb (magic cmd =? TRADER_CMD_MAGIC) then
    emit (Log LError "[TradingEngine::run] Recv unknown cmd: error magic num") te
  else if cmd_type cmd =? CMD_NEW_ORDER then
    (send_order cmd (emit (Log LDebug "new order") te)).2
  else if cmd_type cmd =? CMD_CANCEL_ORDER then
    cancel_order (tcr_order_id (cancel_req cmd))
                 (emit (Log LDebug "cancel order") te)
  else if cmd_type cmd =? CMD_CANCEL_TICKER then
    cancel_for_ticker (tctr_ticker_index (cancel_ticker_req cmd))
                      (emit (Log LDebug "cancel all for ticker") te)
  else if cmd_type cmd =? CMD_CANCEL_ALL then
    cancel_all (emit (Log LDebug "cancel all") te)
  else
    emit (Log LError "[StrategyEngine::run] Unknown cmd") te.

Definition on_order_accepted (rsp : OrderAcceptedRsp) (te : TradingEngine)
  : TradingEngine :=
  let id := acc_engine_order_id rsp in
  let te := emit Lock te in
  match order_map_ te !! id with
  | None =>
      emit Unlock
        (emit (Log LWarn "[TradingEngine::on_order_accepted] Order not found.") te)
  | Some order =>
      if accepted order then emit Unlock te
      else
        let order := set_order_id (acc_order_id rsp) order in
        let order := set_accepted true order in
        let te := store id order te in
        let te := emit (RiskOnOrderAccepted order) te in
        let te := emit (Log LInfo "[TradingEngine::on_order_accepted] 报单委托成功.") te in
        emit Unlock te
  end.

Definition on_order_rejected (rsp : OrderRejectedRsp) (te : TradingEngine)
  : TradingEngine :=
  let id := rej_engine_order_id rsp in
  let te := emit Lock te in
  match order_map_ te !! id with
  | None =>
      emit Unlock
        (emit (Log LWarn "[TradingEngine::on_order_rejected] Order not found.") te)
  | Some order =>
      let te := emit (RiskOnOrderRejected order ERR_REJECTED) te in
      let te := emit (Log LError "[TradingEngine::on_order_rejected] 报单被拒") te in
      emit Unlock (erase id te)
  end.

Definition on_primary_market_traded (rsp : OrderTradedRsp) (te : TradingEngine)
  : TradingEngine :=
  let id := trd_engine_order_id rsp in
  let te := emit Lock te in
  match order_map_ te !! id with
  | None =>
      emit Unlock
        (emit (Log LWarn "[TradingEngine::on_primary_market_traded] Order not found.") te)
  | Some order =>
      let '(order, te) :=
        if negb (accepted order) then
          let order := set_accepted true order in
          let te := store id order te in
          let te := emit (RiskOnOrderAccepted order) te in
          (order, emit (Log LInfo "[TradingEngine::on_order_accepted] 报单委托成功.") te)
        else (order, te) in
      let order := set_order_id (trd_order_id rsp) order in
      let te := store id order te in
      match trade_type rsp with
      | ACQUIRED_STOCK => emit Unlock (emit (RiskOnOrderTraded order rsp) te)
      | RELEASED_STOCK => emit Unlock (emit (RiskOnOrderTraded order rsp) te)
      | CASH_SUBSTITUTION => emit Unlock (emit (RiskOnOrderTraded order rsp) te)
      | PRIMARY_MARKET =>
          let order := set_traded_volume (trd_volume rsp) order in
          let te := store id order te in
          let te := emit (RiskOnOrderTraded order rsp) te in
          let te := emit (Log LInfo "[TradingEngine::on_primary_market_traded] done.") te in
          emit Unlock (erase id te)
      | SECONDARY_MARKET => emit Unlock te
      | OTHER_TRADE_TYPE => emit Unlock te
      end
  end.

Definition on_secondary_market_traded (rsp : OrderTradedRsp) (te : TradingEngine)
  : TradingEngine :=
  let id := trd_engine_order_id rsp in
  let te := emit Lock te in
  match order_map_ te !! id with
  | None =>
      emit Unlock
        (emit (Log LWarn "[TradingEngine::on_secondary_market_traded] Order not found.") te)
  | Some order =>
      let '(order, te) :=
        if negb (accepted order) then
          let order := set_accepted true order in
          let te := store id order te in
          let te := emit (RiskOnOrderAccepted order) te in
          (order, emit (Log LInfo "[TradingEngine::on_order_accepted] 报单委托成功.") te)
        else (order, te) in
      let order := set_order_id (trd_order_id rsp) order in
      let order :=
        set_traded_volume (wrap_int (traded_volume order + trd_volume rsp)) order in
      let te := store id order te in
      let te := emit (Log LInfo "[TradingEngine::on_order_traded] 报单成交.") te in
      let te := emit (RiskOnOrderTraded order rsp) te in
      if wrap_int (traded_volume order + canceled_volume order)
         =? volume (req order) then
        let te := emit (Log LInfo "[TradingEngine::on_order_traded] 报单完成.") te in
        let te := emit (RiskOnOrderCompleted order) te in
        emit Unlock (erase id te)
      else emit Unlock te
  end.

Definition on_order_traded (rsp : OrderTradedRsp) (te : TradingEngine)
  : TradingEngine :=
  match trade_type rsp with
  | SECONDARY_MARKET => on_secondary_market_traded rsp te
  | _ => on_primary_market_traded rsp te
  end.

Definition on_order_canceled (rsp : OrderCanceledRsp) (te : TradingEngine)
  : TradingEngine :=
  let id := can_engine_order_id rsp in
  let te := emit Lock te in
  match order_map_ te !! id with
  | None =>
      emit Unlock
        (emit (Log LWarn "[TradingEngine::on_order_canceled] Order not found.") te)
  | Some order =>
      let order := set_canceled_volume (can_canceled_volume rsp) order in
      let te := store id order te in
      let te := emit (Log LInfo "[TradingEngine::on_order_canceled] 报单已撤.") te in
      let te := emit (RiskOnOrderCanceled order (can_canceled_volume rsp)) te in
      if wrap_int (traded_volume order + canceled_volume order)
         =? volume (req order) then
        let te := emit (Log LInfo "[TradingEngine::on_order_canceled] 报单完成.") te in
        let te := emit (RiskOnOrderCompleted order) te in
        emit Unlock (erase id te)
      else emit Unlock te
  end.

Definition on_order_cancel_rejected (rsp : OrderCancelRejectedRsp)
  (te : TradingEngine) : TradingEngine :=
  emit (Log LWarn "[TradingEngine::on_order_cancel_rejected] 订单不可撤") te.

(** ** Runs of the engine *)

(** What reaches the engine: a command record from the channel, or one of the
    gateway's order callbacks. *)
Inductive Input :=
  | Command (cmd : TraderCommand)
  | AcceptedCb (rsp : OrderAcceptedRsp)
  | RejectedCb (rsp : OrderRejectedRsp)
  | TradedCb (rsp : OrderTradedRsp)
  | CanceledCb (rsp : OrderCanceledRsp)
  | CancelRejectedCb (rsp : OrderCancelRejectedRsp).

Definition step (i : Input) (te : TradingEngine) : TradingEngine :=
  match i with
  | Command cmd => execute_cmd cmd te
  | AcceptedCb rsp => on_order_accepted rsp te
  | RejectedCb rsp => on_order_rejected rsp te
  | TradedCb rsp => on_order_traded rsp te
  | CanceledCb rsp => on_order_canceled rsp te
  | CancelRejectedCb rsp => on_order_cancel_rejected rsp te
  end.

Fixpoint run (inputs : list Input) (te : TradingEngine) : TradingEngine :=
  match inputs with
  | [] => te
  | i :: rest => run rest (step i te)
  end.

(** ** Vocabulary of the properties *)

(** Gateways that fill and cancel no more than what is left of an order, and
    strategies that ask for a volume an [int] holds and that is not negative:
    [input_ok] tests one input against the registry it meets. *)
Definition input_ok (te : TradingEngine) (i : Input) : bool :=
  match i with
  | Command cmd =>
      if cmd_type cmd =? CMD_NEW_ORDER then
        (0 <=? tor_volume (order_req cmd))
        && (tor_volume (order_req cmd) <=? INT_MAX)
      else true
  | TradedCb rsp =>
      match trade_type rsp, order_map_ te !! trd_engine_order_id rsp with
      | SECONDARY_MARKET, Some o =>
          (0 <=? trd_volume rsp)
          && (trd_volume rsp
              <=? volume (req o) - traded_volume o - canceled_volume o)
      | _, _ => true
      end
  | CanceledCb rsp =>
      match order_map_ te !! can_engine_order_id rsp with
      | Some o =>
          (0 <=? can_canceled_volume rsp)
          && (can_canceled_volume rsp <=? volume (req o) - traded_volume o)
      | None => true
      end
  | _ => true
  end.

Fixpoint admissible (inputs : list Input) (te : TradingEngine) : bool :=
  match inputs with
  | [] => true
  | i :: rest => input_ok te i && admissible rest (step i te)
  end.

(** Counting the events that satisfy a test. *)
Fixpoint count_events (p : Event -> bool) (l : list Event) : nat :=
  match l with
  | [] => 0%nat
  | e :: l => ((if p e then 1 else 0) + count_events p l)%nat
  end.

(** The risk hooks, told apart by the engine order id of the order they are
    handed. *)
Definition completed_for (id : Z) (e : Event) : bool :=
  match e with
  | RiskOnOrderCompleted o => engine_order_id (req o) =? id
  | _ => false
  end.

Definition accepted_for (id : Z) (e : Event) : bool :=
  match e with
  | RiskOnOrderAccepted o => engine_order_id (req o) =? id
  | _ => false
  end.

Definition is_risk_traded (e : Event) : bool :=
  match e with
  | RiskOnOrderTraded _ _ => true
  | _ => false
  end.

Definition is_risk_check (e : Event) : bool :=
  match e with
  | RiskCheckOrderReq _ => true
  | _ => false
  end.

Definition is_gateway_send (e : Event) : bool :=
  match e with
  | GatewaySendOrder _ => true
  | _ => false
  end.

(** The callbacks that move the volumes of order [id]: its secondary-market
    trades and its cancels. *)
Definition volume_callback_for (id : Z) (i : Input) : bool :=
  match i with
  | TradedCb rsp =>
      (trd_engine_order_id rsp =? id)
      && match trade_type rsp with SECONDARY_MARKET => true | _ => false end
  | CanceledCb rsp => can_engine_order_id rsp =? id
  | _ => false
  end.

(** The gateway's order callbacks, as opposed to the commands of strategies. *)
Definition is_callback (i : Input) : bool :=
  match i with
  | Command _ => false
  | _ => true
  end.

Definition accept_or_trade (i : Input) : bool :=
  match i with
  | AcceptedCb _ | TradedCb _ => true
  | _ => false
  end.

(** The engine order id a callback looks up in the registry. *)
Definition callback_id (i : Input) : option Z :=
  match i with
  | AcceptedCb rsp => Some (acc_engine_order_id rsp)
  | RejectedCb rsp => Some (rej_engine_order_id rsp)
  | TradedCb rsp => Some (trd_engine_order_id rsp)
  | CanceledCb rsp => Some (can_engine_order_id rsp)
  | _ => None
  end.

Definition known_cmd_type (t : Z) : bool :=
  (t =? CMD_NEW_ORDER) || (t =? CMD_CANCEL_ORDER)
  || (t =? CMD_CANCEL_TICKER) || (t =? CMD_CANCEL_ALL).

Fixpoint traded_sum (inputs : list Input) : Z :=
  match inputs with
  | [] => 0
  | TradedCb rsp :: rest => trd_volume rsp + traded_sum rest
  | _ :: rest => traded_sum rest
  end.

Fixpoint canceled_sum (inputs : list Input) : Z :=
  match inputs with
  | [] => 0
  | CanceledCb rsp :: rest => can_canceled_volume rsp + canceled_sum rest
  | _ :: rest => canceled_sum rest
  end.

(** The canceled volume the last cancel callback reported, [c] if there was
    none. *)
Fixpoint last_canceled (c : Z) (inputs : list Input) : Z :=
  match inputs with
  | [] => c
  | CanceledCb rsp :: rest => last_canceled (can_canceled_volume rsp) rest
  | _ :: rest => last_canceled c rest
  end.

(** The test both [on_secondary_market_traded] and [on_order_canceled] end
    with. *)
Definition terminal (o : Order) : bool :=
  wrap_int (traded_volume o + canceled_volume o) =? volume (req o).

(** The engine as the risk check of [send_order] finds it (the id is drawn
    and the mutex is held), and as the push to the gateway finds it (the
    check, when it ran, is behind). *)
Definition at_risk_check (te : TradingEngine) : TradingEngine :=
  emit Lock (next_engine_order_id te).2.

Definition at_push (cmd : TraderCommand) (contract : Contract)
  (te : TradingEngine) : TradingEngine :=
  if without_check (order_req cmd) then at_risk_check te
  else emit (RiskCheckOrderReq
               (order_of_cmd cmd contract (next_engine_order_id_ te)))
            (at_risk_check te).

(** The order a callback leaves behind.  Both trade paths latch [accepted]
    first, which tells the risk manager when the order was not yet
    accepted. *)
Definition latched (o : Order) : Order :=
  if accepted o then o else set_accepted true o.

Definition latch_events (o : Order) : list Event :=
  if accepted o then []
  else [RiskOnOrderAccepted (set_accepted true o);
        Log LInfo "[TradingEngine::on_order_accepted] 报单委托成功."].

Definition after_accept (rsp : OrderAcceptedRsp) (o : Order) : Order :=
  set_accepted true (set_order_id (acc_order_id rsp) o).

Definition after_secondary_trade (rsp : OrderTradedRsp) (o : Order) : Order :=
  set_traded_volume
    (wrap_int (traded_volume o + trd_volume rsp))
    (set_order_id (trd_order_id rsp) (latched o)).

Definition after_primary_trade (rsp : OrderTradedRsp) (o : Order) : Order :=
  set_order_id (trd_order_id rsp) (latched o).

Definition after_cancel (rsp : OrderCanceledRsp) (o : Order) : Order :=
  set_canceled_volume (can_canceled_volume rsp) o.

(** Every order sits in the registry under its own engine order id, as
    [send_order] files it. *)
Definition keyed (m : gmap Z Order) : Prop :=
  forall k o, m !! k = Some o -> engine_order_id (req o) = k.

(** How many [on_order_accepted] hooks order [id] can still cause: one while
    it is registered and not accepted, none otherwise. *)
Definition unaccepted (id : Z) (m : gmap Z Order) : nat :=
  match m !! id with
  | Some o => if accepted o then 0%nat else 1%nat
  | None => 0%nat
  end.

Definition is_risk_hook (e : Event) : bool :=
  match e with
  | Lock | Unlock | Log _ _ | GatewaySendOrder _ | GatewayCancelOrder _ => false
  | _ => true
  end.

Definition is_mutex_event (e : Event) : bool :=
  match e with
  | Lock | Unlock => true
  | _ => false
  end.

(** Between [te] and [te'] the engine went through one critical section, in
    which [on_order_completed] ran once for order [id], and [te'] no longer
    registers the order. *)
Definition completed_in_one_section (id : Z) (te te' : TradingEngine) : Prop :=
  order_map_ te' !! id = None /\
  exists middle,
    events te' = events te ++ Lock :: middle ++ [Unlock] /\
    count_events is_mutex_event middle = 0%nat /\
    count_events (completed_for id) middle = 1%nat.

(** The volume invariant of the data model, with the ranges that keep the
    sums of [int]s exact, and the only status the engine writes. *)
Definition order_ok (o : Order) : Prop :=
  0 <= traded_volume o /\ 0 <= canceled_volume o /\
  traded_volume o + canceled_volume o <= volume (req o) /\
  volume (req o) <= INT_MAX /\
  status o = SUBMITTING.

Definition registry_ok (te : TradingEngine) : Prop :=
  map_Forall (fun _ o => order_ok o) (order_map_ te).

(** ** Vocabulary of the further properties *)

(** The broker ids the two scans hand to the gateway: one per order that
    [cancel_all] visits, and one per visited order of the given ticker for
    [cancel_for_ticker]. *)
Definition on_ticker (ticker_index : Z) (o : Order) : bool :=
  ticker_index =? index (contract (req o)).

Definition broker_ids (orders : list Order) : list Z := order_id <$> orders.

(** The order a risk hook is handed, and the hooks that are about order
    [id]. *)
Definition risk_order (e : Event) : option Order :=
  match e with
  | RiskCheckOrderReq o | RiskOnOrderSent o | RiskOnOrderAccepted o
  | RiskOnOrderTraded o _ | RiskOnOrderCanceled o _
  | RiskOnOrderRejected o _ | RiskOnOrderCompleted o => Some o
  | _ => None
  end.

Definition risk_hook_for (id : Z) (e : Event) : bool :=
  match risk_order e with
  | Some o => engine_order_id (req o) =? id
  | None => false
  end.

Definition is_risk_sent (e : Event) : bool :=
  match e with
  | RiskOnOrderSent _ => true
  | _ => false
  end.

Definition is_risk_completed (e : Event) : bool :=
  match e with
  | RiskOnOrderCompleted _ => true
  | _ => false
  end.

(** The registry after a callback has dealt with the order under [k]: the
    order is stored back as the callback leaves it, or erased. *)
Definition settle (k : Z) (after : option Order) (m : gmap Z Order)
  : gmap Z Order :=
  match after with
  | Some o' => <[k := o']> m
  | None => delete k m
  end.


(** Whether a callback is for the order under [k]. *)
Definition targets (k : Z) (i : Input) : bool :=
  match callback_id i with
  | Some k' => k' =? k
  | None => false
  end.


(** One while order [id] is registered, none otherwise. *)
Definition registered (id : Z) (m : gmap Z Order) : nat :=
  match m !! id with
  | Some _ => 1%nat
  | None => 0%nat
  end.

(** The discipline of [mutex_]: starting with the mutex [held] or not, the
    events take and release it in turn, end with it released, and reach the
    risk manager and the gateway's [send_order] only while it is held. *)
Fixpoint mutex_ok (held : bool) (l : list Event) : bool :=
  match l with
  | [] => negb held
  | Lock :: l => negb held && mutex_ok true l
  | Unlock :: l => held && mutex_ok false l
  | e :: l =>
      (if is_risk_hook e || is_gateway_send e then held else true)
      && mutex_ok held l
  end.

(** The cancel callback by which the gateway reports that what was left of
    order [o], registered under [k], is canceled; and one such callback for
    every order of a registry. *)
Definition remainder_canceled (k : Z) (o : Order) : OrderCanceledRsp :=
  mkOrderCanceledRsp k (volume (req o) - traded_volume o).

Definition drain (m : gmap Z Order) : list Input :=
  (fun entry : Z * Order => CanceledCb (remainder_canceled entry.1 entry.2))
    <$> map_to_list m.


(** ** Logging in, queries and market data (trading_engine.cpp) *)

(** The fields the engine reads of the records declared outside it.  The
    holdings and frozen volumes of a position are whole numbers. *)
Record Config := mkConfig {
  api : string;
  investor_id : string;
  key_of_cmd_queue : Z;
}.

Record Account := mkAccount {
  account_id : Z;
  total_asset : float;
  account_frozen : float;
  margin : float;
}.

Record PositionDetail := mkPositionDetail {
  holdings : Z;
  yd_holdings : Z;
  cost_price : float;
  frozen : Z;
  float_pnl : float;
}.

Record Position := mkPosition {
  position_ticker_index : Z;
  long_pos : PositionDetail;
  short_pos : PositionDetail;
}.

Record TickData := mkTickData {
  tick_ticker_index : Z;
  ask0 : float;
  bid0 : float;
}.

(** What [on_query_trade] reads of the [OrderTradedRsp] it is given. *)
Record QueriedTrade := mkQueriedTrade {
  qt_ticker_index : Z;
  qt_direction : Z;
  qt_offset : Z;
  qt_volume : Z;
}.

(** The calls that leave the engine on these paths, in program order. *)
Inductive SessionEvent :=
  | SLock
  | SUnlock
  | SLog (lvl : LogLevel) (msg : string)
  | PrintBanner
  | ConfigShow (config : Config)
  | CreateGateway (api : string)
  | GatewayLogin (config : Config)
  | GatewayLogout
  | GatewayQueryAccount
  | GatewayQueryPositions
  | GatewayQueryTrades
  | PortfolioSetAccount (account_id : Z)
  | PortfolioSetPosition (position : Position)
  | PortfolioUpdateOnQueryTrade (trade : QueriedTrade)
  | RiskInit (config : Config)
  | StartAccountPolling
  | MdPush (ticker : string) (tick : TickData)
  | SnapshotUpdate (tick : TickData).

(** The members of [TradingEngine] these paths read and write, beside the
    registry: whether [gateway_] is set, [cmd_queue_key_], [is_logon_],
    [account_], and the events so far. *)
Record Session := mkSession {
  has_gateway : bool;
  cmd_queue_key_ : Z;
  is_logon_ : bool;
  account_ : Account;
  session_events : list SessionEvent;
}.

Definition semit (e : SessionEvent) (s : Session) : Session :=
  mkSession (has_gateway s) (cmd_queue_key_ s) (is_logon_ s) (account_ s)
            (session_events s ++ [e]).

(** The gateway and the risk manager, as [login] meets them.  A query
    returns its verdict and what it reported through the engine's
    [on_query_] callbacks before returning (nothing, for a gateway that
    reports later). *)
Variable create_gateway : string -> bool.
Variable gateway_login : Session -> Config -> bool.
Variable gateway_query_account : Session -> bool * list Account.
Variable gateway_query_positions : Session -> bool * list Position.
Variable gateway_query_trades : Session -> bool * list QueriedTrade.
Variable risk_init : Session -> Config -> bool.

Definition on_query_account (account : Account) (s : Session) : Session :=
  let s := semit SLock s in
  let s :=
    mkSession (has_gateway s) (cmd_queue_key_ s) (is_logon_ s) account
              (session_events s) in
  let s := semit SUnlock s in
  semit (SLog LInfo "[TradingEngine::on_query_account]") s.

Definition empty_position (position : Position) : bool :=
  (holdings (long_pos position) =? 0) && (frozen (long_pos position) =? 0)
  && (holdings (short_pos position) =? 0)
  && (frozen (short_pos position) =? 0).

(** [None] is the failed [assert(contract)]. *)
Definition on_query_position (position : Position) (s : Session)
  : option Session :=
  match get_by_index (position_ticker_index position) with
  | None => None
  | Some contract =>
      let s := semit (SLog LInfo "[TradingEngine::on_query_position]") s in
      if empty_position position then Some s
      else Some (semit (PortfolioSetPosition position) s)
  end.

Definition on_tick (tick : TickData) (s : Session) : option Session :=
  if negb (is_logon_ s) then Some s
  else
    match get_by_index (tick_ticker_index tick) with
    | None => None
    | Some contract =>
        let s := semit (MdPush (ticker contract) tick) s in
        let s := semit (SnapshotUpdate tick) s in
        Some (semit (SLog LTrace "[TradingEngine::process_tick]") s)
    end.

Definition on_query_trade (trade : QueriedTrade) (s : Session) : Session :=
  semit (PortfolioUpdateOnQueryTrade trade) s.

Definition close (s : Session) : Session :=
  if has_gateway s then semit GatewayLogout s else s.

(** The callbacks a query makes before it returns. *)
Definition report_accounts (accounts : list Account) (s : Session) : Session :=
  foldl (fun s account => on_query_account account s) s accounts.

Fixpoint report_positions (positions : list Position) (s : Session)
  : option Session :=
  match positions with
  | [] => Some s
  | position :: rest =>
      match on_query_position position s with
      | None => None
      | Some s => report_positions rest s
      end
  end.

Definition report_trades (trades : list QueriedTrade) (s : Session) : Session :=
  foldl (fun s trade => on_query_trade trade s) s trades.

Definition login (config : Config) (s : Session) : option (bool * Session) :=
  let s := semit PrintBanner s in
  let s := semit (ConfigShow config) s in
  let s :=
    mkSession (has_gateway s) (key_of_cmd_queue config) (is_logon_ s)
              (account_ s) (session_events s) in
  let s := semit (CreateGateway (api config)) s in
  let s :=
    mkSession (create_gateway (api config)) (cmd_queue_key_ s) (is_logon_ s)
              (account_ s) (session_events s) in
  if negb (has_gateway s) then
    Some (false,
          semit (SLog LError "[TradingEngine::login] Failed. Unknown gateway") s)
  else
    let logged := gateway_login s config in
    let s := semit (GatewayLogin config) s in
    if negb logged then
      Some (false,
            semit (SLog LError "[TradingEngine::login] Failed to login") s)
    else
      let s := semit (SLog LInfo "[TradingEngine::login] Success. Login as") s in
      let answer := gateway_query_account s in
      let s := report_accounts answer.2 (semit GatewayQueryAccount s) in
      if negb answer.1 then
        Some (false,
              semit (SLog LError "[TradingEngine::login] Failed to query account") s)
      else
        let s := semit (PortfolioSetAccount (account_id (account_ s))) s in
        let answer := gateway_query_positions s in
        match report_positions answer.2 (semit GatewayQueryPositions s) with
        | None => None
        | Some s =>
            if negb answer.1 then
              Some (false,
                    semit (SLog LError "[TradingEngine::login] Failed to query positions") s)
            else
              let answer := gateway_query_trades s in
              let s := report_trades answer.2 (semit GatewayQueryTrades s) in
              if negb answer.1 then
                Some (false,
                      semit (SLog LError "[TradingEngine::login] Failed to query trades") s)
              else
                let inited := risk_init s config in
                let s := semit (RiskInit config) s in
                if negb inited then
                  Some (false,
                        semit (SLog LError "[TradingEngine::login] 风险管理对象初始化失败") s)
                else
                  let s :=
                    if negb (String.eqb (api config) "virtual")
                    then semit StartAccountPolling s else s in
                  let s := semit (SLog LInfo "[TradingEngine::login] Init done") s in
                  Some (true,
                        mkSession (has_gateway s) (cmd_queue_key_ s) true
                                  (account_ s) (session_events s))
        end.

(** What reaches the engine on these paths, and runs of it ([None] once an
    assertion has failed). *)
Inductive SessionInput :=
  | Login (config : Config)
  | Close
  | Tick (tick : TickData)
  | QueryAccountCb (account : Account)
  | QueryPositionCb (position : Position)
  | QueryTradeCb (trade : QueriedTrade).

Definition session_step (i : SessionInput) (s : Session) : option Session :=
  match i with
  | Login config =>
      match login config s with
      | Some (_, s) => Some s
      | None => None
      end
  | Close => Some (close s)
  | Tick tick => on_tick tick s
  | QueryAccountCb account => Some (on_query_account account s)
  | QueryPositionCb position => on_query_position position s
  | QueryTradeCb trade => Some (on_query_trade trade s)
  end.

Fixpoint session_run (inputs : list SessionInput) (s : Session)
  : option Session :=
  match inputs with
  | [] => Some s
  | i :: rest =>
      match session_step i s with
      | None => None
      | Some s => session_run rest s
      end
  end.

(** The steps of [login] that call the gateway or the risk manager, numbered
    in program order. *)
Definition login_stage (e : SessionEvent) : option nat :=
  match e with
  | CreateGateway _ => Some 0%nat
  | GatewayLogin _ => Some 1%nat
  | GatewayQueryAccount => Some 2%nat
  | GatewayQueryPositions => Some 3%nat
  | GatewayQueryTrades => Some 4%nat
  | RiskInit _ => Some 5%nat
  | _ => None
  end.

Definition is_market_data (e : SessionEvent) : bool :=
  match e with
  | MdPush _ _ | SnapshotUpdate _ => true
  | _ => false
  end.

Definition is_polling (e : SessionEvent) : bool :=
  match e with
  | StartAccountPolling => true
  | _ => false
  end.

Definition stored_position (e : SessionEvent) : option Position :=
  match e with
  | PortfolioSetPosition position => Some position
  | _ => None
  end.

Fixpoint count_session (p : SessionEvent -> bool) (l : list SessionEvent)
  : nat :=
  match l with
  | [] => 0%nat
  | e :: l => ((if p e then 1 else 0) + count_session p l)%nat
  end.

Definition known_contract (ticker_index : Z) : bool :=
  match get_by_index ticker_index with
  | Some _ => true
  | None => false
  end.


(** What a session shows of the steps of [login], of the account polling
    and of market data. *)
Definition stages (s : Session) : list nat :=
  omap login_stage (session_events s).

Definition pollings (s : Session) : nat :=
  count_session is_polling (session_events s).

Definition published (s : Session) : nat :=
  count_session is_market_data (session_events s).

Definition stored_positions (s : Session) : list Position :=
  omap stored_position (session_events s).


(** Between [s] and [s'] no step of [login] was taken, no polling started,
    no market data published, and the gateway, the queue key and
    [is_logon_] are as they were. *)
Definition same_standing (s s' : Session) : Prop :=
  has_gateway s' = has_gateway s /\ cmd_queue_key_ s' = cmd_queue_key_ s /\
  is_logon_ s' = is_logon_ s /\ stages s' = stages s /\
  pollings s' = pollings s /\ published s' = published s.

(** [login config], started in [s], has taken its first [n] steps and
    stands in [s']. *)
Definition login_progress (config : Config) (n : nat) (s s' : Session)
  : Prop :=
  cmd_queue_key_ s' = key_of_cmd_queue config /\
  has_gateway s' = create_gateway (api config) /\
  is_logon_ s' = is_logon_ s /\
  stages s' = stages s ++ seq 0 n /\
  pollings s' = pollings s /\ published s' = published s.


(** The sessions in which [login] takes its steps: the one in which it logs
    in to the gateway (banner and configuration shown, queue key stored,
    gateway created), and those in which it queries the account, the
    positions and the trades and initialises the risk manager.  The session
    of the trades query is [None] when a position callback of the positions
    query has failed its assertion. *)
Definition at_gateway_login (config : Config) (s : Session) : Session :=
  let s := semit PrintBanner s in
  let s := semit (ConfigShow config) s in
  let s :=
    mkSession (has_gateway s) (key_of_cmd_queue config) (is_logon_ s)
              (account_ s) (session_events s) in
  let s := semit (CreateGateway (api config)) s in
  mkSession (create_gateway (api config)) (cmd_queue_key_ s) (is_logon_ s)
            (account_ s) (session_events s).

Definition at_query_account (config : Config) (s : Session) : Session :=
  semit (SLog LInfo "[TradingEngine::login] Success. Login as")
        (semit (GatewayLogin config) (at_gateway_login config s)).

Definition after_query_account (config : Config) (s : Session) : Session :=
  let s := at_query_account config s in
  report_accounts (gateway_query_account s).2 (semit GatewayQueryAccount s).

Definition at_query_positions (config : Config) (s : Session) : Session :=
  let s := after_query_account config s in
  semit (PortfolioSetAccount (account_id (account_ s))) s.

Definition at_query_trades (config : Config) (s : Session) : option Session :=
  let s := at_query_positions config s in
  report_positions (gateway_query_positions s).2 (semit GatewayQueryPositions s).

Definition at_risk_init (s : Session) : Session :=
  report_trades (gateway_query_trades s).2 (semit GatewayQueryTrades s).

(** The verdicts of the steps of [login], in program order, each asked of
    the session in which [login] takes the step: [create_gateway],
    [gateway_->login], the account, positions and trades queries and
    [risk_mgr_->init]. *)
Definition login_verdicts (config : Config) (s : Session) : list bool :=
  [create_gateway (api config);
   gateway_login (at_gateway_login config s) config;
   (gateway_query_account (at_query_account config s)).1;
   (gateway_query_positions (at_query_positions config s)).1]
  ++ match at_query_trades config s with
     | Some s =>
         [(gateway_query_trades s).1; risk_init (at_risk_init s) config]
     | None => []
     end.

(** How many steps are taken when each step is taken only if all before it
    succeeded: those up to and including the first that fails. *)
Fixpoint steps_taken (verdicts : list bool) : nat :=
  match verdicts with
  | [] => 0%nat
  | true :: rest => S (steps_taken rest)
  | false :: _ => 1%nat
  end.

(** The error [login] logs when the step numbered [n] fails. *)
Definition login_error (n : nat) : string :=
  match n with
  | 0%nat => "[TradingEngine::login] Failed. Unknown gateway"
  | 1%nat => "[TradingEngine::login] Failed to login"
  | 2%nat => "[TradingEngine::login] Failed to query account"
  | 3%nat => "[TradingEngine::login] Failed to query positions"
  | 4%nat => "[TradingEngine::login] Failed to query trades"
  | _ => "[TradingEngine::login] 风险管理对象初始化失败"
  end.



(** ** A small deployment to run the engine on *)

Definition rb2010 : Contract := mkContract 7 "rb2010".

Definition one_contract (i : Z) : option Contract :=
  if i =? 7 then Some rb2010 else None.

(** A risk manager with the one rule that volumes are positive (code 5
    otherwise), and gateways that take, or decline, every push. *)
Definition positive_volume_rule (te : TradingEngine) (o : Order) : Z :=
  if 0 <? volume (req o) then NO_ERROR else 5.

Definition gateway_up (te : TradingEngine) (r : OrderReq) : bool := true.
Definition gateway_down (te : TradingEngine) (r : OrderReq) : bool := false.

Definition buy (vol : Z) (bypass : bool) (ticker_index : Z) : TraderCommand :=
  mkTraderCommand TRADER_CMD_MAGIC CMD_NEW_ORDER "strategy"
    (mkTraderOrderReq 42 ticker_index 1 1 1 vol 100%float 0 bypass)
    (mkTraderCancelReq 0) (mkTraderCancelTickerReq 0).

Definition secondary_trade (id vol : Z) : OrderTradedRsp :=
  mkOrderTradedRsp id 555 SECONDARY_MARKET vol 100%float.

(** The order the first [buy vol false 7] leaves in the registry. *)
Definition resting (vol : Z) : Order :=
  order_of_cmd (buy vol false 7) rb2010 1.

Definition engine_with (o : Order) : TradingEngine :=
  mkTradingEngine {[ engine_order_id (req o) := o ]} 2 [].

(** The same order once the broker acknowledged it under its own id 555. *)
Definition acknowledged (vol : Z) : Order :=
  set_accepted true (set_order_id 555 (resting vol)).

Definition cancel_cmd (id : Z) : TraderCommand :=
  mkTraderCommand TRADER_CMD_MAGIC CMD_CANCEL_ORDER "strategy"
    (mkTraderOrderReq 0 0 0 0 0 0 0%float 0 false)
    (mkTraderCancelReq id) (mkTraderCancelTickerReq 0).

Definition canceled (id vol : Z) : OrderCanceledRsp :=
  mkOrderCanceledRsp id vol.

(** The codes the deployment gives [ERR_SEND_FAILED] and [ERR_REJECTED]. *)
Definition send_failed_code : Z := 11.
Definition rejected_code : Z := 12.

(** A deployment for the session: the gateways "virtual" and "ctp" exist and
    let everyone in; the account query reports one account, the position
    query one open and one empty position on the known contract; trades and
    risk manager raise no objection. *)
Definition known_api (name : string) : bool :=
  String.eqb name "virtual" || String.eqb name "ctp".

Definition open_door (s : Session) (config : Config) : bool := true.

Definition closed_door (s : Session) (config : Config) : bool := false.

Definition the_account : Account := mkAccount 1234 0%float 0%float 0%float.

Definition one_account (s : Session) : bool * list Account :=
  (true, [the_account]).

Definition open_position : Position :=
  mkPosition 7 (mkPositionDetail 3 0 100%float 0 0%float)
               (mkPositionDetail 0 0 0%float 0 0%float).

Definition flat_position : Position :=
  mkPosition 7 (mkPositionDetail 0 0 0%float 0 0%float)
               (mkPositionDetail 0 0 0%float 0 0%float).

Definition two_positions (s : Session) : bool * list Position :=
  (true, [open_position; flat_position]).

Definition no_trades (s : Session) : bool * list QueriedTrade := (true, []).

Definition trades_unavailable (s : Session) : bool * list QueriedTrade :=
  (false, []).

Definition ctp_config : Config := mkConfig "ctp" "investor" 0.

Definition fresh_session : Session :=
  mkSession false 0 false (mkAccount 0 0%float 0%float 0%float) [].

Definition a_tick : TickData := mkTickData 7 101%float 99%float.

Definition primary_trade (id vol : Z) : OrderTradedRsp :=
  mkOrderTradedRsp id 777 PRIMARY_MARKET vol 100%float.



(** * Properties *)

(** ** Arithmetic of [int] *)

Lemma wrap_int_id (z : Z) : int_range z -> wrap_int z = z.
Proof.
  unfold int_range, INT_MIN, INT_MAX, wrap_int. intros Hz.
  rewrite Z.mod_small by lia. lia.
Qed.

Lemma wrap_int_add_l (a b : Z) : wrap_int (wrap_int a + b) = wrap_int (a + b).
Proof.
  unfold wrap_int. f_equal.
  replace ((a + 2 ^ 31) mod 2 ^ 32 - 2 ^ 31 + b + 2 ^ 31)
    with ((a + 2 ^ 31) mod 2 ^ 32 + b) by lia.
  rewrite Z.add_mod_idemp_l by lia. f_equal. lia.
Qed.

Lemma wrap_int_range (z : Z) : int_range (wrap_int z).
Proof.
  unfold int_range, INT_MIN, INT_MAX, wrap_int.
  pose proof (Z.mod_pos_bound (z + 2 ^ 31) (2 ^ 32)). lia.
Qed.

(** ** The state after each primitive step *)

Lemma order_map_emit (e : Event) (te : TradingEngine) :
  order_map_ (emit e te) = order_map_ te.
Proof. reflexivity. Qed.

Lemma events_emit (e : Event) (te : TradingEngine) :
  events (emit e te) = events te ++ [e].
Proof. reflexivity. Qed.

Lemma order_map_store (id : Z) (o : Order) (te : TradingEngine) :
  order_map_ (store id o te) = <[id := o]> (order_map_ te).
Proof. reflexivity. Qed.

Lemma events_store (id : Z) (o : Order) (te : TradingEngine) :
  events (store id o te) = events te.
Proof. reflexivity. Qed.

Lemma order_map_erase (id : Z) (te : TradingEngine) :
  order_map_ (erase id te) = delete id (order_map_ te).
Proof. reflexivity. Qed.

Lemma events_erase (id : Z) (te : TradingEngine) :
  events (erase id te) = events te.
Proof. reflexivity. Qed.

Lemma count_events_app (p : Event -> bool) (l1 l2 : list Event) :
  count_events p (l1 ++ l2) = (count_events p l1 + count_events p l2)%nat.
Proof.
  induction l1 as [|e l1 IH]; simpl; [reflexivity|]. rewrite IH. lia.
Qed.

Create Rewrite HintDb engine.

#[local] Hint Rewrite order_map_emit events_emit order_map_store events_store
  order_map_erase events_erase : engine.

Ltac engine_simpl :=
  autorewrite with engine in *; rewrite <- ?app_assoc; simpl app.

(** ** Callbacks for orders the registry does not hold *)

(** The whole engine after a callback that finds no order: the state before,
    with the mutex taken and released around one warning. *)
Lemma callback_not_found_state (te : TradingEngine) (i : Input) (id : Z) :
  callback_id i = Some id ->
  order_map_ te !! id = None ->
  exists msg, step i te = emit Unlock (emit (Log LWarn msg) (emit Lock te)).
Proof.
  intros Hid Hnone.
  destruct i as [cmd|rsp|rsp|rsp|rsp|rsp]; simpl in Hid; try discriminate;
    injection Hid as <-; simpl.
  - unfold on_order_accepted. engine_simpl. rewrite Hnone. eauto.
  - unfold on_order_rejected. engine_simpl. rewrite Hnone. eauto.
  - unfold on_order_traded, on_secondary_market_traded, on_primary_market_traded.
    destruct (trade_type rsp); engine_simpl; rewrite Hnone; eauto.
  - unfold on_order_canceled. engine_simpl. rewrite Hnone. eauto.
Qed.

Lemma callback_not_found (te : TradingEngine) (i : Input) (id : Z) :
  callback_id i = Some id ->
  order_map_ te !! id = None ->
  order_map_ (step i te) = order_map_ te /\
  exists msg, events (step i te) = events te ++ [Lock; Log LWarn msg; Unlock].
Proof.
  intros Hid Hnone.
  destruct (callback_not_found_state te i id Hid Hnone) as [msg ->].
  engine_simpl. eauto.
Qed.

(** C8. A gateway callback (accepted, rejected, traded of either market,
    canceled) whose engine order id is not a key of the registry takes the
    mutex, logs one line at warn level and returns: the registry, with every
    order in it, is as before, and neither a risk hook nor the gateway is
    called. *)
Theorem unknown_callback_dropped (te : TradingEngine) (i : Input) (id : Z) :
  callback_id i = Some id ->
  order_map_ te !! id = None ->
  order_map_ (step i te) = order_map_ te /\
  next_engine_order_id_ (step i te) = next_engine_order_id_ te /\
  exists msg,
    events (step i te) = events te ++ [Lock; Log LWarn msg; Unlock] /\
    count_events is_risk_hook [Lock; Log LWarn msg; Unlock] = 0%nat.
Proof.
  intros Hid Hnone.
  destruct i as [cmd|rsp|rsp|rsp|rsp|rsp]; simpl in Hid; try discriminate;
    injection Hid as <-; simpl.
  - unfold on_order_accepted. engine_simpl. rewrite Hnone. engine_simpl.
    eauto 6.
  - unfold on_order_rejected. engine_simpl. rewrite Hnone. engine_simpl.
    eauto 6.
  - unfold on_order_traded, on_secondary_market_traded,
      on_primary_market_traded.
    destruct (trade_type rsp); engine_simpl; rewrite Hnone; engine_simpl;
      eauto 6.
  - unfold on_order_canceled. engine_simpl. rewrite Hnone. engine_simpl.
    eauto 6.
Qed.

(** ** Commands the dispatcher drops *)

(** C7. A command record whose magic is not 0x1709394, or whose type is none
    of the four command types, makes [execute_cmd] log one line at error
    level and return: the registry is unchanged and nothing is sent to the
    gateway (the log line is the only event). *)
Theorem malformed_cmd_dropped (cmd : TraderCommand) (te : TradingEngine) :
  magic cmd <> 0x1709394 \/ known_cmd_type (cmd_type cmd) = false ->
  order_map_ (execute_cmd cmd te) = order_map_ te /\
  exists msg, events (execute_cmd cmd te) = events te ++ [Log LError msg].
Proof.
  intros Hbad. unfold execute_cmd.
  destruct (magic cmd =? TRADER_CMD_MAGIC) eqn:Hmagic; simpl.
  - destruct Hbad as [Hm | Hty].
    + apply Z.eqb_eq in Hmagic. contradiction.
    + unfold known_cmd_type in Hty.
      apply orb_false_iff in Hty as [Hty H4].
      apply orb_false_iff in Hty as [Hty H3].
      apply orb_false_iff in Hty as [H1 H2].
      rewrite H1, H2, H3, H4. engine_simpl. eauto.
  - engine_simpl. eauto.
Qed.

(** ** New orders that never reach the registry *)

(** C10. A new-order command whose ticker index the contract table does not
    know makes [send_order] return false with one error line as its only
    event: the mutex is not taken, no risk hook runs ([on_order_rejected]
    included), the gateway is not called and the registry is unchanged. *)
Theorem send_order_unknown_contract (cmd : TraderCommand) (te : TradingEngine) :
  get_by_index (tor_ticker_index (order_req cmd)) = None ->
  (send_order cmd te).1 = false /\
  order_map_ (send_order cmd te).2 = order_map_ te /\
  events (send_order cmd te).2
  = events te ++ [Log LError "[TradingEngine::send_order] Contract not found"].
Proof.
  intros Hnone. unfold send_order. rewrite Hnone. simpl. auto.
Qed.

(** What [send_order] does once the contract is found, path by path. *)

Lemma send_order_risk_rejected (cmd : TraderCommand) (te : TradingEngine)
  (contract : Contract) (order : Order) (error_code : Z) :
  get_by_index (tor_ticker_index (order_req cmd)) = Some contract ->
  order = order_of_cmd cmd contract (next_engine_order_id_ te) ->
  without_check (order_req cmd) = false ->
  check_order_req (at_risk_check te) order = error_code ->
  error_code <> NO_ERROR ->
  send_order cmd te
  = (false,
     mkTradingEngine
       (order_map_ te) (wrap_uint64 (next_engine_order_id_ te + 1))
       (events te
        ++ [Lock; RiskCheckOrderReq order;
            Log LError "[TradingEngine::send_order] 风控未通过";
            RiskOnOrderRejected order error_code; Unlock])).
Proof.
  intros Hc -> Hwc Hcode Hrisk. apply Z.eqb_neq in Hrisk. subst error_code.
  unfold send_order, at_risk_check in *. rewrite Hc. simpl in *.
  rewrite Hwc. simpl. rewrite Hrisk. simpl. unfold emit. simpl.
  rewrite <- !app_assoc. reflexivity.
Qed.

Lemma send_order_push_failed (cmd : TraderCommand) (te : TradingEngine)
  (contract : Contract) (order : Order) :
  get_by_index (tor_ticker_index (order_req cmd)) = Some contract ->
  order = order_of_cmd cmd contract (next_engine_order_id_ te) ->
  (without_check (order_req cmd) = true \/
   check_order_req (at_risk_check te) order = NO_ERROR) ->
  gateway_send_order (at_push cmd contract te) (req order) = false ->
  send_order cmd te
  = (false,
     mkTradingEngine
       (order_map_ te) (wrap_uint64 (next_engine_order_id_ te + 1))
       (events te
        ++ Lock
           :: (if without_check (order_req cmd) then []
               else [RiskCheckOrderReq order])
           ++ [GatewaySendOrder (req order);
               Log LError "[StrategyEngine::send_order] Failed to send_order.";
               RiskOnOrderRejected order ERR_SEND_FAILED; Unlock])).
Proof.
  intros Hc -> Hpass Hgw.
  unfold send_order, at_push, at_risk_check in *. rewrite Hc. simpl in *.
  destruct (without_check (order_req cmd)); simpl in *.
  - rewrite Hgw. simpl. unfold emit. simpl. rewrite <- !app_assoc. reflexivity.
  - destruct Hpass as [|Hpass]; [discriminate|]. rewrite Hpass. simpl.
    rewrite Hgw. simpl. unfold emit. simpl. rewrite <- !app_assoc. reflexivity.
Qed.

Lemma send_order_pushed (cmd : TraderCommand) (te : TradingEngine)
  (contract : Contract) (order : Order) :
  get_by_index (tor_ticker_index (order_req cmd)) = Some contract ->
  order = order_of_cmd cmd contract (next_engine_order_id_ te) ->
  (without_check (order_req cmd) = true \/
   check_order_req (at_risk_check te) order = NO_ERROR) ->
  gateway_send_order (at_push cmd contract te) (req order) = true ->
  send_order cmd te
  = (true,
     mkTradingEngine
       (match order_map_ te !! next_engine_order_id_ te with
        | Some _ => order_map_ te
        | None => <[next_engine_order_id_ te := order]> (order_map_ te)
        end)
       (wrap_uint64 (next_engine_order_id_ te + 1))
       (events te
        ++ Lock
           :: (if without_check (order_req cmd) then []
               else [RiskCheckOrderReq order])
           ++ [GatewaySendOrder (req order); RiskOnOrderSent order;
               Log LDebug "[StrategyEngine::send_order] Success."; Unlock])).
Proof.
  intros Hc -> Hpass Hgw.
  unfold send_order, at_push, at_risk_check in *. rewrite Hc. simpl in *.
  destruct (without_check (order_req cmd)); simpl in *.
  - rewrite Hgw. simpl. unfold emit, emplace. simpl.
    destruct (order_map_ te !! next_engine_order_id_ te); simpl;
      rewrite <- !app_assoc; reflexivity.
  - destruct Hpass as [|Hpass]; [discriminate|]. rewrite Hpass. simpl.
    rewrite Hgw. simpl. unfold emit, emplace. simpl.
    destruct (order_map_ te !! next_engine_order_id_ te); simpl;
      rewrite <- !app_assoc; reflexivity.
Qed.

(** ** The callbacks on an order the registry holds *)

Ltac callback_found H :=
  autorewrite with engine; rewrite H; simpl.

Lemma on_order_accepted_found (rsp : OrderAcceptedRsp) (te : TradingEngine)
  (o : Order) :
  order_map_ te !! acc_engine_order_id rsp = Some o ->
  let te' := on_order_accepted rsp te in
  order_map_ te'
  = (if accepted o then order_map_ te
     else <[acc_engine_order_id rsp := after_accept rsp o]> (order_map_ te)) /\
  events te'
  = events te
    ++ Lock
       :: (if accepted o then []
           else [RiskOnOrderAccepted (after_accept rsp o);
                 Log LInfo "[TradingEngine::on_order_accepted] 报单委托成功."])
       ++ [Unlock].
Proof.
  intros Ho. unfold on_order_accepted. callback_found Ho.
  destruct (accepted o); engine_simpl; auto.
Qed.

Lemma on_order_rejected_found (rsp : OrderRejectedRsp) (te : TradingEngine)
  (o : Order) :
  order_map_ te !! rej_engine_order_id rsp = Some o ->
  let te' := on_order_rejected rsp te in
  order_map_ te' = delete (rej_engine_order_id rsp) (order_map_ te) /\
  events te'
  = events te
    ++ [Lock; RiskOnOrderRejected o ERR_REJECTED;
        Log LError "[TradingEngine::on_order_rejected] 报单被拒"; Unlock].
Proof.
  intros Ho. unfold on_order_rejected. callback_found Ho. engine_simpl. auto.
Qed.

Lemma on_secondary_market_traded_found (rsp : OrderTradedRsp)
  (te : TradingEngine) (o : Order) :
  order_map_ te !! trd_engine_order_id rsp = Some o ->
  let te' := on_secondary_market_traded rsp te in
  let o' := after_secondary_trade rsp o in
  order_map_ te'
  = (if terminal o' then delete (trd_engine_order_id rsp) (order_map_ te)
     else <[trd_engine_order_id rsp := o']> (order_map_ te)) /\
  events te'
  = events te
    ++ Lock :: latch_events o
    ++ [Log LInfo "[TradingEngine::on_order_traded] 报单成交.";
        RiskOnOrderTraded o' rsp]
    ++ (if terminal o'
        then [Log LInfo "[TradingEngine::on_order_traded] 报单完成.";
              RiskOnOrderCompleted o']
        else [])
    ++ [Unlock].
Proof.
  intros Ho. unfold on_secondary_market_traded. callback_found Ho.
  unfold after_secondary_trade, latched, latch_events, terminal.
  destruct (accepted o); simpl;
    match goal with |- context [if ?c then _ else _] => destruct c end;
    engine_simpl;
    rewrite ?insert_insert_eq, ?delete_insert_eq, ?insert_insert_eq; auto.
Qed.

Lemma on_primary_market_traded_found (rsp : OrderTradedRsp)
  (te : TradingEngine) (o : Order) :
  order_map_ te !! trd_engine_order_id rsp = Some o ->
  let te' := on_primary_market_traded rsp te in
  let o' := after_primary_trade rsp o in
  order_map_ te'
  = match trade_type rsp with
    | PRIMARY_MARKET => delete (trd_engine_order_id rsp) (order_map_ te)
    | _ => <[trd_engine_order_id rsp := o']> (order_map_ te)
    end /\
  events te'
  = events te
    ++ Lock :: latch_events o
    ++ match trade_type rsp with
       | PRIMARY_MARKET =>
           [RiskOnOrderTraded (set_traded_volume (trd_volume rsp) o') rsp;
            Log LInfo "[TradingEngine::on_primary_market_traded] done."]
       | ACQUIRED_STOCK | RELEASED_STOCK | CASH_SUBSTITUTION =>
           [RiskOnOrderTraded o' rsp]
       | SECONDARY_MARKET | OTHER_TRADE_TYPE => []
       end
    ++ [Unlock].
Proof.
  intros Ho. unfold on_primary_market_traded. callback_found Ho.
  unfold after_primary_trade, latched, latch_events.
  destruct (accepted o); simpl; destruct (trade_type rsp); engine_simpl;
    rewrite ?insert_insert_eq, ?delete_insert_eq, ?insert_insert_eq; auto.
Qed.

Lemma on_order_canceled_found (rsp : OrderCanceledRsp) (te : TradingEngine)
  (o : Order) :
  order_map_ te !! can_engine_order_id rsp = Some o ->
  let te' := on_order_canceled rsp te in
  let o' := after_cancel rsp o in
  order_map_ te'
  = (if terminal o' then delete (can_engine_order_id rsp) (order_map_ te)
     else <[can_engine_order_id rsp := o']> (order_map_ te)) /\
  events te'
  = events te
    ++ [Lock; Log LInfo "[TradingEngine::on_order_canceled] 报单已撤.";
        RiskOnOrderCanceled o' (can_canceled_volume rsp)]
    ++ (if terminal o'
        then [Log LInfo "[TradingEngine::on_order_canceled] 报单完成.";
              RiskOnOrderCompleted o']
        else [])
    ++ [Unlock].
Proof.
  intros Ho. unfold on_order_canceled. callback_found Ho.
  unfold after_cancel, terminal. simpl.
  match goal with |- context [if ?c then _ else _] => destruct c end;
    engine_simpl; rewrite ?delete_insert_eq; auto.
Qed.

(** ** The outcomes of [send_order] *)

(** C5. Once the contract is found: if the risk pre-check returns a non-zero
    code, [send_order] returns false, the registry is unchanged, the risk
    manager's [on_order_rejected] receives the order with that very code and
    the gateway is not called (no gateway event is emitted); if the gateway
    declines the push, [send_order] returns false, the registry is unchanged
    and [on_order_rejected] receives the order with [ERR_SEND_FAILED]. *)
Theorem failed_send_order_leaves_registry (cmd : TraderCommand)
  (te : TradingEngine) (contract : Contract) :
  get_by_index (tor_ticker_index (order_req cmd)) = Some contract ->
  let order := order_of_cmd cmd contract (next_engine_order_id_ te) in
  let result := send_order cmd te in
  (without_check (order_req cmd) = false ->
   check_order_req (at_risk_check te) order <> 0 ->
   result.1 = false /\
   order_map_ result.2 = order_map_ te /\
   count_events is_gateway_send (events result.2)
   = count_events is_gateway_send (events te) /\
   events result.2
   = events te
     ++ [Lock; RiskCheckOrderReq order;
         Log LError "[TradingEngine::send_order] 风控未通过";
         RiskOnOrderRejected order (check_order_req (at_risk_check te) order);
         Unlock]) /\
  (without_check (order_req cmd) = true \/
   check_order_req (at_risk_check te) order = 0 ->
   gateway_send_order (at_push cmd contract te) (req order) = false ->
   result.1 = false /\
   order_map_ result.2 = order_map_ te /\
   events result.2
   = events te
     ++ Lock
        :: (if without_check (order_req cmd) then []
            else [RiskCheckOrderReq order])
        ++ [GatewaySendOrder (req order);
            Log LError "[StrategyEngine::send_order] Failed to send_order.";
            RiskOnOrderRejected order ERR_SEND_FAILED; Unlock]).
Proof.
  intros Hc order result. subst result. split.
  - intros Hwc Hrisk.
    rewrite (send_order_risk_rejected cmd te contract order _ Hc eq_refl Hwc
               eq_refl Hrisk).
    simpl. rewrite count_events_app. simpl. repeat split; auto; lia.
  - intros Hpass Hgw.
    rewrite (send_order_push_failed cmd te contract order Hc eq_refl Hpass Hgw).
    simpl. auto.
Qed.

(** C9, amended.  Once the contract is found, [check_order_req] runs exactly
    when [without_check] is unset (once if unset, not at all if set); with
    [without_check] set the push to the gateway is the first thing done under
    the mutex, and a gateway that declines it gets the order reported to
    [on_order_rejected] with [ERR_SEND_FAILED]. *)
Theorem risk_check_unless_bypassed (cmd : TraderCommand) (te : TradingEngine)
  (contract : Contract) :
  get_by_index (tor_ticker_index (order_req cmd)) = Some contract ->
  let order := order_of_cmd cmd contract (next_engine_order_id_ te) in
  let result := send_order cmd te in
  count_events is_risk_check (events result.2)
  = (count_events is_risk_check (events te)
     + (if without_check (order_req cmd) then 0 else 1))%nat /\
  (without_check (order_req cmd) = true ->
   (exists rest,
      events result.2
      = events te ++ Lock :: GatewaySendOrder (req order) :: rest) /\
   (gateway_send_order (at_push cmd contract te) (req order) = false ->
    result.1 = false /\
    events result.2
    = events te
      ++ [Lock; GatewaySendOrder (req order);
          Log LError "[StrategyEngine::send_order] Failed to send_order.";
          RiskOnOrderRejected order ERR_SEND_FAILED; Unlock])).
Proof.
  intros Hc order result. subst result.
  destruct (without_check (order_req cmd)) eqn:Hwc.
  - destruct (gateway_send_order (at_push cmd contract te) (req order)) eqn:Hgw.
    + rewrite (send_order_pushed cmd te contract order Hc eq_refl
                 (or_introl Hwc) Hgw).
      rewrite Hwc. simpl. rewrite count_events_app. simpl.
      split; [lia|]. intros _. split; [eauto | discriminate].
    + rewrite (send_order_push_failed cmd te contract order Hc eq_refl
                 (or_introl Hwc) Hgw).
      rewrite Hwc. simpl. rewrite count_events_app. simpl.
      split; [lia|]. intros _. split; [eauto | auto].
  - split; [|discriminate].
    destruct (Z.eq_dec (check_order_req (at_risk_check te) order) NO_ERROR)
      as [Hok | Hrisk].
    + destruct (gateway_send_order (at_push cmd contract te) (req order))
        eqn:Hgw.
      * rewrite (send_order_pushed cmd te contract order Hc eq_refl
                   (or_intror Hok) Hgw).
        rewrite Hwc. simpl. rewrite count_events_app. simpl. lia.
      * rewrite (send_order_push_failed cmd te contract order Hc eq_refl
                   (or_intror Hok) Hgw).
        rewrite Hwc. simpl. rewrite count_events_app. simpl. lia.
    + rewrite (send_order_risk_rejected cmd te contract order _ Hc eq_refl Hwc
                 eq_refl Hrisk).
      simpl. rewrite count_events_app. simpl. lia.
Qed.

(** ** Cancel by order id *)

(** C3, amended.  A cancel-by-order-id command makes the engine hand the
    gateway the id carried by the command, as it is: [cancel_order] neither
    reads nor changes the registry. *)
Theorem cancel_order_forwards_command_id (cmd : TraderCommand)
  (te : TradingEngine) :
  magic cmd = TRADER_CMD_MAGIC ->
  cmd_type cmd = CMD_CANCEL_ORDER ->
  order_map_ (execute_cmd cmd te) = order_map_ te /\
  events (execute_cmd cmd te)
  = events te
    ++ [Log LDebug "cancel order";
        GatewayCancelOrder (tcr_order_id (cancel_req cmd))].
Proof.
  intros Hmagic Hty. unfold execute_cmd, cancel_order.
  rewrite Hmagic, Hty. simpl. engine_simpl. auto.
Qed.

(** ** Trade classification *)

(** C6. A trade callback for an order the registry holds; every other order
    is left as it was.  Both market paths first latch [accepted], telling
    the risk manager's [on_order_accepted] when the order was not accepted
    yet, and store the callback's broker id.  A secondary-market trade adds
    its volume to [traded_volume] (an [int] sum), hands the order so updated
    and the callback to [on_order_traded], and erases the order, after
    [on_order_completed], exactly when the terminal test then holds.  The
    four primary-market types are each handed to [on_order_traded] once,
    with the callback itself and the order as the registry then has it:
    after ACQUIRED_STOCK, RELEASED_STOCK and CASH_SUBSTITUTION the order
    stays in the registry with its volumes untouched; PRIMARY_MARKET sets
    [traded_volume] to the callback's volume for the hook and erases the
    order.  Any other trade type only latches and stores the broker id. *)
Theorem trade_classification (rsp : OrderTradedRsp) (te : TradingEngine)
  (o : Order) :
  order_map_ te !! trd_engine_order_id rsp = Some o ->
  let id := trd_engine_order_id rsp in
  let te' := on_order_traded rsp te in
  let latch :=
    if accepted o then []
    else [RiskOnOrderAccepted (set_accepted true o);
          Log LInfo "[TradingEngine::on_order_accepted] 报单委托成功."] in
  (forall k, k <> id -> order_map_ te' !! k = order_map_ te !! k) /\
  match trade_type rsp with
  | SECONDARY_MARKET =>
      exists o',
        traded_volume o' = wrap_int (traded_volume o + trd_volume rsp) /\
        canceled_volume o' = canceled_volume o /\
        req o' = req o /\
        order_map_ te' !! id = (if terminal o' then None else Some o') /\
        order_id o' = trd_order_id rsp /\
        accepted o' = true /\
        user_order_id o' = user_order_id o /\
        strategy_id o' = strategy_id o /\
        status o' = status o /\
        events te'
        = events te
          ++ Lock :: latch
          ++ [Log LInfo "[TradingEngine::on_order_traded] 报单成交.";
              RiskOnOrderTraded o' rsp]
          ++ (if terminal o'
              then [Log LInfo "[TradingEngine::on_order_traded] 报单完成.";
                    RiskOnOrderCompleted o']
              else [])
          ++ [Unlock]
  | PRIMARY_MARKET =>
      count_events is_risk_traded (events te')
      = S (count_events is_risk_traded (events te)) /\
      order_map_ te' !! id = None /\
      exists o',
        traded_volume o' = trd_volume rsp /\
        canceled_volume o' = canceled_volume o /\
        req o' = req o /\
        order_id o' = trd_order_id rsp /\
        accepted o' = true /\
        user_order_id o' = user_order_id o /\
        strategy_id o' = strategy_id o /\
        status o' = status o /\
        events te'
        = events te
          ++ Lock :: latch
          ++ [RiskOnOrderTraded o' rsp;
              Log LInfo "[TradingEngine::on_primary_market_traded] done.";
              Unlock]
  | ACQUIRED_STOCK | RELEASED_STOCK | CASH_SUBSTITUTION =>
      count_events is_risk_traded (events te')
      = S (count_events is_risk_traded (events te)) /\
      exists o',
        traded_volume o' = traded_volume o /\
        canceled_volume o' = canceled_volume o /\
        req o' = req o /\
        order_map_ te' !! id = Some o' /\
        order_id o' = trd_order_id rsp /\
        accepted o' = true /\
        user_order_id o' = user_order_id o /\
        strategy_id o' = strategy_id o /\
        status o' = status o /\
        events te'
        = events te ++ Lock :: latch ++ [RiskOnOrderTraded o' rsp; Unlock]
  | OTHER_TRADE_TYPE =>
      exists o',
        traded_volume o' = traded_volume o /\
        canceled_volume o' = canceled_volume o /\
        req o' = req o /\
        order_map_ te' !! id = Some o' /\
        order_id o' = trd_order_id rsp /\
        accepted o' = true /\
        user_order_id o' = user_order_id o /\
        strategy_id o' = strategy_id o /\
        status o' = status o /\
        events te' = events te ++ Lock :: latch ++ [Unlock]
  end.
Proof.
  intros Ho id te' latch. subst id te' latch. unfold on_order_traded.
  pose proof (on_secondary_market_traded_found rsp te o Ho) as [Hsm Hse].
  pose proof (on_primary_market_traded_found rsp te o Ho) as [Hpm Hpe].
  assert (Hlatch : count_events is_risk_traded (latch_events o) = 0%nat)
    by (unfold latch_events; destruct (accepted o); reflexivity).
  assert (Hreq : req (latched o) = req o /\
                 traded_volume (latched o) = traded_volume o /\
                 canceled_volume (latched o) = canceled_volume o)
    by (unfold latched; destruct (accepted o); auto).
  destruct Hreq as (Hreq & Htv & Hcv).
  assert (Hid : accepted (latched o) = true /\
                user_order_id (latched o) = user_order_id o /\
                strategy_id (latched o) = strategy_id o /\
                status (latched o) = status o)
    by (unfold latched; destruct (accepted o) eqn:Ha; auto).
  destruct Hid as (Hacc & Huid & Hsid & Hst).
  split.
  { intros k Hk. destruct (trade_type rsp);
      [rewrite Hsm; destruct (terminal (after_secondary_trade rsp o))
      |rewrite Hpm ..];
      rewrite ?lookup_delete_ne, ?lookup_insert_ne by congruence;
      reflexivity. }
  unfold latch_events in Hse, Hpe.
  destruct (trade_type rsp); simpl in *.
  - exists (after_secondary_trade rsp o). rewrite Hsm, Hse.
    repeat split; auto.
    destruct (terminal (after_secondary_trade rsp o)).
    + apply lookup_delete_eq.
    + apply lookup_insert_eq.
  - rewrite Hpm. split; [|split; [apply lookup_delete_eq|]].
    + rewrite Hpe, !count_events_app. simpl.
      fold (latch_events o). rewrite count_events_app, Hlatch. simpl. lia.
    + exists (set_traded_volume (trd_volume rsp) (after_primary_trade rsp o)).
      rewrite Hpe. simpl. repeat split; auto.
  - rewrite Hpm. split.
    + rewrite Hpe, !count_events_app. simpl.
      fold (latch_events o). rewrite count_events_app, Hlatch. simpl. lia.
    + exists (after_primary_trade rsp o). rewrite lookup_insert_eq, Hpe.
      simpl. repeat split; auto.
  - rewrite Hpm. split.
    + rewrite Hpe, !count_events_app. simpl.
      fold (latch_events o). rewrite count_events_app, Hlatch. simpl. lia.
    + exists (after_primary_trade rsp o). rewrite lookup_insert_eq, Hpe.
      simpl. repeat split; auto.
  - rewrite Hpm. split.
    + rewrite Hpe, !count_events_app. simpl.
      fold (latch_events o). rewrite count_events_app, Hlatch. simpl. lia.
    + exists (after_primary_trade rsp o). rewrite lookup_insert_eq, Hpe.
      simpl. repeat split; auto.
  - exists (after_primary_trade rsp o). rewrite Hpm, lookup_insert_eq, Hpe.
    simpl. repeat split; auto.
Qed.

(** ** The acceptance latch *)

Lemma keyed_insert (m : gmap Z Order) (k : Z) (o : Order) :
  keyed m -> engine_order_id (req o) = k -> keyed (<[k := o]> m).
Proof.
  intros Hm Ho k' o'. rewrite lookup_insert. case_decide.
  - intros [= <-]. congruence.
  - apply Hm.
Qed.

Lemma keyed_delete (m : gmap Z Order) (k : Z) : keyed m -> keyed (delete k m).
Proof.
  intros Hm k' o'. rewrite lookup_delete. case_decide; [discriminate|apply Hm].
Qed.

Lemma unaccepted_insert (id k : Z) (o : Order) (m : gmap Z Order) :
  unaccepted id (<[k := o]> m)
  = if decide (k = id) then (if accepted o then 0%nat else 1%nat)
    else unaccepted id m.
Proof. unfold unaccepted. rewrite lookup_insert. case_decide; reflexivity. Qed.

Lemma unaccepted_delete (id k : Z) (m : gmap Z Order) :
  unaccepted id (delete k m)
  = if decide (k = id) then 0%nat else unaccepted id m.
Proof. unfold unaccepted. rewrite lookup_delete. case_decide; reflexivity. Qed.

Lemma unaccepted_found (id : Z) (o : Order) (m : gmap Z Order) :
  m !! id = Some o -> unaccepted id m = if accepted o then 0%nat else 1%nat.
Proof. unfold unaccepted. intros ->. reflexivity. Qed.

Lemma latched_fields (o : Order) :
  req (latched o) = req o /\ accepted (latched o) = true /\
  traded_volume (latched o) = traded_volume o /\
  canceled_volume (latched o) = canceled_volume o /\
  status (latched o) = status o.
Proof. unfold latched. destruct (accepted o) eqn:E; simpl; auto. Qed.

Lemma count_latch_events (id : Z) (o : Order) :
  count_events (accepted_for id) (latch_events o)
  = if accepted o then 0%nat
    else if engine_order_id (req o) =? id then 1%nat else 0%nat.
Proof.
  unfold latch_events. destruct (accepted o); simpl; [reflexivity|].
  destruct (engine_order_id (req o) =? id); reflexivity.
Qed.

(** One callback, seen from order [id]: the registry stays keyed, events are
    only added, and an [on_order_accepted] hook for [id] is paid for by the
    order ceasing to be unaccepted. *)
Lemma callback_latch_budget (id : Z) (i : Input) (te : TradingEngine) :
  is_callback i = true ->
  keyed (order_map_ te) ->
  keyed (order_map_ (step i te)) /\
  exists evs,
    events (step i te) = events te ++ evs /\
    (count_events (accepted_for id) evs + unaccepted id (order_map_ (step i te))
     <= unaccepted id (order_map_ te))%nat.
Proof.
  intros Hcb Hkeyed.
  destruct i as [cmd|rsp|rsp|rsp|rsp|rsp]; try discriminate; simpl.
  - destruct (order_map_ te !! acc_engine_order_id rsp) as [o|] eqn:Ho.
    + destruct (on_order_accepted_found rsp te o Ho) as [Hm He].
      rewrite Hm, He. pose proof (Hkeyed _ _ Ho) as Hk.
      destruct (accepted o) eqn:Hacc.
      * split; [assumption|]. eexists; split; [reflexivity|]. simpl. lia.
      * split; [apply keyed_insert; assumption|].
        eexists; split; [reflexivity|]. simpl. rewrite Hk.
        rewrite unaccepted_insert. simpl. case_decide as Hid.
        -- subst id. rewrite Z.eqb_refl, (unaccepted_found _ _ _ Ho), Hacc. lia.
        -- apply Z.eqb_neq in Hid. rewrite Hid. lia.
    + destruct (callback_not_found te (AcceptedCb rsp) _ eq_refl Ho)
        as [Hm [msg He]]. simpl in Hm, He. rewrite Hm, He.
      split; [assumption|]. eexists; split; [reflexivity|]. simpl. lia.
  - destruct (order_map_ te !! rej_engine_order_id rsp) as [o|] eqn:Ho.
    + destruct (on_order_rejected_found rsp te o Ho) as [Hm He].
      rewrite Hm, He. split; [apply keyed_delete; assumption|].
      eexists; split; [reflexivity|]. simpl. rewrite unaccepted_delete.
      case_decide; lia.
    + destruct (callback_not_found te (RejectedCb rsp) _ eq_refl Ho)
        as [Hm [msg He]]. simpl in Hm, He. rewrite Hm, He.
      split; [assumption|]. eexists; split; [reflexivity|]. simpl. lia.
  - destruct (order_map_ te !! trd_engine_order_id rsp) as [o|] eqn:Ho.
    + pose proof (Hkeyed _ _ Ho) as Hk.
      destruct (latched_fields o) as (Hreq & Hacc & _).
      unfold on_order_traded.
      assert (Hbudget :
        forall tail : list Event,
          count_events (accepted_for id) tail = 0%nat ->
          forall m' : gmap Z Order,
            (m' = delete (trd_engine_order_id rsp) (order_map_ te) \/
             exists o', m' = <[trd_engine_order_id rsp := o']> (order_map_ te)
                        /\ accepted o' = true) ->
            (count_events (accepted_for id) (Lock :: latch_events o ++ tail)
             + unaccepted id m' <= unaccepted id (order_map_ te))%nat).
      { intros tail Htail m' Hm'. simpl.
        rewrite count_events_app, count_latch_events, Htail, Hk.
        destruct Hm' as [-> | (o' & -> & Ho')].
        - rewrite unaccepted_delete. case_decide as Hid.
          + subst id. rewrite Z.eqb_refl, (unaccepted_found _ _ _ Ho).
            destruct (accepted o); lia.
          + apply Z.eqb_neq in Hid. rewrite Hid. destruct (accepted o); lia.
        - rewrite unaccepted_insert, Ho'. case_decide as Hid.
          + subst id. rewrite Z.eqb_refl, (unaccepted_found _ _ _ Ho).
            destruct (accepted o); lia.
          + apply Z.eqb_neq in Hid. rewrite Hid. destruct (accepted o); lia. }
      destruct (trade_type rsp) eqn:Hty.
      * destruct (on_secondary_market_traded_found rsp te o Ho) as [Hm He].
        rewrite He. split.
        -- rewrite Hm. destruct (terminal (after_secondary_trade rsp o));
             [apply keyed_delete | apply keyed_insert]; try assumption.
           simpl. rewrite Hreq. exact Hk.
        -- eexists; split; [reflexivity|]. apply Hbudget.
           ++ simpl. destruct (terminal (after_secondary_trade rsp o));
                reflexivity.
           ++ rewrite Hm. destruct (terminal (after_secondary_trade rsp o));
                [left; reflexivity|right]. eexists; split; [reflexivity|].
              simpl. assumption.
      * destruct (on_primary_market_traded_found rsp te o Ho) as [Hm He].
        rewrite Hty in Hm, He. rewrite He, Hm. split.
        -- apply keyed_delete; assumption.
        -- eexists; split; [reflexivity|]. apply Hbudget; [reflexivity|].
           left; reflexivity.
      * destruct (on_primary_market_traded_found rsp te o Ho) as [Hm He].
        rewrite Hty in Hm, He. rewrite He, Hm. split.
        -- apply keyed_insert; [assumption|]. simpl. rewrite Hreq. exact Hk.
        -- eexists; split; [reflexivity|]. apply Hbudget; [reflexivity|].
           right. eexists; split; [reflexivity|]. simpl. assumption.
      * destruct (on_primary_market_traded_found rsp te o Ho) as [Hm He].
        rewrite Hty in Hm, He. rewrite He, Hm. split.
        -- apply keyed_insert; [assumption|]. simpl. rewrite Hreq. exact Hk.
        -- eexists; split; [reflexivity|]. apply Hbudget; [reflexivity|].
           right. eexists; split; [reflexivity|]. simpl. assumption.
      * destruct (on_primary_market_traded_found rsp te o Ho) as [Hm He].
        rewrite Hty in Hm, He. rewrite He, Hm. split.
        -- apply keyed_insert; [assumption|]. simpl. rewrite Hreq. exact Hk.
        -- eexists; split; [reflexivity|]. apply Hbudget; [reflexivity|].
           right. eexists; split; [reflexivity|]. simpl. assumption.
      * destruct (on_primary_market_traded_found rsp te o Ho) as [Hm He].
        rewrite Hty in Hm, He. rewrite He, Hm. split.
        -- apply keyed_insert; [assumption|]. simpl. rewrite Hreq. exact Hk.
        -- eexists; split; [reflexivity|]. apply Hbudget; [reflexivity|].
           right. eexists; split; [reflexivity|]. simpl. assumption.
    + destruct (callback_not_found te (TradedCb rsp) _ eq_refl Ho)
        as [Hm [msg He]]. simpl in Hm, He. rewrite Hm, He.
      split; [assumption|]. eexists; split; [reflexivity|]. simpl. lia.
  - destruct (order_map_ te !! can_engine_order_id rsp) as [o|] eqn:Ho.
    + pose proof (Hkeyed _ _ Ho) as Hk.
      destruct (on_order_canceled_found rsp te o Ho) as [Hm He].
      rewrite Hm, He. destruct (terminal (after_cancel rsp o)).
      * split; [apply keyed_delete; assumption|].
        eexists; split; [reflexivity|]. simpl. rewrite unaccepted_delete.
        case_decide; lia.
      * split; [apply keyed_insert; [assumption|exact Hk]|].
        eexists; split; [reflexivity|]. simpl. rewrite unaccepted_insert.
        simpl. case_decide as Hid; [|lia]. subst id.
        rewrite (unaccepted_found _ _ _ Ho). lia.
    + destruct (callback_not_found te (CanceledCb rsp) _ eq_refl Ho)
        as [Hm [msg He]]. simpl in Hm, He. rewrite Hm, He.
      split; [assumption|]. eexists; split; [reflexivity|]. simpl. lia.
  - unfold on_order_cancel_rejected. engine_simpl.
    split; [assumption|]. eexists; split; [reflexivity|]. simpl. lia.
Qed.

Lemma run_callbacks_latch_budget (id : Z) (inputs : list Input)
  (te : TradingEngine) :
  forallb is_callback inputs = true ->
  keyed (order_map_ te) ->
  keyed (order_map_ (run inputs te)) /\
  exists evs,
    events (run inputs te) = events te ++ evs /\
    (count_events (accepted_for id) evs
     + unaccepted id (order_map_ (run inputs te))
     <= unaccepted id (order_map_ te))%nat.
Proof.
  revert te. induction inputs as [|i rest IH]; intros te Hcb Hkeyed; simpl.
  - split; [assumption|]. exists []. rewrite app_nil_r. simpl. auto.
  - simpl in Hcb. apply andb_true_iff in Hcb as [Hi Hrest].
    destruct (callback_latch_budget id i te Hi Hkeyed) as (Hk1 & evs1 & He1 & Hb1).
    destruct (IH (step i te) Hrest Hk1) as (Hk2 & evs2 & He2 & Hb2).
    split; [assumption|]. exists (evs1 ++ evs2). split.
    + rewrite He2, He1, app_assoc. reflexivity.
    + rewrite count_events_app. lia.
Qed.

Lemma first_accept_or_trade (te : TradingEngine) (id : Z) (o : Order)
  (first : Input) :
  order_map_ te !! id = Some o ->
  engine_order_id (req o) = id ->
  accepted o = false ->
  accept_or_trade first = true ->
  callback_id first = Some id ->
  exists evs,
    events (step first te) = events te ++ evs /\
    count_events (accepted_for id) evs = 1%nat /\
    match first with
    | AcceptedCb _ =>
        exists o1, order_map_ (step first te) !! id = Some o1 /\
                   accepted o1 = true
    | _ => True
    end.
Proof.
  intros Ho Hk Hacc Hkind Hid.
  destruct first as [cmd|rsp|rsp|rsp|rsp|rsp]; try discriminate;
    simpl in Hid; injection Hid as <-; simpl.
  - destruct (on_order_accepted_found rsp te o Ho) as [Hm He].
    rewrite Hm, He, Hacc. eexists; split; [reflexivity|]. simpl.
    rewrite Hk, Z.eqb_refl. split; [reflexivity|].
    eexists. rewrite lookup_insert_eq. split; reflexivity.
  - unfold on_order_traded.
    assert (Hlatch : count_events (accepted_for (trd_engine_order_id rsp))
                       (latch_events o) = 1%nat)
      by (rewrite count_latch_events, Hacc, Hk, Z.eqb_refl; reflexivity).
    destruct (trade_type rsp) eqn:Hty.
    + destruct (on_secondary_market_traded_found rsp te o Ho) as [_ He].
      rewrite He. eexists; split; [reflexivity|]. simpl.
      rewrite count_events_app, Hlatch.
      destruct (terminal (after_secondary_trade rsp o)); auto.
    + destruct (on_primary_market_traded_found rsp te o Ho) as [_ He].
      rewrite He, Hty. eexists; split; [reflexivity|]. simpl.
      rewrite count_events_app, Hlatch. auto.
    + destruct (on_primary_market_traded_found rsp te o Ho) as [_ He].
      rewrite He, Hty. eexists; split; [reflexivity|]. simpl.
      rewrite count_events_app, Hlatch. auto.
    + destruct (on_primary_market_traded_found rsp te o Ho) as [_ He].
      rewrite He, Hty. eexists; split; [reflexivity|]. simpl.
      rewrite count_events_app, Hlatch. auto.
    + destruct (on_primary_market_traded_found rsp te o Ho) as [_ He].
      rewrite He, Hty. eexists; split; [reflexivity|]. simpl.
      rewrite count_events_app, Hlatch. auto.
    + destruct (on_primary_market_traded_found rsp te o Ho) as [_ He].
      rewrite He, Hty. eexists; split; [reflexivity|]. simpl.
      rewrite count_events_app, Hlatch. auto.
Qed.

Lemma accept_when_settled (te : TradingEngine) (rsp : OrderAcceptedRsp) :
  unaccepted (acc_engine_order_id rsp) (order_map_ te) = 0%nat ->
  order_map_ (on_order_accepted rsp te) = order_map_ te /\
  exists quiet,
    events (on_order_accepted rsp te) = events te ++ quiet /\
    count_events is_risk_hook quiet = 0%nat.
Proof.
  unfold unaccepted. intros Hsettled.
  destruct (order_map_ te !! acc_engine_order_id rsp) as [o|] eqn:Ho.
  - destruct (on_order_accepted_found rsp te o Ho) as [Hm He].
    rewrite Hm, He. destruct (accepted o); [|discriminate].
    split; [reflexivity|]. eexists; split; reflexivity.
  - destruct (callback_not_found te (AcceptedCb rsp) _ eq_refl Ho)
      as [Hm [msg He]]. simpl in Hm, He. rewrite Hm, He.
    split; [reflexivity|]. eexists; split; reflexivity.
Qed.

(** C4. An order is registered and not yet accepted.  Whichever of an
    [on_order_accepted] callback and a trade callback reaches it first makes
    the risk manager's [on_order_accepted] run once, and leaves the order,
    where it is still registered, with [accepted] set.  After any further
    gateway callbacks, for this or other orders, another [on_order_accepted]
    callback for the order leaves the registry as it is and calls no risk
    hook, and the [on_order_accepted] hook has still run only that once. *)
Theorem acceptance_latches_once (te : TradingEngine) (id : Z) (o : Order)
  (first : Input) (later : list Input) (again : OrderAcceptedRsp) :
  keyed (order_map_ te) ->
  order_map_ te !! id = Some o ->
  accepted o = false ->
  accept_or_trade first = true ->
  callback_id first = Some id ->
  forallb is_callback later = true ->
  acc_engine_order_id again = id ->
  let te1 := step first te in
  let te2 := run later te1 in
  let te3 := on_order_accepted again te2 in
  count_events (accepted_for id) (events te1)
  = S (count_events (accepted_for id) (events te)) /\
  (forall o1, order_map_ te1 !! id = Some o1 -> accepted o1 = true) /\
  match first with
  | AcceptedCb _ =>
      exists o1, order_map_ te1 !! id = Some o1 /\ accepted o1 = true
  | _ => True
  end /\
  order_map_ te3 = order_map_ te2 /\
  (exists quiet,
     events te3 = events te2 ++ quiet /\
     count_events is_risk_hook quiet = 0%nat) /\
  count_events (accepted_for id) (events te3)
  = count_events (accepted_for id) (events te1).
Proof.
  intros Hkeyed Ho Hacc Hkind Hid Hlater Hagain. cbv zeta.
  pose proof (Hkeyed _ _ Ho) as Hk.
  destruct (first_accept_or_trade te id o first Ho Hk Hacc Hkind Hid)
    as (evs1 & He1 & Hc1 & Hfirst).
  assert (Hcb : is_callback first = true) by (destruct first; auto; discriminate).
  destruct (callback_latch_budget id first te Hcb Hkeyed)
    as (Hk1 & evs1' & He1' & Hb1).
  rewrite He1 in He1'. apply app_inv_head in He1'. subst evs1'.
  rewrite (unaccepted_found _ _ _ Ho), Hacc, Hc1 in Hb1.
  assert (Hu1 : unaccepted id (order_map_ (step first te)) = 0%nat) by lia.
  destruct (run_callbacks_latch_budget id later (step first te) Hlater Hk1)
    as (Hk2 & evs2 & He2 & Hb2).
  rewrite Hu1 in Hb2.
  assert (Hu2 : unaccepted id (order_map_ (run later (step first te))) = 0%nat)
    by lia.
  assert (Hc2 : count_events (accepted_for id) evs2 = 0%nat) by lia.
  destruct (accept_when_settled (run later (step first te)) again)
    as (Hm3 & quiet & He3 & Hq).
  { rewrite Hagain. exact Hu2. }
  repeat split.
  - rewrite He1, count_events_app, Hc1. lia.
  - intros o1 Ho1. unfold unaccepted in Hu1. rewrite Ho1 in Hu1.
    destruct (accepted o1); [reflexivity|discriminate].
  - exact Hfirst.
  - exact Hm3.
  - exists quiet. split; assumption.
  - rewrite He3, He2, !count_events_app, Hc2.
    assert (Hqa : count_events (accepted_for id) quiet = 0%nat).
    { clear - Hq. induction quiet as [|e q IH]; [reflexivity|].
      simpl in *. destruct e; simpl in *; try discriminate; auto. }
    lia.
Qed.

(** ** Completion *)

Lemma count_latch_events_other (p : Event -> bool) (o : Order) :
  (forall o', p (RiskOnOrderAccepted o') = false) ->
  (forall lvl msg, p (Log lvl msg) = false) ->
  count_events p (latch_events o) = 0%nat.
Proof.
  intros Hacc Hlog. unfold latch_events. destruct (accepted o); simpl;
    rewrite ?Hacc, ?Hlog; reflexivity.
Qed.

(** One secondary-market trade or cancel on a registered order: the order's
    new volumes, and what happens on either outcome of the terminal test. *)
Lemma volume_callback_step (id : Z) (i : Input) (te : TradingEngine)
  (o : Order) :
  order_map_ te !! id = Some o ->
  engine_order_id (req o) = id ->
  volume_callback_for id i = true ->
  exists o1,
    req o1 = req o /\
    traded_volume o1
    = match i with
      | TradedCb rsp => wrap_int (traded_volume o + trd_volume rsp)
      | _ => traded_volume o
      end /\
    canceled_volume o1
    = match i with
      | CanceledCb rsp => can_canceled_volume rsp
      | _ => canceled_volume o
      end /\
    if terminal o1 then completed_in_one_section id te (step i te)
    else order_map_ (step i te) !! id = Some o1 /\
         count_events (completed_for id) (events (step i te))
         = count_events (completed_for id) (events te).
Proof.
  intros Ho Hk Hi.
  destruct i as [cmd|rsp|rsp|rsp|rsp|rsp]; try discriminate; simpl in Hi.
  - apply andb_true_iff in Hi as [Hid Hty]. apply Z.eqb_eq in Hid.
    revert Hk. subst id. intros Hk. simpl. unfold on_order_traded.
    destruct (trade_type rsp); try discriminate.
    destruct (on_secondary_market_traded_found rsp te o Ho) as [Hm He].
    destruct (latched_fields o) as (Hreq & _ & Htv & Hcv & _).
    exists (after_secondary_trade rsp o). simpl.
    split; [assumption|]. split; [reflexivity|]. split; [assumption|].
    destruct (terminal (after_secondary_trade rsp o)).
    + split; [rewrite Hm; apply lookup_delete_eq|].
      exists (latch_events o
              ++ [Log LInfo "[TradingEngine::on_order_traded] 报单成交.";
                  RiskOnOrderTraded (after_secondary_trade rsp o) rsp;
                  Log LInfo "[TradingEngine::on_order_traded] 报单完成.";
                  RiskOnOrderCompleted (after_secondary_trade rsp o)]).
      split; [rewrite He, <- app_assoc; reflexivity|].
      rewrite !count_events_app, !count_latch_events_other by reflexivity.
      simpl. rewrite Hreq, Hk, Z.eqb_refl. auto.
    + split; [rewrite Hm; apply lookup_insert_eq|].
      rewrite He, !count_events_app. simpl.
      rewrite count_events_app, count_latch_events_other by reflexivity.
      simpl. lia.
  - apply Z.eqb_eq in Hi. revert Hk. subst id. intros Hk. simpl.
    destruct (on_order_canceled_found rsp te o Ho) as [Hm He].
    exists (after_cancel rsp o). simpl.
    split; [reflexivity|]. split; [reflexivity|]. split; [reflexivity|].
    destruct (terminal (after_cancel rsp o)).
    + split; [rewrite Hm; apply lookup_delete_eq|].
      exists [Log LInfo "[TradingEngine::on_order_canceled] 报单已撤.";
              RiskOnOrderCanceled (after_cancel rsp o) (can_canceled_volume rsp);
              Log LInfo "[TradingEngine::on_order_canceled] 报单完成.";
              RiskOnOrderCompleted (after_cancel rsp o)].
      split; [rewrite He; reflexivity|].
      simpl. rewrite Hk, Z.eqb_refl. auto.
    + split; [rewrite Hm; apply lookup_insert_eq|].
      rewrite He, !count_events_app. simpl. lia.
Qed.

Lemma completed_in_one_section_count (id : Z) (te te' : TradingEngine) :
  completed_in_one_section id te te' ->
  order_map_ te' !! id = None /\
  count_events (completed_for id) (events te')
  = S (count_events (completed_for id) (events te)).
Proof.
  intros (Hgone & middle & He & _ & Hc). split; [assumption|].
  rewrite He, count_events_app. simpl. rewrite count_events_app, Hc. simpl.
  lia.
Qed.

(** Once the order is gone, its volume callbacks are all dropped. *)
Lemma run_volume_callbacks_gone (id : Z) (inputs : list Input)
  (te : TradingEngine) :
  order_map_ te !! id = None ->
  forallb (volume_callback_for id) inputs = true ->
  order_map_ (run inputs te) !! id = None /\
  count_events (completed_for id) (events (run inputs te))
  = count_events (completed_for id) (events te).
Proof.
  revert te. induction inputs as [|i rest IH]; intros te Hgone Hall; simpl.
  - auto.
  - simpl in Hall. apply andb_true_iff in Hall as [Hi Hrest].
    assert (Hid : callback_id i = Some id).
    { destruct i; try discriminate; simpl in *.
      - apply andb_true_iff in Hi as [Hi _]. apply Z.eqb_eq in Hi. congruence.
      - apply Z.eqb_eq in Hi. congruence. }
    destruct (callback_not_found te i id Hid Hgone) as [Hm [msg He]].
    destruct (IH (step i te)) as [Hgone' Hcount]; [congruence|assumption|].
    split; [assumption|]. rewrite Hcount, He, count_events_app. simpl. lia.
Qed.

(** Any run of volume callbacks for a registered order: either the order
    completed once on the way and is gone, or it is still registered with the
    trades summed (as [int]s) and the last reported canceled volume. *)
Lemma run_volume_callbacks (id : Z) (inputs : list Input) (te : TradingEngine)
  (o : Order) :
  order_map_ te !! id = Some o ->
  engine_order_id (req o) = id ->
  forallb (volume_callback_for id) inputs = true ->
  (order_map_ (run inputs te) !! id = None /\
   count_events (completed_for id) (events (run inputs te))
   = S (count_events (completed_for id) (events te))) \/
  (exists o',
     order_map_ (run inputs te) !! id = Some o' /\
     req o' = req o /\
     wrap_int (traded_volume o')
     = wrap_int (traded_volume o + traded_sum inputs) /\
     canceled_volume o' = last_canceled (canceled_volume o) inputs /\
     count_events (completed_for id) (events (run inputs te))
     = count_events (completed_for id) (events te) /\
     (inputs <> [] -> terminal o' = false)).
Proof.
  revert te o. induction inputs as [|i rest IH]; intros te o Ho Hk Hall.
  - right. exists o. simpl. rewrite Z.add_0_r. repeat split; auto. congruence.
  - simpl in Hall. apply andb_true_iff in Hall as [Hi Hrest]. simpl run.
    destruct (volume_callback_step id i te o Ho Hk Hi)
      as (o1 & Hreq1 & Htv1 & Hcv1 & Hstep).
    destruct (terminal o1) eqn:Hterm.
    + apply completed_in_one_section_count in Hstep as [Hgone Hcount].
      destruct (run_volume_callbacks_gone id rest (step i te) Hgone Hrest)
        as [Hgone' Hcount'].
      left. split; [assumption|]. congruence.
    + destruct Hstep as [Ho1 Hcount1].
      assert (Hk1 : engine_order_id (req o1) = id) by (rewrite Hreq1; exact Hk).
      destruct (IH (step i te) o1 Ho1 Hk1 Hrest)
        as [[Hgone Hcount] | (o' & Ho' & Hreq' & Htv' & Hcv' & Hcount' & Hnt)].
      * left. split; [assumption|]. congruence.
      * right. exists o'. split; [assumption|]. split; [congruence|].
        split; [|split; [|split; [congruence|]]].
        -- rewrite Htv', Htv1.
           destruct i as [cmd|rsp|rsp|rsp|rsp|rsp]; try discriminate; simpl.
           ++ rewrite wrap_int_add_l. f_equal. lia.
           ++ reflexivity.
        -- rewrite Hcv', Hcv1.
           destruct i as [cmd|rsp|rsp|rsp|rsp|rsp]; try discriminate;
             reflexivity.
        -- intros _. destruct rest as [|i' rest'].
           ++ simpl in Ho'. rewrite Ho1 in Ho'. injection Ho' as <-.
              exact Hterm.
           ++ apply Hnt. discriminate.
Qed.

(** C1, amended.  For an order the registry holds under its engine order id:
    a secondary-market trade, or a cancel, after which [traded_volume +
    canceled_volume == req.volume] holds (as the engine computes it, on
    [int]s, a cancel having overwritten [canceled_volume]) runs
    [on_order_completed] once for the order and erases it, inside the one
    critical section of that callback.  And after any non-empty sequence of
    secondary-market trades and cancels of the order in which the order's
    traded volume, the volumes of the trades and the canceled volume that the
    last cancel reported (the order's own when there is no cancel) add up to
    [req.volume], the order is gone from the registry and
    [on_order_completed] has run exactly once for it. *)
Theorem completion_exactly_once (te : TradingEngine) (id : Z) (o : Order) :
  order_map_ te !! id = Some o ->
  engine_order_id (req o) = id ->
  (forall rsp,
     trade_type rsp = SECONDARY_MARKET ->
     trd_engine_order_id rsp = id ->
     wrap_int (wrap_int (traded_volume o + trd_volume rsp) + canceled_volume o)
     = volume (req o) ->
     completed_in_one_section id te (on_order_traded rsp te)) /\
  (forall rsp,
     can_engine_order_id rsp = id ->
     wrap_int (traded_volume o + can_canceled_volume rsp) = volume (req o) ->
     completed_in_one_section id te (on_order_canceled rsp te)) /\
  (forall inputs,
     inputs <> [] ->
     forallb (volume_callback_for id) inputs = true ->
     int_range (volume (req o)) ->
     traded_volume o + traded_sum inputs
     + last_canceled (canceled_volume o) inputs
     = volume (req o) ->
     order_map_ (run inputs te) !! id = None /\
     count_events (completed_for id) (events (run inputs te))
     = S (count_events (completed_for id) (events te))).
Proof.
  intros Ho Hk. split; [|split].
  - intros rsp Hty Hid Hsum.
    destruct (volume_callback_step id (TradedCb rsp) te o Ho Hk)
      as (o1 & Hreq1 & Htv1 & Hcv1 & Hstep).
    { simpl. rewrite Hty, Hid, Z.eqb_refl. reflexivity. }
    assert (Hterm : terminal o1 = true).
    { unfold terminal. rewrite Htv1, Hcv1, Hreq1. apply Z.eqb_eq. exact Hsum. }
    rewrite Hterm in Hstep. exact Hstep.
  - intros rsp Hid Hsum.
    destruct (volume_callback_step id (CanceledCb rsp) te o Ho Hk)
      as (o1 & Hreq1 & Htv1 & Hcv1 & Hstep).
    { simpl. rewrite Hid. apply Z.eqb_refl. }
    assert (Hterm : terminal o1 = true).
    { unfold terminal. rewrite Htv1, Hcv1, Hreq1. apply Z.eqb_eq. exact Hsum. }
    rewrite Hterm in Hstep. exact Hstep.
  - intros inputs Hne Hall Hrange Hsum.
    destruct (run_volume_callbacks id inputs te o Ho Hk Hall)
      as [Hdone | (o' & Ho' & Hreq' & Htv' & Hcv' & _ & Hnt)]; [exact Hdone|].
    exfalso. specialize (Hnt Hne). unfold terminal in Hnt.
    apply Z.eqb_neq in Hnt. apply Hnt.
    rewrite <- wrap_int_add_l, Htv', wrap_int_add_l, Hcv', Hreq', Hsum.
    apply wrap_int_id. exact Hrange.
Qed.

(** ** The registry invariant *)

Lemma scan_keeps_registry (f : TradingEngine -> Z * Order -> TradingEngine)
  (l : list (Z * Order)) (te : TradingEngine) :
  (forall te e, order_map_ (f te e) = order_map_ te) ->
  order_map_ (foldl f te l) = order_map_ te.
Proof.
  intros Hf. revert te. induction l as [|e l IH]; intros te; simpl.
  - reflexivity.
  - rewrite IH. apply Hf.
Qed.

Lemma cancel_for_ticker_registry (ticker_index : Z) (te : TradingEngine) :
  order_map_ (cancel_for_ticker ticker_index te) = order_map_ te.
Proof.
  unfold cancel_for_ticker. engine_simpl. rewrite scan_keeps_registry.
  - reflexivity.
  - intros te' e. destruct (ticker_index =? index (contract (req e.2)));
      reflexivity.
Qed.

Lemma cancel_all_registry (te : TradingEngine) :
  order_map_ (cancel_all te) = order_map_ te.
Proof.
  unfold cancel_all. engine_simpl. rewrite scan_keeps_registry; reflexivity.
Qed.

(** [send_order] leaves the registry alone or files the order it built. *)
Lemma send_order_registry (cmd : TraderCommand) (te : TradingEngine) :
  order_map_ (send_order cmd te).2 = order_map_ te \/
  exists contract,
    order_map_ (send_order cmd te).2
    = <[next_engine_order_id_ te
        := order_of_cmd cmd contract (next_engine_order_id_ te)]>
        (order_map_ te).
Proof.
  destruct (get_by_index (tor_ticker_index (order_req cmd)))
    as [contract|] eqn:Hc.
  - set (order := order_of_cmd cmd contract (next_engine_order_id_ te)).
    assert (Hpush :
      without_check (order_req cmd) = true \/
      check_order_req (at_risk_check te) order = NO_ERROR ->
      order_map_ (send_order cmd te).2 = order_map_ te \/
      order_map_ (send_order cmd te).2
      = <[next_engine_order_id_ te := order]> (order_map_ te)).
    { intros Hpass.
      destruct (gateway_send_order (at_push cmd contract te) (req order))
        eqn:Hgw.
      - rewrite (send_order_pushed cmd te contract order Hc eq_refl Hpass Hgw).
        simpl. destruct (order_map_ te !! next_engine_order_id_ te); auto.
      - rewrite (send_order_push_failed cmd te contract order Hc eq_refl Hpass
                   Hgw).
        simpl. auto. }
    destruct (without_check (order_req cmd)) eqn:Hwc.
    + destruct Hpush as [H|H]; eauto.
    + destruct (Z.eq_dec (check_order_req (at_risk_check te) order) NO_ERROR)
        as [Hok|Hrisk].
      * destruct Hpush as [H|H]; eauto.
      * rewrite (send_order_risk_rejected cmd te contract order _ Hc eq_refl
                   Hwc eq_refl Hrisk).
        simpl. auto.
  - left. unfold send_order. rewrite Hc. reflexivity.
Qed.

Lemma execute_cmd_registry (cmd : TraderCommand) (te : TradingEngine) :
  order_map_ (execute_cmd cmd te) = order_map_ te \/
  cmd_type cmd = CMD_NEW_ORDER /\
  exists contract,
    order_map_ (execute_cmd cmd te)
    = <[next_engine_order_id_ te
        := order_of_cmd cmd contract (next_engine_order_id_ te)]>
        (order_map_ te).
Proof.
  unfold execute_cmd.
  destruct (magic cmd =? TRADER_CMD_MAGIC); simpl; [|auto].
  destruct (cmd_type cmd =? CMD_NEW_ORDER) eqn:Hnew.
  - apply Z.eqb_eq in Hnew.
    destruct (send_order_registry cmd (emit (Log LDebug "new order") te))
      as [H|[contract H]]; [left; exact H|right].
    split; [assumption|]. exists contract. exact H.
  - left. destruct (cmd_type cmd =? CMD_CANCEL_ORDER); [reflexivity|].
    destruct (cmd_type cmd =? CMD_CANCEL_TICKER);
      [rewrite cancel_for_ticker_registry; reflexivity|].
    destruct (cmd_type cmd =? CMD_CANCEL_ALL);
      [rewrite cancel_all_registry; reflexivity|].
    reflexivity.
Qed.

Lemma order_ok_of_cmd (cmd : TraderCommand) (contract : Contract) (id : Z) :
  0 <= tor_volume (order_req cmd) <= INT_MAX ->
  order_ok (order_of_cmd cmd contract id).
Proof. unfold order_ok. simpl. intros H. repeat split; lia. Qed.

Lemma order_ok_same_volumes (o o' : Order) :
  order_ok o ->
  req o' = req o -> status o' = status o ->
  traded_volume o' = traded_volume o ->
  canceled_volume o' = canceled_volume o ->
  order_ok o'.
Proof.
  unfold order_ok. intros Hok -> -> -> ->. exact Hok.
Qed.

(** Whatever reaches the engine, orders stay filed under their own id. *)
Lemma step_keeps_keyed (i : Input) (te : TradingEngine) :
  keyed (order_map_ te) -> keyed (order_map_ (step i te)).
Proof.
  intros Hkeyed. destruct (is_callback i) eqn:Hcb.
  - apply (callback_latch_budget 0 i te Hcb Hkeyed).
  - destruct i as [cmd| | | | |]; try discriminate. simpl.
    destruct (execute_cmd_registry cmd te) as [-> | (_ & contract & ->)];
      [assumption|].
    apply keyed_insert; [assumption|reflexivity].
Qed.

Lemma run_keeps_keyed (inputs : list Input) (te : TradingEngine) :
  keyed (order_map_ te) -> keyed (order_map_ (run inputs te)).
Proof.
  revert te. induction inputs as [|i rest IH]; intros te Hkeyed; simpl.
  - assumption.
  - apply IH, step_keeps_keyed, Hkeyed.
Qed.

Lemma reachable_keyed (inputs : list Input) :
  keyed (order_map_ (run inputs initial_engine)).
Proof.
  apply run_keeps_keyed. intros k o Hko. simpl in Hko.
  rewrite lookup_empty in Hko. discriminate.
Qed.


(** One admissible input keeps every registered order within its volume. *)
Lemma step_keeps_registry_ok (i : Input) (te : TradingEngine) :
  registry_ok te -> input_ok te i = true -> registry_ok (step i te).
Proof.
  unfold registry_ok. intros Hok Hin.
  destruct i as [cmd|rsp|rsp|rsp|rsp|rsp]; simpl in *.
  - destruct (execute_cmd_registry cmd te) as [-> | (Hnew & contract & ->)];
      [assumption|].
    rewrite Hnew in Hin. simpl in Hin. apply andb_true_iff in Hin as [Hlo Hhi].
    apply map_Forall_insert_2; [|assumption].
    apply order_ok_of_cmd. lia.
  - destruct (order_map_ te !! acc_engine_order_id rsp) as [o|] eqn:Ho.
    + destruct (on_order_accepted_found rsp te o Ho) as [-> _].
      destruct (accepted o); [assumption|].
      apply map_Forall_insert_2; [|assumption].
      apply (order_ok_same_volumes o); auto. exact (Hok _ _ Ho).
    + destruct (callback_not_found te (AcceptedCb rsp) _ eq_refl Ho) as [Hm _].
      simpl in Hm. rewrite Hm. assumption.
  - destruct (order_map_ te !! rej_engine_order_id rsp) as [o|] eqn:Ho.
    + destruct (on_order_rejected_found rsp te o Ho) as [-> _].
      apply map_Forall_delete. assumption.
    + destruct (callback_not_found te (RejectedCb rsp) _ eq_refl Ho) as [Hm _].
      simpl in Hm. rewrite Hm. assumption.
  - destruct (order_map_ te !! trd_engine_order_id rsp) as [o|] eqn:Ho.
    + pose proof (Hok _ _ Ho) as Hoo.
      destruct (latched_fields o) as (Hreq & _ & Htv & Hcv & Hst).
      unfold on_order_traded. destruct (trade_type rsp) eqn:Hty.
      * destruct (on_secondary_market_traded_found rsp te o Ho) as [-> _].
        destruct (terminal (after_secondary_trade rsp o));
          [apply map_Forall_delete; assumption|].
        apply map_Forall_insert_2; [|assumption].
        apply andb_true_iff in Hin as [Hlo Hhi].
        unfold order_ok in *. simpl. rewrite Hreq, Hcv, Hst.
        rewrite wrap_int_id by (unfold int_range, INT_MIN, INT_MAX in *; lia).
        destruct Hoo as (? & ? & ? & ? & ?). repeat split; try lia; assumption.
      * destruct (on_primary_market_traded_found rsp te o Ho) as [Hm _].
        rewrite Hty in Hm. rewrite Hm. apply map_Forall_delete. assumption.
      * destruct (on_primary_market_traded_found rsp te o Ho) as [Hm _].
        rewrite Hty in Hm. rewrite Hm.
        apply map_Forall_insert_2; [|assumption].
        apply (order_ok_same_volumes o); auto.
      * destruct (on_primary_market_traded_found rsp te o Ho) as [Hm _].
        rewrite Hty in Hm. rewrite Hm.
        apply map_Forall_insert_2; [|assumption].
        apply (order_ok_same_volumes o); auto.
      * destruct (on_primary_market_traded_found rsp te o Ho) as [Hm _].
        rewrite Hty in Hm. rewrite Hm.
        apply map_Forall_insert_2; [|assumption].
        apply (order_ok_same_volumes o); auto.
      * destruct (on_primary_market_traded_found rsp te o Ho) as [Hm _].
        rewrite Hty in Hm. rewrite Hm.
        apply map_Forall_insert_2; [|assumption].
        apply (order_ok_same_volumes o); auto.
    + destruct (callback_not_found te (TradedCb rsp) _ eq_refl Ho) as [Hm _].
      simpl in Hm. rewrite Hm. assumption.
  - destruct (order_map_ te !! can_engine_order_id rsp) as [o|] eqn:Ho.
    + pose proof (Hok _ _ Ho) as Hoo.
      destruct (on_order_canceled_found rsp te o Ho) as [-> _].
      destruct (terminal (after_cancel rsp o));
        [apply map_Forall_delete; assumption|].
      apply map_Forall_insert_2; [|assumption].
      apply andb_true_iff in Hin as [Hlo Hhi].
      unfold order_ok in *. simpl.
      destruct Hoo as (? & ? & ? & ? & ?). repeat split; try lia; assumption.
    + destruct (callback_not_found te (CanceledCb rsp) _ eq_refl Ho) as [Hm _].
      simpl in Hm. rewrite Hm. assumption.
  - assumption.
Qed.

Lemma run_keeps_registry_ok (inputs : list Input) (te : TradingEngine) :
  registry_ok te -> admissible inputs te = true -> registry_ok (run inputs te).
Proof.
  revert te. induction inputs as [|i rest IH]; intros te Hok Hadm; simpl.
  - assumption.
  - simpl in Hadm. apply andb_true_iff in Hadm as [Hi Hrest].
    apply IH; [apply step_keeps_registry_ok|]; assumption.
Qed.

(** C2, amended.  The engine neither bounds the volumes the gateway reports
    nor moves [status] off SUBMITTING.  What holds of every order in the
    registry after any sequence of commands and gateway callbacks is this:
    if every new-order command asks for a volume between 0 and INT_MAX, every
    secondary-market trade fills at most what is left of its order
    ([req.volume - traded_volume - canceled_volume]) and every cancel reports
    at most [req.volume - traded_volume], neither being negative, then
    [0 <= traded_volume + canceled_volume <= req.volume]; and [status] is
    SUBMITTING, whether [accepted] is set or not. *)
Theorem registry_volume_invariant (inputs : list Input) (te : TradingEngine)
  (id : Z) (o : Order) :
  registry_ok te ->
  admissible inputs te = true ->
  order_map_ (run inputs te) !! id = Some o ->
  0 <= traded_volume o + canceled_volume o <= volume (req o) /\
  status o = SUBMITTING.
Proof.
  intros Hok Hadm Ho.
  pose proof (run_keeps_registry_ok inputs te Hok Hadm id o Ho) as Hoo.
  unfold order_ok in Hoo. split; [lia|tauto].
Qed.

(** * Further properties of the engine *)

(** ** The two scans of the registry *)

Lemma scan_events (p : Order -> bool) (l : list (Z * Order))
  (te : TradingEngine) :
  events
    (foldl (fun te (entry : Z * Order) =>
              if p entry.2
              then emit (GatewayCancelOrder (order_id entry.2)) te
              else te)
           te l)
  = events te
    ++ (GatewayCancelOrder <$> broker_ids (List.filter p (l.*2))).
Proof.
  revert te. induction l as [|[k o] l IH]; intros te; simpl.
  - rewrite app_nil_r. reflexivity.
  - rewrite IH. destruct (p o); simpl.
    + rewrite <- app_assoc. reflexivity.
    + reflexivity.
Qed.

Lemma filter_all (l : list Order) : List.filter (fun _ => true) l = l.
Proof. induction l as [|o l IH]; simpl; congruence. Qed.

(** X1. [cancel_all] leaves the registry as it is and, inside one critical
    section, sends the gateway one cancel per registered order, each with
    the broker [order_id] stored in that order: the ids sent are, up to
    their order, those of the registry's orders, so there are as many
    cancels as orders and none on an empty registry. *)
Theorem cancel_all_one_cancel_per_order (te : TradingEngine) :
  order_map_ (cancel_all te) = order_map_ te /\
  exists ids,
    events (cancel_all te)
    = events te ++ Lock :: (GatewayCancelOrder <$> ids) ++ [Unlock] /\
    ids ≡ₚ broker_ids ((map_to_list (order_map_ te)).*2) /\
    length ids = size (order_map_ te) /\
    (order_map_ te = ∅ -> ids = []).
Proof.
  split; [apply cancel_all_registry|].
  exists (broker_ids ((map_to_list (order_map_ te)).*2)).
  split; [|split; [reflexivity|split]].
  - pose proof (scan_events (fun _ => true)
                  (map_to_list (order_map_ te)) (emit Lock te))
      as Hscan.
    rewrite filter_all in Hscan.
    unfold cancel_all. cbv zeta. rewrite events_emit, order_map_emit.
    etransitivity; [apply (f_equal (fun l => l ++ [Unlock])), Hscan|].
    rewrite events_emit, <- !app_assoc. reflexivity.
  - unfold broker_ids. rewrite !length_fmap. apply length_map_to_list.
  - intros ->. rewrite map_to_list_empty. reflexivity.
Qed.

(** X2. [cancel_for_ticker] leaves the registry as it is and, inside one
    critical section, sends the gateway a cancel with the stored broker
    [order_id] of every registered order whose contract has the given index,
    and of no other: a broker id is sent exactly when an order of that
    ticker carries it, and a ticker without orders gets no cancel at all. *)
Theorem cancel_for_ticker_cancels_matching (ticker_index : Z)
  (te : TradingEngine) :
  order_map_ (cancel_for_ticker ticker_index te) = order_map_ te /\
  exists ids,
    events (cancel_for_ticker ticker_index te)
    = events te ++ Lock :: (GatewayCancelOrder <$> ids) ++ [Unlock] /\
    ids ≡ₚ broker_ids (List.filter (on_ticker ticker_index)
                          ((map_to_list (order_map_ te)).*2)) /\
    (forall b,
       b ∈ ids <->
       exists k o,
         order_map_ te !! k = Some o /\
         index (contract (req o)) = ticker_index /\
         order_id o = b) /\
    ((forall k o,
        order_map_ te !! k = Some o ->
        index (contract (req o)) <> ticker_index) ->
     ids = []).
Proof.
  split; [apply cancel_for_ticker_registry|].
  set (matching := List.filter (on_ticker ticker_index)
                     ((map_to_list (order_map_ te)).*2)).
  assert (Hmatching :
    forall o, o ∈ matching <->
              exists k, order_map_ te !! k = Some o /\
                        index (contract (req o)) = ticker_index).
  { intros o. subst matching. rewrite list_elem_of_In, filter_In.
    rewrite <- list_elem_of_In, list_elem_of_fmap. unfold on_ticker. split.
    - intros [([k o'] & -> & Hin) Ht]. apply elem_of_map_to_list in Hin.
      apply Z.eqb_eq in Ht. eauto.
    - intros (k & Hk & Ht). split.
      + exists (k, o). split; [reflexivity|]. apply elem_of_map_to_list, Hk.
      + apply Z.eqb_eq. congruence. }
  exists (broker_ids matching). split; [|split; [reflexivity|split]].
  - pose proof (scan_events (on_ticker ticker_index)
                  (map_to_list (order_map_ te)) (emit Lock te))
      as Hscan.
    unfold cancel_for_ticker. cbv zeta. rewrite events_emit, order_map_emit.
    etransitivity; [apply (f_equal (fun l => l ++ [Unlock])), Hscan|].
    rewrite events_emit, <- !app_assoc. reflexivity.
  - intros b. unfold broker_ids. rewrite list_elem_of_fmap. split.
    + intros (o & -> & Ho). apply Hmatching in Ho as (k & Hk & Ht). eauto.
    + intros (k & o & Hk & Ht & <-). exists o. split; [reflexivity|].
      apply Hmatching. eauto.
  - intros Hnone. destruct matching as [|o rest] eqn:Hm; [reflexivity|].
    assert (Ho : o ∈ o :: rest) by apply list_elem_of_here.
    apply Hmatching in Ho as (k & Hk & Ht). destruct (Hnone k o Hk Ht).
Qed.

(** ** What a callback does to the order it finds *)

Ltac hooks_about_target :=
  repeat first [apply List.Forall_nil | apply List.Forall_cons];
  simpl; intros ? Heq; try discriminate; injection Heq as <-; simpl; auto.

Ltac outcome_of Hm He :=
  first
    [ exists None; eexists; split; [exact Hm|split; [exact He|]]
    | eexists (Some _); eexists; split; [exact Hm|split; [exact He|]] ].

Ltac outcome_facts :=
  repeat split;
  first
    [ match goal with |- Forall _ _ => hooks_about_target end
    | intros;
      repeat match goal with
             | H : Some _ = Some _ |- _ => injection H as <-
             end;
      simpl in *; auto; try lia; try congruence ].

(** Every gateway callback that finds its order under [k] stores the order
    back or erases it, keeps what identifies the order, talks to the risk
    manager about that order only and under the mutex, and reports the
    order completed at most once, erasing it when it does. *)
Lemma callback_outcome (i : Input) (te : TradingEngine) (k : Z) (o : Order) :
  callback_id i = Some k ->
  order_map_ te !! k = Some o ->
  exists (after : option Order) (evs : list Event),
    order_map_ (step i te) = settle k after (order_map_ te) /\
    events (step i te) = events te ++ evs /\
    (forall o', after = Some o' ->
                req o' = req o /\ user_order_id o' = user_order_id o /\
                strategy_id o' = strategy_id o /\ status o' = status o /\
                (accepted o = true -> accepted o' = true)) /\
    Forall (fun e => forall o', risk_order e = Some o' -> req o' = req o) evs /\
    mutex_ok false evs = true /\
    (count_events is_risk_completed evs <= 1)%nat /\
    (count_events is_risk_completed evs = 1%nat -> after = None).
Proof.
  intros Hid Ho.
  destruct i as [cmd|rsp|rsp|rsp|rsp|rsp]; simpl in Hid; try discriminate;
    injection Hid as <-; simpl.
  - destruct (on_order_accepted_found rsp te o Ho) as [Hm He].
    destruct (accepted o) eqn:Hacc.
    + exists (Some o). eexists. split; [|split; [exact He|]].
      * rewrite Hm. simpl. symmetry. apply insert_id, Ho.
      * outcome_facts.
    + exists (Some (after_accept rsp o)). eexists.
      split; [exact Hm|split; [exact He|]]. outcome_facts.
  - destruct (on_order_rejected_found rsp te o Ho) as [Hm He].
    exists None. eexists. split; [exact Hm|split; [exact He|]].
    outcome_facts.
  - unfold on_order_traded.
    destruct (trade_type rsp) eqn:Hty;
      [ destruct (on_secondary_market_traded_found rsp te o Ho) as [Hm He]
      | destruct (on_primary_market_traded_found rsp te o Ho) as [Hm He];
        rewrite Hty in Hm, He .. ];
      unfold after_secondary_trade, after_primary_trade, latched,
        latch_events in *;
      try destruct (terminal _) eqn:Hterm;
      outcome_of Hm He; destruct (accepted o) eqn:Hacc; outcome_facts.
  - destruct (on_order_canceled_found rsp te o Ho) as [Hm He].
    unfold after_cancel in *. destruct (terminal _) eqn:Hterm;
      outcome_of Hm He; outcome_facts.
Qed.

Lemma lookup_settle (k k' : Z) (after : option Order) (m : gmap Z Order) :
  settle k after m !! k' = if decide (k = k') then after else m !! k'.
Proof.
  unfold settle. destruct after as [o'|].
  - apply lookup_insert.
  - rewrite lookup_delete. case_decide; reflexivity.
Qed.

Lemma callback_without_target (i : Input) (te : TradingEngine) :
  is_callback i = true ->
  callback_id i = None ->
  order_map_ (step i te) = order_map_ te /\
  exists msg, events (step i te) = events te ++ [Log LWarn msg].
Proof.
  intros Hcb Hid. destruct i; try discriminate. simpl.
  unfold on_order_cancel_rejected. engine_simpl. eauto.
Qed.

Lemma callback_frame (i : Input) (te : TradingEngine) (k : Z) :
  is_callback i = true ->
  callback_id i <> Some k ->
  order_map_ (step i te) !! k = order_map_ te !! k.
Proof.
  intros Hcb Hk. destruct (callback_id i) as [k0|] eqn:Hid.
  - destruct (order_map_ te !! k0) as [o|] eqn:Ho.
    + destruct (callback_outcome i te k0 o Hid Ho) as (after & evs & -> & _).
      rewrite lookup_settle. case_decide; [congruence|reflexivity].
    + destruct (callback_not_found te i k0 Hid Ho) as [-> _]. reflexivity.
  - destruct (callback_without_target i te Hcb Hid) as [-> _]. reflexivity.
Qed.

Lemma callback_never_registers (i : Input) (te : TradingEngine) (k : Z) :
  is_callback i = true ->
  order_map_ te !! k = None ->
  order_map_ (step i te) !! k = None.
Proof.
  intros Hcb Hnone. destruct (decide (callback_id i = Some k)) as [Hid|Hid].
  - destruct (callback_not_found te i k Hid Hnone) as [-> _]. exact Hnone.
  - rewrite callback_frame; assumption.
Qed.

Lemma run_callbacks_never_register (inputs : list Input) (te : TradingEngine)
  (k : Z) :
  forallb is_callback inputs = true ->
  order_map_ te !! k = None ->
  order_map_ (run inputs te) !! k = None.
Proof.
  revert te. induction inputs as [|i rest IH]; intros te Hcb Hnone; simpl.
  - exact Hnone.
  - simpl in Hcb. apply andb_true_iff in Hcb as [Hi Hrest].
    apply IH; [assumption|]. apply callback_never_registers; assumption.
Qed.

Lemma callback_keeps_identity (i : Input) (te : TradingEngine) (k : Z)
  (o o1 : Order) :
  is_callback i = true ->
  order_map_ te !! k = Some o ->
  order_map_ (step i te) !! k = Some o1 ->
  req o1 = req o /\ user_order_id o1 = user_order_id o /\
  strategy_id o1 = strategy_id o /\ status o1 = status o /\
  (accepted o = true -> accepted o1 = true).
Proof.
  intros Hcb Ho Ho1. destruct (decide (callback_id i = Some k)) as [Hid|Hid].
  - destruct (callback_outcome i te k o Hid Ho)
      as (after & evs & Hm & _ & Hsame & _).
    rewrite Hm, lookup_settle in Ho1. case_decide; [|congruence].
    apply Hsame, Ho1.
  - rewrite callback_frame in Ho1 by assumption.
    assert (o1 = o) by congruence. subst o1. auto.
Qed.

(** ** Gateway callbacks and the rest of the registry *)

(** X3. Gateway callbacks touch no order but the one they name: after any
    sequence of callbacks none of which carries the engine order id [k], the
    registry holds under [k] exactly what it held before, be it an order or
    nothing. *)
Theorem callbacks_leave_other_orders (inputs : list Input)
  (te : TradingEngine) (k : Z) :
  forallb (fun i => is_callback i && negb (targets k i)) inputs = true ->
  order_map_ (run inputs te) !! k = order_map_ te !! k.
Proof.
  revert te. induction inputs as [|i rest IH]; intros te Hall; simpl.
  - reflexivity.
  - simpl in Hall. apply andb_true_iff in Hall as [Hi Hrest].
    apply andb_true_iff in Hi as [Hcb Hk]. rewrite IH by assumption.
    apply callback_frame; [assumption|]. intros Hid. unfold targets in Hk.
    rewrite Hid, Z.eqb_refl in Hk. discriminate.
Qed.

(** X4. Gateway callbacks never put an order into the registry: after any
    sequence of callbacks the registered ids are among those registered
    before, so an order that was erased, or never sent, is not brought
    (back) by a late callback. *)
Theorem callbacks_never_add_orders (inputs : list Input) (te : TradingEngine) :
  forallb is_callback inputs = true ->
  dom (order_map_ (run inputs te)) ⊆ dom (order_map_ te).
Proof.
  intros Hcb k Hk. apply elem_of_dom. apply elem_of_dom in Hk.
  destruct (order_map_ te !! k) as [o|] eqn:Ho; [eauto|].
  rewrite (run_callbacks_never_register inputs te k Hcb Ho) in Hk.
  destruct Hk as [? ?]. discriminate.
Qed.

(** X5. Gateway callbacks leave an order's identity alone: whatever
    callbacks arrive, for whatever orders, an order found under the same id
    afterwards has the request it was sent with ([req], hence contract,
    volume and price), the same [user_order_id], [strategy_id] and [status],
    and is still [accepted] if it was. *)
Theorem callbacks_keep_request (inputs : list Input) (te : TradingEngine)
  (k : Z) (o o' : Order) :
  forallb is_callback inputs = true ->
  order_map_ te !! k = Some o ->
  order_map_ (run inputs te) !! k = Some o' ->
  req o' = req o /\ user_order_id o' = user_order_id o /\
  strategy_id o' = strategy_id o /\ status o' = status o /\
  (accepted o = true -> accepted o' = true).
Proof.
  revert te o. induction inputs as [|i rest IH]; intros te o Hcb Ho Ho'.
  - simpl in Ho'. assert (o' = o) by congruence. subst o'. auto.
  - simpl in Hcb, Ho'. apply andb_true_iff in Hcb as [Hi Hrest].
    destruct (order_map_ (step i te) !! k) as [o1|] eqn:Ho1.
    + destruct (callback_keeps_identity i te k o o1 Hi Ho Ho1)
        as (Hr1 & Hu1 & Hs1 & Hst1 & Ha1).
      destruct (IH (step i te) o1 Hrest Ho1 Ho') as (Hr & Hu & Hs & Hst & Ha).
      repeat split; try congruence. auto.
    + rewrite (run_callbacks_never_register rest _ k Hrest Ho1) in Ho'.
      discriminate.
Qed.

(** ** Which order the risk manager hears about *)

Lemma count_events_none (p : Event -> bool) (l : list Event) :
  Forall (fun e => p e = false) l -> count_events p l = 0%nat.
Proof.
  induction 1 as [|e l He _ IH]; simpl; [reflexivity|]. rewrite He, IH.
  reflexivity.
Qed.

Lemma count_events_le (p q : Event -> bool) (l : list Event) :
  (forall e, p e = true -> q e = true) ->
  (count_events p l <= count_events q l)%nat.
Proof.
  intros Hpq. induction l as [|e l IH]; simpl; [lia|].
  destruct (p e) eqn:Hp; [rewrite (Hpq e Hp)|destruct (q e)]; lia.
Qed.

Lemma completed_for_is_hook (id : Z) (e : Event) :
  completed_for id e = true ->
  risk_hook_for id e = true /\ is_risk_completed e = true.
Proof. destruct e; simpl; try discriminate. auto. Qed.

Lemma hooks_of_another_order (id : Z) (o : Order) (evs : list Event) :
  Forall (fun e => forall o', risk_order e = Some o' -> req o' = req o) evs ->
  engine_order_id (req o) <> id ->
  count_events (risk_hook_for id) evs = 0%nat.
Proof.
  intros Habout Hid. apply count_events_none.
  eapply Forall_impl; [exact Habout|]. intros e He. unfold risk_hook_for.
  destruct (risk_order e) as [o'|] eqn:Hro; [|reflexivity].
  rewrite (He o' Hro). apply Z.eqb_neq, Hid.
Qed.

(** One callback, seen from an id the registry does not hold: no risk hook
    is about that id. *)
Lemma callback_silent_about_absent (id : Z) (i : Input) (te : TradingEngine) :
  is_callback i = true ->
  keyed (order_map_ te) ->
  order_map_ te !! id = None ->
  exists evs,
    events (step i te) = events te ++ evs /\
    count_events (risk_hook_for id) evs = 0%nat.
Proof.
  intros Hcb Hkeyed Hnone. destruct (callback_id i) as [k|] eqn:Hid.
  - destruct (order_map_ te !! k) as [o|] eqn:Ho.
    + destruct (callback_outcome i te k o Hid Ho)
        as (after & evs & _ & He & _ & Habout & _).
      exists evs. split; [exact He|].
      apply (hooks_of_another_order id o evs Habout).
      rewrite (Hkeyed _ _ Ho). congruence.
    + destruct (callback_not_found te i k Hid Ho) as [_ [msg He]].
      eexists. split; [exact He|reflexivity].
  - destruct (callback_without_target i te Hcb Hid) as [_ [msg He]].
    eexists. split; [exact He|reflexivity].
Qed.

(** X7. The risk manager never hears again of an order the registry has
    dropped: while the registry is keyed by engine order id and holds no
    order under [id], no sequence of gateway callbacks, for that id or any
    other, makes the engine call a risk hook with an order of that id. *)
Theorem no_risk_hook_for_absent_order (inputs : list Input)
  (te : TradingEngine) (id : Z) :
  keyed (order_map_ te) ->
  forallb is_callback inputs = true ->
  order_map_ te !! id = None ->
  count_events (risk_hook_for id) (events (run inputs te))
  = count_events (risk_hook_for id) (events te).
Proof.
  revert te. induction inputs as [|i rest IH]; intros te Hkeyed Hcb Hnone.
  - reflexivity.
  - simpl in Hcb. apply andb_true_iff in Hcb as [Hi Hrest]. simpl.
    destruct (callback_silent_about_absent id i te Hi Hkeyed Hnone)
      as (evs & He & Hcount).
    rewrite IH.
    + rewrite He, count_events_app, Hcount. lia.
    + apply step_keeps_keyed, Hkeyed.
    + assumption.
    + apply callback_never_registers; assumption.
Qed.

(** One callback, seen from order [id]: an [on_order_completed] hook for
    [id] is paid for by the order leaving the registry. *)
Lemma callback_completion_budget (id : Z) (i : Input) (te : TradingEngine) :
  is_callback i = true ->
  keyed (order_map_ te) ->
  exists evs,
    events (step i te) = events te ++ evs /\
    (count_events (completed_for id) evs
     + registered id (order_map_ (step i te))
     <= registered id (order_map_ te))%nat.
Proof.
  intros Hcb Hkeyed. unfold registered.
  destruct (callback_id i) as [k|] eqn:Hid.
  - destruct (order_map_ te !! k) as [o|] eqn:Ho.
    + destruct (callback_outcome i te k o Hid Ho)
        as (after & evs & Hm & He & _ & Habout & _ & Hle & Hone).
      exists evs. split; [exact He|]. rewrite Hm, lookup_settle.
      case_decide as Hk.
      * subst k. rewrite Ho.
        pose proof (count_events_le (completed_for id) is_risk_completed evs)
          as Hcount.
        specialize (Hcount (fun e H => proj2 (completed_for_is_hook id e H))).
        destruct (Nat.eq_dec (count_events is_risk_completed evs) 1)
          as [H1|H1].
        -- rewrite (Hone H1). lia.
        -- destruct after; lia.
      * pose proof (count_events_le (completed_for id) (risk_hook_for id) evs)
          as Hcount.
        specialize (Hcount (fun e H => proj1 (completed_for_is_hook id e H))).
        rewrite (hooks_of_another_order id o evs Habout) in Hcount
          by (rewrite (Hkeyed _ _ Ho); exact Hk).
        destruct (order_map_ te !! id); lia.
    + destruct (callback_not_found te i k Hid Ho) as [Hm [msg He]].
      eexists. split; [exact He|]. rewrite Hm. simpl.
      destruct (order_map_ te !! id); lia.
  - destruct (callback_without_target i te Hcb Hid) as [Hm [msg He]].
    eexists. split; [exact He|]. rewrite Hm. simpl.
    destruct (order_map_ te !! id); lia.
Qed.

(** X6. Whatever gateway callbacks arrive, in whatever order and for
    whatever orders, [on_order_completed] runs at most once for an order the
    (keyed) registry holds and never for an id it does not hold; and once it
    has run for an order, the order is no longer registered. *)
Theorem completion_at_most_once (inputs : list Input) (te : TradingEngine)
  (id : Z) :
  keyed (order_map_ te) ->
  forallb is_callback inputs = true ->
  (count_events (completed_for id) (events (run inputs te))
   <= count_events (completed_for id) (events te)
      + registered id (order_map_ te))%nat /\
  ((count_events (completed_for id) (events te)
    < count_events (completed_for id) (events (run inputs te)))%nat ->
   order_map_ (run inputs te) !! id = None).
Proof.
  intros Hkeyed Hcb.
  assert (Hbudget :
    (count_events (completed_for id) (events (run inputs te))
     + registered id (order_map_ (run inputs te))
     <= count_events (completed_for id) (events te)
        + registered id (order_map_ te))%nat).
  { revert te Hkeyed. induction inputs as [|i rest IH]; intros te Hkeyed.
    - simpl. lia.
    - simpl in Hcb. apply andb_true_iff in Hcb as [Hi Hrest]. simpl.
      destruct (callback_completion_budget id i te Hi Hkeyed)
        as (evs & He & Hstep).
      specialize (IH Hrest (step i te) (step_keeps_keyed i te Hkeyed)).
      rewrite He, count_events_app in IH. lia. }
  split; [lia|]. intros Hmore.
  assert (Hreg : registered id (order_map_ (run inputs te)) = 0%nat).
  { unfold registered in *. destruct (order_map_ te !! id);
      destruct (order_map_ (run inputs te) !! id); lia. }
  unfold registered in Hreg.
  destruct (order_map_ (run inputs te) !! id); [discriminate|reflexivity].
Qed.

(** ** Orders that end without completing *)

(** X8. A reject callback for a registered order erases it whatever its
    state (accepted or not, partly filled or not), hands it to the risk
    manager's [on_order_rejected] with [ERR_REJECTED] in the one critical
    section of the callback, does not call [on_order_completed], and leaves
    every other order in the registry as it was. *)
Theorem rejection_erases_order (rsp : OrderRejectedRsp) (te : TradingEngine)
  (o : Order) :
  order_map_ te !! rej_engine_order_id rsp = Some o ->
  let te' := on_order_rejected rsp te in
  order_map_ te' !! rej_engine_order_id rsp = None /\
  (forall k, k <> rej_engine_order_id rsp ->
             order_map_ te' !! k = order_map_ te !! k) /\
  (exists msg,
     events te'
     = events te
       ++ [Lock; RiskOnOrderRejected o ERR_REJECTED; Log LError msg; Unlock]) /\
  count_events is_risk_completed (events te')
  = count_events is_risk_completed (events te).
Proof.
  intros Ho te'. subst te'.
  destruct (on_order_rejected_found rsp te o Ho) as [Hm He].
  rewrite Hm, He. split; [apply lookup_delete_eq|]. split; [|split].
  - intros k Hk. rewrite lookup_delete_ne by congruence. reflexivity.
  - eauto.
  - rewrite count_events_app. simpl. lia.
Qed.

(** X9. A PRIMARY_MARKET trade for a registered order ends the order
    without completing it: the order is erased whatever its volumes, the
    risk manager's [on_order_traded] receives it with [traded_volume] set to
    (not increased by) the volume of the callback and with the callback's
    broker id, [on_order_accepted] runs first if the order was not accepted
    yet, and [on_order_completed] is not called. *)
Theorem primary_market_trade_ends_order (rsp : OrderTradedRsp)
  (te : TradingEngine) (o : Order) :
  order_map_ te !! trd_engine_order_id rsp = Some o ->
  trade_type rsp = PRIMARY_MARKET ->
  let te' := on_order_traded rsp te in
  order_map_ te' !! trd_engine_order_id rsp = None /\
  (exists o' msg,
     events te'
     = events te
       ++ Lock
          :: (if accepted o then []
              else [RiskOnOrderAccepted (set_accepted true o);
                    Log LInfo "[TradingEngine::on_order_accepted] 报单委托成功."])
          ++ [RiskOnOrderTraded o' rsp; Log LInfo msg; Unlock] /\
     traded_volume o' = trd_volume rsp /\
     order_id o' = trd_order_id rsp /\
     accepted o' = true /\
     canceled_volume o' = canceled_volume o /\
     req o' = req o) /\
  count_events is_risk_completed (events te')
  = count_events is_risk_completed (events te).
Proof.
  intros Ho Hty te'. subst te'. unfold on_order_traded. rewrite Hty.
  destruct (on_primary_market_traded_found rsp te o Ho) as [Hm He].
  rewrite Hty in Hm, He. rewrite Hm, He.
  destruct (latched_fields o) as (Hreq & Hacc & _ & Hcv & _).
  split; [apply lookup_delete_eq|]. split.
  - exists (set_traded_volume (trd_volume rsp) (after_primary_trade rsp o)).
    eexists. unfold latch_events. simpl. repeat split; auto.
  - rewrite !count_events_app. simpl.
    rewrite count_events_app, count_latch_events_other by reflexivity.
    simpl. lia.
Qed.

(** ** Commands and the orders already registered *)

(** [send_order] either leaves the registry alone or files the order it
    built under an id that was free. *)
Lemma send_order_emplaces (cmd : TraderCommand) (te : TradingEngine) :
  order_map_ (send_order cmd te).2 = order_map_ te \/
  order_map_ te !! next_engine_order_id_ te = None /\
  exists contract,
    get_by_index (tor_ticker_index (order_req cmd)) = Some contract /\
    (send_order cmd te).1 = true /\
    order_map_ (send_order cmd te).2
    = <[next_engine_order_id_ te
        := order_of_cmd cmd contract (next_engine_order_id_ te)]>
        (order_map_ te).
Proof.
  destruct (get_by_index (tor_ticker_index (order_req cmd)))
    as [contract|] eqn:Hc.
  - set (order := order_of_cmd cmd contract (next_engine_order_id_ te)).
    assert (Hpush :
      without_check (order_req cmd) = true \/
      check_order_req (at_risk_check te) order = NO_ERROR ->
      order_map_ (send_order cmd te).2 = order_map_ te \/
      order_map_ te !! next_engine_order_id_ te = None /\
      (send_order cmd te).1 = true /\
      order_map_ (send_order cmd te).2
      = <[next_engine_order_id_ te := order]> (order_map_ te)).
    { intros Hpass.
      destruct (gateway_send_order (at_push cmd contract te) (req order))
        eqn:Hgw.
      - rewrite (send_order_pushed cmd te contract order Hc eq_refl Hpass Hgw).
        simpl. destruct (order_map_ te !! next_engine_order_id_ te); auto.
      - rewrite (send_order_push_failed cmd te contract order Hc eq_refl Hpass
                   Hgw).
        simpl. auto. }
    destruct (without_check (order_req cmd)) eqn:Hwc.
    + destruct Hpush as [H|(? & ? & ?)]; eauto 6.
    + destruct (Z.eq_dec (check_order_req (at_risk_check te) order) NO_ERROR)
        as [Hok|Hrisk].
      * destruct Hpush as [H|(? & ? & ?)]; eauto 6.
      * rewrite (send_order_risk_rejected cmd te contract order _ Hc eq_refl
                   Hwc eq_refl Hrisk).
        simpl. auto.
  - left. unfold send_order. rewrite Hc. reflexivity.
Qed.

Lemma execute_cmd_keeps_order (cmd : TraderCommand) (te : TradingEngine)
  (k : Z) (o : Order) :
  order_map_ te !! k = Some o ->
  order_map_ (execute_cmd cmd te) !! k = Some o.
Proof.
  intros Ho. unfold execute_cmd.
  destruct (magic cmd =? TRADER_CMD_MAGIC); simpl; [|exact Ho].
  destruct (cmd_type cmd =? CMD_NEW_ORDER).
  - destruct (send_order_emplaces cmd (emit (Log LDebug "new order") te))
      as [-> | (Hfree & contract & _ & _ & ->)]; [exact Ho|].
    simpl in Hfree. rewrite lookup_insert_ne; [exact Ho|].
    simpl. congruence.
  - destruct (cmd_type cmd =? CMD_CANCEL_ORDER); [exact Ho|].
    destruct (cmd_type cmd =? CMD_CANCEL_TICKER);
      [rewrite cancel_for_ticker_registry; exact Ho|].
    destruct (cmd_type cmd =? CMD_CANCEL_ALL);
      [rewrite cancel_all_registry; exact Ho|].
    exact Ho.
Qed.

(** X10. Commands never take an order out of the registry nor change one:
    after any sequence of command records (new orders, the three kinds of
    cancel, malformed records) every order registered before is registered
    under the same id, field for field as it was.  In particular a new order
    whose id is already taken is not stored over the order that has it. *)
Theorem commands_keep_orders (inputs : list Input) (te : TradingEngine)
  (k : Z) (o : Order) :
  forallb (fun i => negb (is_callback i)) inputs = true ->
  order_map_ te !! k = Some o ->
  order_map_ (run inputs te) !! k = Some o.
Proof.
  revert te. induction inputs as [|i rest IH]; intros te Hcmd Ho; simpl.
  - exact Ho.
  - simpl in Hcmd. apply andb_true_iff in Hcmd as [Hi Hrest].
    apply IH; [assumption|].
    destruct i as [cmd| | | | |]; try discriminate. simpl.
    apply execute_cmd_keeps_order, Ho.
Qed.

(** X11. [send_order] returns true exactly when the contract is found, the
    risk check passed or was bypassed, and the gateway took the push.  When
    it returns false the registry is unchanged and [on_order_sent] is not
    called; when it returns true [on_order_sent] is called once, and the
    order built from the command, not accepted and with nothing traded or
    canceled, is registered under the id drawn for it if that id was free. *)
Theorem send_order_true_iff_pushed (cmd : TraderCommand) (te : TradingEngine) :
  let result := send_order cmd te in
  let id := next_engine_order_id_ te in
  (result.1 = true <->
   exists contract,
     get_by_index (tor_ticker_index (order_req cmd)) = Some contract /\
     (without_check (order_req cmd) = true \/
      check_order_req (at_risk_check te) (order_of_cmd cmd contract id)
      = NO_ERROR) /\
     gateway_send_order (at_push cmd contract te)
                        (req (order_of_cmd cmd contract id)) = true) /\
  (result.1 = false ->
   order_map_ result.2 = order_map_ te /\
   count_events is_risk_sent (events result.2)
   = count_events is_risk_sent (events te)) /\
  (result.1 = true ->
   count_events is_risk_sent (events result.2)
   = S (count_events is_risk_sent (events te)) /\
   (order_map_ te !! id = None ->
    exists contract,
      get_by_index (tor_ticker_index (order_req cmd)) = Some contract /\
      order_map_ result.2 !! id = Some (order_of_cmd cmd contract id))).
Proof.
  cbv zeta.
  destruct (get_by_index (tor_ticker_index (order_req cmd)))
    as [contract|] eqn:Hc.
  - set (order := order_of_cmd cmd contract (next_engine_order_id_ te)).
    assert (Hpassed :
      without_check (order_req cmd) = true \/
      check_order_req (at_risk_check te) order = NO_ERROR ->
      ((send_order cmd te).1 = true <->
       exists c,
         Some contract = Some c /\
         (without_check (order_req cmd) = true \/
          check_order_req (at_risk_check te)
            (order_of_cmd cmd c (next_engine_order_id_ te)) = NO_ERROR) /\
         gateway_send_order (at_push cmd c te)
           (req (order_of_cmd cmd c (next_engine_order_id_ te))) = true) /\
      ((send_order cmd te).1 = false ->
       order_map_ (send_order cmd te).2 = order_map_ te /\
       count_events is_risk_sent (events (send_order cmd te).2)
       = count_events is_risk_sent (events te)) /\
      ((send_order cmd te).1 = true ->
       count_events is_risk_sent (events (send_order cmd te).2)
       = S (count_events is_risk_sent (events te)) /\
       (order_map_ te !! next_engine_order_id_ te = None ->
        exists c,
          Some contract = Some c /\
          order_map_ (send_order cmd te).2 !! next_engine_order_id_ te
          = Some (order_of_cmd cmd c (next_engine_order_id_ te))))).
    { intros Hpass.
      destruct (gateway_send_order (at_push cmd contract te) (req order))
        eqn:Hgw.
      - rewrite (send_order_pushed cmd te contract order Hc eq_refl Hpass Hgw).
        simpl. rewrite count_events_app.
        split; [split|split].
        + intros _. exists contract. auto.
        + reflexivity.
        + discriminate.
        + intros _. split.
          * destruct (without_check (order_req cmd)); simpl; lia.
          * intros Hfree. exists contract. split; [reflexivity|].
            rewrite Hfree. apply lookup_insert_eq.
      - rewrite (send_order_push_failed cmd te contract order Hc eq_refl Hpass
                   Hgw).
        simpl. rewrite count_events_app.
        split; [split|split].
        + discriminate.
        + intros (c & Hc' & _ & Hgw'). injection Hc' as Hc'.
          rewrite <- Hc' in Hgw'. unfold order in Hgw. simpl in Hgw.
          rewrite Hgw in Hgw'. discriminate.
        + intros _. split; [reflexivity|].
          destruct (without_check (order_req cmd)); simpl; lia.
        + discriminate. }
    destruct (without_check (order_req cmd)) eqn:Hwc; [apply Hpassed; auto|].
    destruct (Z.eq_dec (check_order_req (at_risk_check te) order) NO_ERROR)
      as [Hok|Hrisk]; [apply Hpassed; auto|].
    rewrite (send_order_risk_rejected cmd te contract order _ Hc eq_refl Hwc
               eq_refl Hrisk).
    simpl. rewrite count_events_app. simpl. split; [split|split].
    + discriminate.
    + intros (c & Hc' & [Hb|Hok] & _); [discriminate|].
      injection Hc' as Hc'. rewrite <- Hc' in Hok. destruct (Hrisk Hok).
    + intros _. split; [reflexivity|lia].
    + discriminate.
  - unfold send_order. rewrite Hc. simpl. rewrite count_events_app. simpl.
    split; [split|split].
    + discriminate.
    + intros (c & Hc' & _). discriminate.
    + intros _. split; [reflexivity|lia].
    + discriminate.
Qed.

(** ** The mutex *)

Lemma mutex_ok_app (held : bool) (l1 l2 : list Event) :
  mutex_ok held l1 = true ->
  mutex_ok false l2 = true ->
  mutex_ok held (l1 ++ l2) = true.
Proof.
  revert held. induction l1 as [|e l1 IH]; intros held H1 H2.
  - simpl in *. destruct held; [discriminate|exact H2].
  - destruct e; simpl in *;
      try (apply andb_true_iff in H1 as [Hh Hl]; apply andb_true_iff; split);
      auto.
Qed.

Lemma mutex_ok_cancels (ids : list Z) :
  mutex_ok true ((GatewayCancelOrder <$> ids) ++ [Unlock]) = true.
Proof. induction ids as [|b ids IH]; simpl; auto. Qed.

Lemma scan_mutex_ok (p : Order -> bool) (te : TradingEngine) :
  let scanned :=
    emit Unlock
      (foldl (fun te (entry : Z * Order) =>
                if p entry.2
                then emit (GatewayCancelOrder (order_id entry.2)) te
                else te)
             (emit Lock te) (map_to_list (order_map_ (emit Lock te)))) in
  exists evs, events scanned = events te ++ evs /\ mutex_ok false evs = true.
Proof.
  cbv zeta. rewrite events_emit, scan_events, events_emit.
  eexists. split; [rewrite <- !app_assoc; reflexivity|].
  simpl. apply mutex_ok_cancels.
Qed.

Lemma send_order_mutex_ok (cmd : TraderCommand) (te : TradingEngine) :
  exists evs,
    events (send_order cmd te).2 = events te ++ evs /\
    mutex_ok false evs = true.
Proof.
  destruct (get_by_index (tor_ticker_index (order_req cmd)))
    as [contract|] eqn:Hc.
  - set (order := order_of_cmd cmd contract (next_engine_order_id_ te)).
    assert (Hpassed :
      without_check (order_req cmd) = true \/
      check_order_req (at_risk_check te) order = NO_ERROR ->
      exists evs,
        events (send_order cmd te).2 = events te ++ evs /\
        mutex_ok false evs = true).
    { intros Hpass.
      destruct (gateway_send_order (at_push cmd contract te) (req order))
        eqn:Hgw.
      - rewrite (send_order_pushed cmd te contract order Hc eq_refl Hpass Hgw).
        eexists. split; [reflexivity|].
        destruct (without_check (order_req cmd)); reflexivity.
      - rewrite (send_order_push_failed cmd te contract order Hc eq_refl Hpass
                   Hgw).
        eexists. split; [reflexivity|].
        destruct (without_check (order_req cmd)); reflexivity. }
    destruct (without_check (order_req cmd)) eqn:Hwc; [apply Hpassed; auto|].
    destruct (Z.eq_dec (check_order_req (at_risk_check te) order) NO_ERROR)
      as [Hok|Hrisk]; [apply Hpassed; auto|].
    rewrite (send_order_risk_rejected cmd te contract order _ Hc eq_refl Hwc
               eq_refl Hrisk).
    eexists. split; reflexivity.
  - unfold send_order. rewrite Hc. eexists. split; reflexivity.
Qed.

Lemma step_mutex_ok (i : Input) (te : TradingEngine) :
  exists evs, events (step i te) = events te ++ evs /\ mutex_ok false evs = true.
Proof.
  destruct (is_callback i) eqn:Hcb.
  - destruct (callback_id i) as [k|] eqn:Hid.
    + destruct (order_map_ te !! k) as [o|] eqn:Ho.
      * destruct (callback_outcome i te k o Hid Ho)
          as (after & evs & _ & He & _ & _ & Hok & _).
        eauto.
      * destruct (callback_not_found te i k Hid Ho) as [_ [msg He]].
        eexists. split; [exact He|reflexivity].
    + destruct (callback_without_target i te Hcb Hid) as [_ [msg He]].
      eexists. split; [exact He|reflexivity].
  - destruct i as [cmd| | | | |]; try discriminate. simpl. unfold execute_cmd.
    destruct (magic cmd =? TRADER_CMD_MAGIC); simpl;
      [|eexists; split; [apply events_emit|reflexivity]].
    destruct (cmd_type cmd =? CMD_NEW_ORDER).
    { destruct (send_order_mutex_ok cmd (emit (Log LDebug "new order") te))
        as (evs & He & Hok).
      exists (Log LDebug "new order" :: evs). rewrite He, events_emit.
      split; [rewrite <- app_assoc; reflexivity|exact Hok]. }
    destruct (cmd_type cmd =? CMD_CANCEL_ORDER).
    { unfold cancel_order. rewrite !events_emit.
      eexists. split; [rewrite <- app_assoc; reflexivity|reflexivity]. }
    destruct (cmd_type cmd =? CMD_CANCEL_TICKER).
    { set (ticker_index := tctr_ticker_index (cancel_ticker_req cmd)).
      destruct (scan_mutex_ok (on_ticker ticker_index)
                  (emit (Log LDebug "cancel all for ticker") te))
        as (evs & He & Hok).
      exists (Log LDebug "cancel all for ticker" :: evs).
      split; [|exact Hok].
      etransitivity; [exact He|].
      rewrite events_emit, <- app_assoc. reflexivity. }
    destruct (cmd_type cmd =? CMD_CANCEL_ALL).
    { destruct (scan_mutex_ok (fun _ => true)
                  (emit (Log LDebug "cancel all") te))
        as (evs & He & Hok).
      exists (Log LDebug "cancel all" :: evs).
      split; [|exact Hok].
      etransitivity; [exact He|].
      rewrite events_emit, <- app_assoc. reflexivity. }
    eexists. split; [apply events_emit|reflexivity].
Qed.

(** X12. The engine never returns from a command or a callback holding its
    mutex and never takes it twice: over any sequence of commands and
    gateway callbacks the lock and unlock events alternate and end released,
    and every call into the risk manager, like every push of an order to the
    gateway, happens while the mutex is held.  (The cancel requests of
    [cancel_order] go to the gateway without the mutex.) *)
Theorem mutex_discipline (inputs : list Input) (te : TradingEngine) :
  mutex_ok false (events te) = true ->
  mutex_ok false (events (run inputs te)) = true.
Proof.
  revert te. induction inputs as [|i rest IH]; intros te Hok; simpl.
  - exact Hok.
  - apply IH. destruct (step_mutex_ok i te) as (evs & -> & Hevs).
    apply mutex_ok_app; assumption.
Qed.

(** ** Draining the registry *)

Lemma cancel_of_remainder (k : Z) (o : Order) (te : TradingEngine) :
  order_map_ te !! k = Some o ->
  int_range (volume (req o)) ->
  let te' := on_order_canceled (remainder_canceled k o) te in
  order_map_ te' = delete k (order_map_ te) /\
  count_events is_risk_completed (events te')
  = S (count_events is_risk_completed (events te)).
Proof.
  intros Ho Hrange.
  destruct (on_order_canceled_found (remainder_canceled k o) te o Ho)
    as [Hm He].
  assert (Hterm : terminal (after_cancel (remainder_canceled k o) o) = true).
  { unfold terminal. simpl. apply Z.eqb_eq.
    replace (traded_volume o + (volume (req o) - traded_volume o))
      with (volume (req o)) by lia.
    apply wrap_int_id, Hrange. }
  rewrite Hterm in Hm, He. cbv zeta. rewrite Hm, He. split; [reflexivity|].
  rewrite count_events_app. simpl. lia.
Qed.

Lemma run_cancel_remainders (l : list (Z * Order)) (te : TradingEngine) :
  NoDup (l.*1) ->
  (forall k o, (k, o) ∈ l ->
               order_map_ te !! k = Some o /\ int_range (volume (req o))) ->
  let te' :=
    run ((fun entry : Z * Order =>
            CanceledCb (remainder_canceled entry.1 entry.2)) <$> l) te in
  (forall k, order_map_ te' !! k
             = if decide (k ∈ l.*1) then None else order_map_ te !! k) /\
  count_events is_risk_completed (events te')
  = (count_events is_risk_completed (events te) + length l)%nat.
Proof.
  revert te. induction l as [|[k0 o0] l IH]; intros te Hnodup Hl; cbv zeta.
  - split; [|simpl; lia]. intros k. case_decide as Hk; [|reflexivity].
    simpl in Hk. apply elem_of_nil in Hk. destruct Hk.
  - simpl in Hnodup. apply NoDup_cons in Hnodup as [Hfresh Hnodup].
    destruct (Hl k0 o0 (list_elem_of_here _ _)) as [Ho0 Hrange0].
    destruct (cancel_of_remainder k0 o0 te Ho0 Hrange0) as [Hm He].
    rewrite fmap_cons. cbn [run step fst snd].
    destruct (IH (on_order_canceled (remainder_canceled k0 o0) te) Hnodup)
      as [Hmap Hcount].
    { intros k o Hko. destruct (Hl k o) as [Hk Hr].
      - apply list_elem_of_further, Hko.
      - split; [|exact Hr]. rewrite Hm, lookup_delete_ne; [exact Hk|].
        intros <-. apply Hfresh. apply list_elem_of_fmap.
        exists (k0, o). split; [reflexivity|exact Hko]. }
    split.
    + intros k. rewrite Hmap, Hm.
      change (((k0, o0) :: l).*1) with (k0 :: l.*1).
      destruct (decide (k ∈ l.*1)) as [Hin|Hnin];
        destruct (decide (k ∈ k0 :: l.*1)) as [Hin'|Hnin']; simpl.
      * reflexivity.
      * destruct Hnin'. apply list_elem_of_further, Hin.
      * apply elem_of_cons in Hin' as [->|?]; [|contradiction].
        apply lookup_delete_eq.
      * apply lookup_delete_ne. intros <-. apply Hnin', list_elem_of_here.
    + rewrite Hcount, He. simpl. lia.
Qed.

(** X13. If the gateway answers every registered order with a cancel
    callback reporting what is left of it ([req.volume - traded_volume]),
    as after a [cancel_all], the registry ends empty and
    [on_order_completed] has run once per order, whatever the orders'
    fills were, provided their volumes are [int]s. *)
Theorem drained_registry_is_empty (te : TradingEngine) :
  (forall k o, order_map_ te !! k = Some o -> int_range (volume (req o))) ->
  order_map_ (run (drain (order_map_ te)) te) = ∅ /\
  count_events is_risk_completed (events (run (drain (order_map_ te)) te))
  = (count_events is_risk_completed (events te) + size (order_map_ te))%nat.
Proof.
  intros Hranges. unfold drain.
  destruct (run_cancel_remainders (map_to_list (order_map_ te)) te)
    as [Hmap Hcount].
  - apply NoDup_fst_map_to_list.
  - intros k o Hko. apply elem_of_map_to_list in Hko. eauto.
  - split.
    + apply map_eq. intros k. rewrite Hmap, lookup_empty.
      case_decide as Hk; [reflexivity|].
      destruct (order_map_ te !! k) as [o|] eqn:Ho; [|reflexivity].
      destruct Hk. apply list_elem_of_fmap. exists (k, o).
      split; [reflexivity|]. apply elem_of_map_to_list, Ho.
    + rewrite Hcount, length_map_to_list. reflexivity.
Qed.

(** * Logging in, queries and market data *)

Lemma count_session_app (p : SessionEvent -> bool) (l1 l2 : list SessionEvent) :
  count_session p (l1 ++ l2)
  = (count_session p l1 + count_session p l2)%nat.
Proof.
  induction l1 as [|e l1 IH]; simpl; [reflexivity|]. rewrite IH. lia.
Qed.

Lemma stages_semit (e : SessionEvent) (s : Session) :
  stages (semit e s)
  = stages s ++ match login_stage e with Some n => [n] | None => [] end.
Proof.
  unfold stages. simpl. rewrite omap_app. simpl.
  destruct (login_stage e); reflexivity.
Qed.

Lemma pollings_semit (e : SessionEvent) (s : Session) :
  pollings (semit e s) = (pollings s + if is_polling e then 1 else 0)%nat.
Proof. unfold pollings. simpl. rewrite count_session_app. simpl. lia. Qed.

Lemma published_semit (e : SessionEvent) (s : Session) :
  published (semit e s)
  = (published s + if is_market_data e then 1 else 0)%nat.
Proof. unfold published. simpl. rewrite count_session_app. simpl. lia. Qed.

Lemma stored_positions_semit (e : SessionEvent) (s : Session) :
  stored_positions (semit e s)
  = stored_positions s
    ++ match stored_position e with Some p => [p] | None => [] end.
Proof.
  unfold stored_positions. simpl. rewrite omap_app. simpl.
  destruct (stored_position e); reflexivity.
Qed.


Lemma same_standing_quiet (e : SessionEvent) (s : Session) :
  login_stage e = None -> is_polling e = false -> is_market_data e = false ->
  same_standing s (semit e s).
Proof.
  intros Hs Hp Hm. unfold same_standing.
  rewrite stages_semit, pollings_semit, published_semit, Hs, Hp, Hm.
  rewrite app_nil_r. simpl. repeat split; lia.
Qed.

Lemma same_standing_trans (s1 s2 s3 : Session) :
  same_standing s1 s2 -> same_standing s2 s3 -> same_standing s1 s3.
Proof.
  unfold same_standing. intros (? & ? & ? & ? & ? & ?) (? & ? & ? & ? & ? & ?).
  repeat split; congruence.
Qed.

Lemma on_query_account_standing (account : Account) (s : Session) :
  same_standing s (on_query_account account s).
Proof.
  unfold on_query_account. cbv zeta.
  eapply same_standing_trans; [|apply same_standing_quiet; reflexivity].
  eapply same_standing_trans; [|apply same_standing_quiet; reflexivity].
  eapply same_standing_trans; [apply (same_standing_quiet SLock); reflexivity|].
  unfold same_standing. repeat split; reflexivity.
Qed.

Lemma on_query_position_standing (position : Position) (s s' : Session) :
  on_query_position position s = Some s' -> same_standing s s'.
Proof.
  unfold on_query_position.
  destruct (get_by_index (position_ticker_index position)); [|discriminate].
  cbv zeta. destruct (empty_position position); intros [= <-].
  - apply same_standing_quiet; reflexivity.
  - eapply same_standing_trans; apply same_standing_quiet; reflexivity.
Qed.

Lemma on_query_trade_standing (trade : QueriedTrade) (s : Session) :
  same_standing s (on_query_trade trade s).
Proof. apply same_standing_quiet; reflexivity. Qed.

Lemma report_accounts_standing (accounts : list Account) (s : Session) :
  same_standing s (report_accounts accounts s).
Proof.
  unfold report_accounts. revert s.
  induction accounts as [|a l IH]; intros s; simpl.
  - unfold same_standing. repeat split; reflexivity.
  - eapply same_standing_trans; [apply on_query_account_standing|apply IH].
Qed.

Lemma report_positions_standing (positions : list Position) (s s' : Session) :
  report_positions positions s = Some s' -> same_standing s s'.
Proof.
  revert s. induction positions as [|p l IH]; intros s; simpl.
  - intros [= <-]. unfold same_standing. repeat split; reflexivity.
  - destruct (on_query_position p s) as [s1|] eqn:Hp; [|discriminate].
    intros Hl. eapply same_standing_trans;
      [apply (on_query_position_standing p s s1 Hp)|apply IH, Hl].
Qed.

Lemma report_trades_standing (trades : list QueriedTrade) (s : Session) :
  same_standing s (report_trades trades s).
Proof.
  unfold report_trades. revert s.
  induction trades as [|t l IH]; intros s; simpl.
  - unfold same_standing. repeat split; reflexivity.
  - eapply same_standing_trans; [apply on_query_trade_standing|apply IH].
Qed.

Lemma login_progress_quiet (config : Config) (n : nat) (s s' : Session)
  (e : SessionEvent) :
  login_progress config n s s' ->
  login_stage e = None -> is_polling e = false -> is_market_data e = false ->
  login_progress config n s (semit e s').
Proof.
  unfold login_progress. intros (Hk & Hg & Hl & Hs & Hp & Hm) He1 He2 He3.
  rewrite stages_semit, pollings_semit, published_semit, He1, He2, He3.
  rewrite app_nil_r. simpl. repeat split; try assumption; lia.
Qed.

Lemma login_progress_stage (config : Config) (n : nat) (s s' : Session)
  (e : SessionEvent) :
  login_progress config n s s' ->
  login_stage e = Some n ->
  login_progress config (S n) s (semit e s').
Proof.
  unfold login_progress. intros (Hk & Hg & Hl & Hs & Hp & Hm) He.
  rewrite stages_semit, pollings_semit, published_semit, He, Hs, seq_S.
  assert (is_polling e = false /\ is_market_data e = false) as [-> ->]
    by (destruct e; try discriminate; auto).
  simpl. rewrite <- app_assoc. repeat split; try assumption; lia.
Qed.

Lemma login_progress_standing (config : Config) (n : nat) (s s' s'' : Session) :
  login_progress config n s s' ->
  same_standing s' s'' ->
  login_progress config n s s''.
Proof.
  unfold login_progress, same_standing.
  intros (? & ? & ? & ? & ? & ?) (? & ? & ? & ? & ? & ?).
  repeat split; congruence.
Qed.

Lemma login_stopped (config : Config) (n : nat) (s s0 : Session)
  (lvl : LogLevel) (msg : string) :
  login_progress config n s s0 ->
  (1 <= n <= 6)%nat ->
  let s' := semit (SLog lvl msg) s0 in
  cmd_queue_key_ s' = key_of_cmd_queue config /\
  has_gateway s' = create_gateway (api config) /\
  is_logon_ s' = is_logon_ s || false /\
  (exists n,
     stages s' = stages s ++ seq 0 n /\ (1 <= n <= 6)%nat /\
     (false = true -> n = 6%nat)) /\
  pollings s'
  = (pollings s
     + if false && negb (String.eqb (api config) "virtual") then 1 else 0)%nat /\
  published s' = published s.
Proof.
  intros Hprogress Hn. cbv zeta.
  destruct (login_progress_quiet config n s s0 (SLog lvl msg) Hprogress
              eq_refl eq_refl eq_refl)
    as (Hk & Hg & Hl & Hs & Hp & Hm).
  rewrite orb_false_r. simpl. repeat split; try assumption; try lia.
  exists n. repeat split; try assumption; try lia.
Qed.

(** Where [login] stands when it returns. *)
Lemma login_summary (config : Config) (s s' : Session) (r : bool) :
  login config s = Some (r, s') ->
  cmd_queue_key_ s' = key_of_cmd_queue config /\
  has_gateway s' = create_gateway (api config) /\
  is_logon_ s' = is_logon_ s || r /\
  (exists n,
     stages s' = stages s ++ seq 0 n /\ (1 <= n <= 6)%nat /\
     (r = true -> n = 6%nat)) /\
  pollings s'
  = (pollings s
     + if r && negb (String.eqb (api config) "virtual") then 1 else 0)%nat /\
  published s' = published s.
Proof.
  intros Hlogin. unfold login in Hlogin. cbv zeta in Hlogin.
  set (s0 := mkSession (create_gateway (api config)) _ _ _ _) in Hlogin.
  assert (P0 : login_progress config 1 s s0).
  { subst s0. unfold login_progress, stages, pollings, published. simpl.
    rewrite !omap_app, !count_session_app. simpl. rewrite !app_nil_r.
    repeat split; lia. }
  clearbody s0.
  destruct (has_gateway s0); cbn [negb] in Hlogin;
    [|injection Hlogin as <- <-; apply (login_stopped config 1); [exact P0|lia]].
  set (s1 := semit (GatewayLogin config) s0) in Hlogin.
  assert (P1 : login_progress config 2 s s1)
    by (apply login_progress_stage; [exact P0|reflexivity]).
  destruct (gateway_login s0 config); cbn [negb] in Hlogin;
    [|injection Hlogin as <- <-; apply (login_stopped config 2); [exact P1|lia]].
  clearbody s1.
  set (s2 := semit (SLog LInfo _) s1) in Hlogin.
  assert (P2 : login_progress config 2 s s2)
    by (apply login_progress_quiet; [exact P1|reflexivity..]).
  clearbody s2.
  set (accounts := gateway_query_account s2) in Hlogin.
  set (s3 := report_accounts _ _) in Hlogin.
  assert (P3 : login_progress config 3 s s3).
  { eapply login_progress_standing; [|apply report_accounts_standing].
    apply login_progress_stage; [exact P2|reflexivity]. }
  clearbody s3.
  destruct (accounts.1); cbn [negb] in Hlogin;
    [|injection Hlogin as <- <-; apply (login_stopped config 3); [exact P3|lia]].
  set (s4 := semit (PortfolioSetAccount _) s3) in Hlogin.
  assert (P4 : login_progress config 3 s s4)
    by (apply login_progress_quiet; [exact P3|reflexivity..]).
  clearbody s4.
  set (positions := gateway_query_positions s4) in Hlogin.
  destruct (report_positions _ _) as [s5|] eqn:Hpositions in Hlogin;
    [|discriminate].
  assert (P5 : login_progress config 4 s s5).
  { eapply login_progress_standing;
      [|apply (report_positions_standing _ _ _ Hpositions)].
    apply login_progress_stage; [exact P4|reflexivity]. }
  clear Hpositions.
  destruct (positions.1); cbn [negb] in Hlogin;
    [|injection Hlogin as <- <-; apply (login_stopped config 4); [exact P5|lia]].
  set (trades := gateway_query_trades s5) in Hlogin.
  set (s6 := report_trades _ _) in Hlogin.
  assert (P6 : login_progress config 5 s s6).
  { eapply login_progress_standing; [|apply report_trades_standing].
    apply login_progress_stage; [exact P5|reflexivity]. }
  clearbody s6.
  destruct (trades.1); cbn [negb] in Hlogin;
    [|injection Hlogin as <- <-; apply (login_stopped config 5); [exact P6|lia]].
  set (s7 := semit (RiskInit config) s6) in Hlogin.
  assert (P7 : login_progress config 6 s s7)
    by (apply login_progress_stage; [exact P6|reflexivity]).
  destruct (risk_init s6 config); cbn [negb] in Hlogin;
    [|injection Hlogin as <- <-; apply (login_stopped config 6); [exact P7|lia]].
  clearbody s7. injection Hlogin as <- <-.
  destruct P7 as (Hk & Hg & Hl & Hs & Hp & Hm).
  destruct (String.eqb (api config) "virtual"); cbn [negb andb];
    unfold stages, pollings, published in *; simpl;
    rewrite ?omap_app, ?count_session_app; simpl;
    rewrite ?app_nil_r, ?orb_true_r;
    (repeat split; try assumption; try lia;
     exists 6%nat; repeat split; try assumption; lia).
Qed.

(** [login], read step by step over the sessions in which it takes them. *)
Lemma login_by_steps (config : Config) (s : Session) :
  login config s
  = if negb (create_gateway (api config)) then
      Some (false,
            semit (SLog LError (login_error 0)) (at_gateway_login config s))
    else if negb (gateway_login (at_gateway_login config s) config) then
      Some (false,
            semit (SLog LError (login_error 1))
                  (semit (GatewayLogin config) (at_gateway_login config s)))
    else if negb (gateway_query_account (at_query_account config s)).1 then
      Some (false,
            semit (SLog LError (login_error 2)) (after_query_account config s))
    else
      match at_query_trades config s with
      | None => None
      | Some s5 =>
          if negb (gateway_query_positions (at_query_positions config s)).1
          then Some (false, semit (SLog LError (login_error 3)) s5)
          else if negb (gateway_query_trades s5).1 then
            Some (false, semit (SLog LError (login_error 4)) (at_risk_init s5))
          else if negb (risk_init (at_risk_init s5) config) then
            Some (false,
                  semit (SLog LError (login_error 5))
                        (semit (RiskInit config) (at_risk_init s5)))
          else
            let s := semit (RiskInit config) (at_risk_init s5) in
            let s :=
              if negb (String.eqb (api config) "virtual")
              then semit StartAccountPolling s else s in
            let s := semit (SLog LInfo "[TradingEngine::login] Init done") s in
            Some (true,
                  mkSession (has_gateway s) (cmd_queue_key_ s) true
                            (account_ s) (session_events s))
      end.
Proof. reflexivity. Qed.

Lemma at_gateway_login_progress (config : Config) (s : Session) :
  login_progress config 1 s (at_gateway_login config s).
Proof.
  unfold login_progress, at_gateway_login, stages, pollings, published. simpl.
  rewrite !omap_app, !count_session_app. simpl. rewrite !app_nil_r.
  repeat split; lia.
Qed.

Lemma at_query_account_progress (config : Config) (s : Session) :
  login_progress config 2 s (at_query_account config s).
Proof.
  unfold at_query_account.
  apply login_progress_quiet; [|reflexivity..].
  apply login_progress_stage; [apply at_gateway_login_progress|reflexivity].
Qed.

Lemma after_query_account_progress (config : Config) (s : Session) :
  login_progress config 3 s (after_query_account config s).
Proof.
  unfold after_query_account. cbv zeta.
  eapply login_progress_standing; [|apply report_accounts_standing].
  apply login_progress_stage; [apply at_query_account_progress|reflexivity].
Qed.

Lemma at_query_positions_progress (config : Config) (s : Session) :
  login_progress config 3 s (at_query_positions config s).
Proof.
  unfold at_query_positions. cbv zeta.
  apply login_progress_quiet; [|reflexivity..].
  apply after_query_account_progress.
Qed.

Lemma at_query_trades_progress (config : Config) (s s5 : Session) :
  at_query_trades config s = Some s5 -> login_progress config 4 s s5.
Proof.
  unfold at_query_trades. cbv zeta. intros Hpositions.
  eapply login_progress_standing;
    [|apply (report_positions_standing _ _ _ Hpositions)].
  apply login_progress_stage; [apply at_query_positions_progress|reflexivity].
Qed.

Lemma at_risk_init_progress (config : Config) (s s5 : Session) :
  login_progress config 4 s s5 -> login_progress config 5 s (at_risk_init s5).
Proof.
  intros P5. unfold at_risk_init.
  eapply login_progress_standing; [|apply report_trades_standing].
  apply login_progress_stage; [exact P5|reflexivity].
Qed.

Lemma login_stopped_at (config : Config) (n : nat) (s s0 : Session) :
  login_progress config (S n) s s0 ->
  let s' := semit (SLog LError (login_error n)) s0 in
  stages s' = stages s ++ seq 0 (S n) /\
  last (session_events s') = Some (SLog LError (login_error n)).
Proof.
  intros Hprogress. cbv zeta.
  destruct (login_progress_quiet config (S n) s s0
              (SLog LError (login_error n)) Hprogress eq_refl eq_refl eq_refl)
    as (_ & _ & _ & Hs & _ & _).
  split; [exact Hs|]. unfold semit. cbn [session_events]. apply last_snoc.
Qed.

(** The outcome of [login] against the verdicts of its steps. *)
Lemma login_follows_verdicts (config : Config) (s s' : Session) (r : bool) :
  login config s = Some (r, s') ->
  r = forallb (fun verdict => verdict) (login_verdicts config s) /\
  stages s' = stages s ++ seq 0 (steps_taken (login_verdicts config s)) /\
  (r = false ->
   last (session_events s')
   = Some (SLog LError
             (login_error (steps_taken (login_verdicts config s) - 1)))).
Proof.
  intros Hlogin.
  destruct (login_summary config s s' r Hlogin)
    as (_ & _ & _ & (n & Hs & _ & Hall) & _ & _).
  revert Hlogin. rewrite login_by_steps. unfold login_verdicts.
  pose proof (at_gateway_login_progress config s) as P0.
  pose proof (login_progress_stage config 1 s _ (GatewayLogin config) P0
                eq_refl) as P1.
  pose proof (after_query_account_progress config s) as P3.
  destruct (create_gateway (api config));
    cbn [negb app forallb steps_taken andb Nat.sub];
    [|intros [= <- <-];
      destruct (login_stopped_at config 0 s _ P0) as [Hstages Hlast]; auto].
  destruct (gateway_login (at_gateway_login config s) config);
    cbn [negb app forallb steps_taken andb Nat.sub];
    [|intros [= <- <-];
      destruct (login_stopped_at config 1 s _ P1) as [Hstages Hlast]; auto].
  destruct ((gateway_query_account (at_query_account config s)).1);
    cbn [negb app forallb steps_taken andb Nat.sub];
    [|intros [= <- <-];
      destruct (login_stopped_at config 2 s _ P3) as [Hstages Hlast]; auto].
  destruct (at_query_trades config s) as [s5|] eqn:Htrades; [|discriminate].
  pose proof (at_query_trades_progress config s s5 Htrades) as P5.
  pose proof (at_risk_init_progress config s s5 P5) as P6.
  pose proof (login_progress_stage config 5 s _ (RiskInit config) P6
                eq_refl) as P7.
  destruct ((gateway_query_positions (at_query_positions config s)).1);
    cbn [negb app forallb steps_taken andb Nat.sub];
    [|intros [= <- <-];
      destruct (login_stopped_at config 3 s _ P5) as [Hstages Hlast]; auto].
  destruct ((gateway_query_trades s5).1);
    cbn [negb app forallb steps_taken andb Nat.sub];
    [|intros [= <- <-];
      destruct (login_stopped_at config 4 s _ P6) as [Hstages Hlast]; auto].
  destruct (risk_init (at_risk_init s5) config);
    cbn [negb app forallb steps_taken andb Nat.sub];
    [|intros [= <- <-];
      destruct (login_stopped_at config 5 s _ P7) as [Hstages Hlast]; auto].
  cbv zeta. intros [= <- Hs']. rewrite (Hall eq_refl) in Hs.
  split; [reflexivity|]. split; [exact Hs|discriminate].
Qed.

(** X14. [login] takes its steps in a fixed order and stops at the first
    that fails: creating the gateway, logging in to it, querying account,
    positions and trades, initialising the risk manager, each at most once
    and none before the one it follows.  It stores the queue key and the
    gateway whatever the outcome.  When it returns false, [is_logon_] is
    left as it was and no account polling is started; when it returns true
    all six steps were taken, [is_logon_] is set, and the account polling is
    started once unless the api is "virtual".  It returns true exactly when
    every step it took succeeded: [create_gateway] gave a gateway,
    [gateway_->login], the three queries and [risk_mgr_->init] each
    returned true, each asked of the session in which [login] takes the
    step.  The steps taken are those up to and including the first whose
    verdict is false, and the last thing a failed login does is log the
    error of that step. *)
Theorem login_steps_in_order (config : Config) (s s' : Session) (r : bool) :
  login config s = Some (r, s') ->
  cmd_queue_key_ s' = key_of_cmd_queue config /\
  has_gateway s' = create_gateway (api config) /\
  (exists n, (1 <= n <= 6)%nat /\ stages s' = stages s ++ seq 0 n) /\
  (r = false ->
   is_logon_ s' = is_logon_ s /\ pollings s' = pollings s) /\
  (r = true ->
   is_logon_ s' = true /\
   stages s' = stages s ++ [0; 1; 2; 3; 4; 5]%nat /\
   pollings s'
   = (pollings s + if String.eqb (api config) "virtual" then 0 else 1)%nat) /\
  r = forallb (fun verdict => verdict) (login_verdicts config s) /\
  stages s' = stages s ++ seq 0 (steps_taken (login_verdicts config s)) /\
  (r = false ->
   last (session_events s')
   = Some (SLog LError
             (login_error (steps_taken (login_verdicts config s) - 1)))).
Proof.
  intros Hlogin.
  destruct (login_summary config s s' r Hlogin)
    as (Hk & Hg & Hl & (n & Hs & Hn & Hall) & Hp & _).
  split; [exact Hk|]. split; [exact Hg|]. split; [eauto|]. split; [|split].
  - intros ->. rewrite orb_false_r in Hl. simpl in Hp. split; [exact Hl|lia].
  - intros ->. rewrite orb_true_r in Hl. rewrite (Hall eq_refl) in Hs.
    split; [exact Hl|]. split; [exact Hs|]. rewrite Hp. simpl.
    destruct (String.eqb (api config) "virtual"); reflexivity.
  - exact (login_follows_verdicts config s s' r Hlogin).
Qed.

Lemma session_step_gate (i : SessionInput) (s s' : Session) :
  session_step i s = Some s' ->
  (is_logon_ s = true -> is_logon_ s' = true) /\
  (is_logon_ s = false -> published s' = published s).
Proof.
  destruct i as [config| |tick|account|position|trade]; simpl.
  - destruct (login config s) as [[r s1]|] eqn:Hlogin; [|discriminate].
    intros [= <-].
    destruct (login_summary config s s1 r Hlogin)
      as (_ & _ & Hl & _ & _ & Hm).
    split; [|auto]. intros Hs. rewrite Hl, Hs. reflexivity.
  - intros [= <-]. unfold close. destruct (has_gateway s); [|auto].
    rewrite published_semit. simpl. split; [auto|lia].
  - unfold on_tick. destruct (is_logon_ s) eqn:Hs; simpl.
    + destruct (get_by_index (tick_ticker_index tick)); [|discriminate].
      intros [= <-]. split; [intros _; exact Hs|discriminate].
    + intros [= <-]. split; [discriminate|reflexivity].
  - intros [= <-].
    destruct (on_query_account_standing account s) as (_ & _ & Hl & _ & _ & Hm).
    split; [congruence|auto].
  - intros Hp.
    destruct (on_query_position_standing position s s' Hp)
      as (_ & _ & Hl & _ & _ & Hm).
    split; [congruence|auto].
  - intros [= <-].
    destruct (on_query_trade_standing trade s) as (_ & _ & Hl & _ & _ & Hm).
    split; [congruence|auto].
Qed.

(** X15. Market data is published only once the engine is logged on, and
    nothing clears [is_logon_]: over any sequence of logins, closes, ticks
    and query callbacks, a session that is logged on stays so (also after a
    failed login and after [close]), and a session that is not logged on at
    the end has pushed no tick and updated no snapshot on the way. *)
Theorem market_data_needs_login (inputs : list SessionInput) (s s' : Session) :
  session_run inputs s = Some s' ->
  (is_logon_ s = true -> is_logon_ s' = true) /\
  (is_logon_ s' = false -> published s' = published s).
Proof.
  revert s. induction inputs as [|i rest IH]; intros s; simpl.
  - intros [= <-]. auto.
  - destruct (session_step i s) as [s1|] eqn:Hstep; [|discriminate].
    intros Hrest. destruct (session_step_gate i s s1 Hstep) as [Hon Hoff].
    destruct (IH s1 Hrest) as [Hon' Hoff']. split; [auto|].
    intros Hend. rewrite (Hoff' Hend). apply Hoff.
    destruct (is_logon_ s) eqn:Hs; [|reflexivity].
    rewrite (Hon' (Hon eq_refl)) in Hend. discriminate.
Qed.

(** X16. The positions a gateway reports reach the portfolio in the order
    reported, except those whose long and short holdings and frozen volumes
    are all zero, which are dropped; a reported position whose ticker index
    the contract table does not know stops the engine (the assertion of
    [on_query_position] fails), whether the position is empty or not. *)
Theorem positions_stored_unless_empty (positions : list Position)
  (s : Session) :
  (forallb (fun p => known_contract (position_ticker_index p)) positions
   = true ->
   exists s',
     session_run (QueryPositionCb <$> positions) s = Some s' /\
     stored_positions s'
     = stored_positions s
       ++ List.filter (fun p => negb (empty_position p)) positions) /\
  (forallb (fun p => known_contract (position_ticker_index p)) positions
   = false ->
   session_run (QueryPositionCb <$> positions) s = None).
Proof.
  revert s. induction positions as [|p rest IH]; intros s.
  - split; [|discriminate]. intros _. exists s. simpl.
    rewrite app_nil_r. auto.
  - simpl. unfold on_query_position, known_contract.
    destruct (get_by_index (position_ticker_index p)) as [c|]; simpl;
      [|split; [discriminate|reflexivity]].
    destruct (empty_position p) eqn:Hempty; simpl.
    + destruct (IH (semit (SLog LInfo "[TradingEngine::on_query_position]") s))
        as [Hknown Hunknown].
      split; [|exact Hunknown]. intros Hall.
      destruct (Hknown Hall) as (s' & Hrun & Hstored). exists s'.
      split; [exact Hrun|]. rewrite Hstored, stored_positions_semit. simpl.
      rewrite app_nil_r. reflexivity.
    + destruct (IH (semit (PortfolioSetPosition p)
                      (semit (SLog LInfo "[TradingEngine::on_query_position]")
                             s)))
        as [Hknown Hunknown].
      split; [|exact Hunknown]. intros Hall.
      destruct (Hknown Hall) as (s' & Hrun & Hstored). exists s'.
      split; [exact Hrun|]. rewrite Hstored, !stored_positions_semit. simpl.
      rewrite app_nil_r, <- app_assoc. reflexivity.
Qed.

End Engine.

(** * The properties at work on the small deployment *)

(** Scenario 3 of the specification: an order for 10 is filled for 3, then its
    remaining 7 are canceled. *)
Lemma completion_exactly_once_witness :
  order_map_
    (run one_contract positive_volume_rule gateway_up send_failed_code
         rejected_code
         [TradedCb (secondary_trade 1 3); CanceledCb (canceled 1 7)]
         (engine_with (resting 10))) !! 1 = None /\
  count_events (completed_for 1)
    (events
       (run one_contract positive_volume_rule gateway_up send_failed_code
            rejected_code
            [TradedCb (secondary_trade 1 3); CanceledCb (canceled 1 7)]
            (engine_with (resting 10)))) = 1%nat.
Proof.
  destruct (completion_exactly_once one_contract positive_volume_rule
              gateway_up send_failed_code rejected_code
              (engine_with (resting 10)) 1 (resting 10))
    as (_ & _ & Hrun); [reflexivity | reflexivity |].
  apply (Hrun [TradedCb (secondary_trade 1 3); CanceledCb (canceled 1 7)]).
  - discriminate.
  - reflexivity.
  - unfold int_range, INT_MIN, INT_MAX. simpl. lia.
  - reflexivity.
Defined.

(** C1 as stated fails: two cancels reporting 3 and 7 add up to the 10 the
    order asked for, yet the second overwrites the first, the terminal test
    compares 7 with 10, [on_order_completed] never runs and the order stays
    in the registry. *)
Lemma summed_cancels_do_not_complete :
  order_map_
    (run one_contract positive_volume_rule gateway_up send_failed_code
         rejected_code [Command (buy 10 false 7)] initial_engine) !! 1
  = Some (resting 10) /\
  forallb (volume_callback_for 1)
    [CanceledCb (canceled 1 3); CanceledCb (canceled 1 7)] = true /\
  traded_sum [CanceledCb (canceled 1 3); CanceledCb (canceled 1 7)]
  + canceled_sum [CanceledCb (canceled 1 3); CanceledCb (canceled 1 7)]
  = volume (req (resting 10)) /\
  order_map_
    (run one_contract positive_volume_rule gateway_up send_failed_code
         rejected_code
         [Command (buy 10 false 7);
          CanceledCb (canceled 1 3); CanceledCb (canceled 1 7)]
         initial_engine) !! 1
  = Some (set_canceled_volume 7 (resting 10)) /\
  count_events (completed_for 1)
    (events
       (run one_contract positive_volume_rule gateway_up send_failed_code
            rejected_code
            [Command (buy 10 false 7);
             CanceledCb (canceled 1 3); CanceledCb (canceled 1 7)]
            initial_engine)) = 0%nat.
Proof. repeat split; vm_compute; reflexivity. Qed.

(** An order for 10 is sent, acknowledged and filled for 4: the inputs are
    admissible and the order in the registry is within its volume. *)
Lemma registry_volume_invariant_witness :
  0 <= traded_volume (set_traded_volume 4 (acknowledged 10))
       + canceled_volume (set_traded_volume 4 (acknowledged 10))
    <= volume (req (set_traded_volume 4 (acknowledged 10))) /\
  status (set_traded_volume 4 (acknowledged 10)) = SUBMITTING.
Proof.
  apply (registry_volume_invariant one_contract positive_volume_rule
           gateway_up send_failed_code rejected_code
           [Command (buy 10 false 7); AcceptedCb (mkOrderAcceptedRsp 1 555);
            TradedCb (secondary_trade 1 4)]
           initial_engine 1).
  - apply map_Forall_empty.
  - vm_compute. reflexivity.
  - vm_compute. reflexivity.
Defined.

(** C2 as stated fails, on both counts.  An order that is sent and then
    acknowledged sits in the registry with [accepted] set and [status] still
    SUBMITTING.  And when the gateway reports a fill of 15 on an order for
    10, the order stays in the registry with 15 traded out of 10. *)
Lemma accepted_yet_submitting_and_overfilled :
  (exists o,
     order_map_
       (run one_contract positive_volume_rule gateway_up send_failed_code
            rejected_code
            [Command (buy 10 false 7); AcceptedCb (mkOrderAcceptedRsp 1 555)]
            initial_engine) !! 1 = Some o /\
     accepted o = true /\
     status o = SUBMITTING) /\
  (exists o,
     order_map_
       (run one_contract positive_volume_rule gateway_up send_failed_code
            rejected_code
            [Command (buy 10 false 7); TradedCb (secondary_trade 1 15)]
            initial_engine) !! 1 = Some o /\
     volume (req o) < traded_volume o + canceled_volume o).
Proof.
  split.
  - exists (acknowledged 10). repeat split; vm_compute; reflexivity.
  - exists (set_traded_volume 15 (acknowledged 10)).
    repeat split; vm_compute; reflexivity.
Qed.

(** A cancel command carrying id 1 reaches the gateway as a cancel of 1. *)
Lemma cancel_order_forwards_command_id_witness :
  order_map_
    (execute_cmd one_contract positive_volume_rule gateway_up send_failed_code
                 (cancel_cmd 1) (engine_with (acknowledged 10)))
  = order_map_ (engine_with (acknowledged 10)) /\
  events
    (execute_cmd one_contract positive_volume_rule gateway_up send_failed_code
                 (cancel_cmd 1) (engine_with (acknowledged 10)))
  = events (engine_with (acknowledged 10))
    ++ [Log LDebug "cancel order"; GatewayCancelOrder 1].
Proof.
  apply (cancel_order_forwards_command_id one_contract positive_volume_rule
           gateway_up send_failed_code (cancel_cmd 1)
           (engine_with (acknowledged 10)));
    reflexivity.
Defined.

(** C3 as stated fails: the registry holds order 1 with the broker's id 555,
    and a cancel of 1 is sent to the gateway as a cancel of 1, not of 555. *)
Lemma cancel_order_ignores_broker_id :
  order_id <$> order_map_ (engine_with (acknowledged 10)) !! 1 = Some 555 /\
  events (cancel_order 1 (engine_with (acknowledged 10)))
  = [GatewayCancelOrder 1] /\
  events
    (execute_cmd one_contract positive_volume_rule gateway_up send_failed_code
                 (cancel_cmd 1) (engine_with (acknowledged 10)))
  = [Log LDebug "cancel order"; GatewayCancelOrder 1].
Proof. repeat split; vm_compute; reflexivity. Qed.

(** Scenario 2 of the specification, with a partial fill: the trade comes before
    the acknowledgement, a cancel follows, and the acknowledgement that
    arrives last changes nothing. *)
Lemma acceptance_latches_once_witness :
  count_events (accepted_for 1)
    (events
       (on_order_accepted (mkOrderAcceptedRsp 1 555)
          (run one_contract positive_volume_rule gateway_up send_failed_code
               rejected_code [CanceledCb (canceled 1 2)]
               (step one_contract positive_volume_rule gateway_up
                     send_failed_code rejected_code
                     (TradedCb (secondary_trade 1 4))
                     (engine_with (resting 10))))))
  = 1%nat.
Proof.
  destruct (acceptance_latches_once one_contract positive_volume_rule
              gateway_up send_failed_code rejected_code
              (engine_with (resting 10)) 1 (resting 10)
              (TradedCb (secondary_trade 1 4)) [CanceledCb (canceled 1 2)]
              (mkOrderAcceptedRsp 1 555))
    as (Hfirst & _ & _ & _ & _ & Hagain).
  - intros k o Hko. change (({[1 := resting 10]} : gmap Z Order) !! k = Some o) in Hko.
    apply lookup_singleton_Some in Hko as [<- <-]. reflexivity.
  - reflexivity.
  - reflexivity.
  - reflexivity.
  - reflexivity.
  - reflexivity.
  - reflexivity.
  - rewrite Hagain, Hfirst. reflexivity.
Defined.

(** Scenario 4 of the specification (a volume of 0 fails the risk check), and a
    gateway that declines the push of a sound order. *)
Lemma failed_send_order_leaves_registry_witness :
  (send_order one_contract positive_volume_rule gateway_up send_failed_code
              (buy 0 false 7) initial_engine).1 = false /\
  order_map_
    (send_order one_contract positive_volume_rule gateway_down send_failed_code
                (buy 10 false 7) initial_engine).2 = ∅.
Proof.
  split.
  - destruct (failed_send_order_leaves_registry one_contract
                positive_volume_rule gateway_up send_failed_code
                (buy 0 false 7) initial_engine rb2010 eq_refl)
      as [Hrisk _].
    apply Hrisk; [reflexivity | vm_compute; discriminate].
  - destruct (failed_send_order_leaves_registry one_contract
                positive_volume_rule gateway_down send_failed_code
                (buy 10 false 7) initial_engine rb2010 eq_refl)
      as [_ Hpush].
    apply Hpush; [right; reflexivity | reflexivity].
Defined.

(** A partial fill of 4 on the order for 10, and a primary-market trade of 4
    on it: the order was not accepted yet, so the latch tells the risk
    manager first, and the hook is handed the order under the broker's id
    with the callback's volume. *)
Lemma trade_classification_witness :
  (exists o',
     traded_volume o' = 4 /\
     order_map_
       (on_order_traded (secondary_trade 1 4) (engine_with (resting 10))) !! 1
     = Some o') /\
  (exists o',
     req o' = req (resting 10) /\ order_id o' = 777 /\ accepted o' = true /\
     traded_volume o' = 4 /\
     order_map_
       (on_order_traded (primary_trade 1 4) (engine_with (resting 10))) !! 1
     = None /\
     events (on_order_traded (primary_trade 1 4) (engine_with (resting 10)))
     = [Lock;
        RiskOnOrderAccepted (set_accepted true (resting 10));
        Log LInfo "[TradingEngine::on_order_accepted] 报单委托成功.";
        RiskOnOrderTraded o' (primary_trade 1 4);
        Log LInfo "[TradingEngine::on_primary_market_traded] done.";
        Unlock]).
Proof.
  split.
  - destruct (trade_classification (secondary_trade 1 4)
                (engine_with (resting 10)) (resting 10) eq_refl)
      as (_ & o' & Htv & Hcv & Hreq & Hmap & _).
    exists o'. split; [exact Htv|].
    unfold terminal in Hmap. rewrite Htv, Hcv, Hreq in Hmap. exact Hmap.
  - destruct (trade_classification (primary_trade 1 4)
                (engine_with (resting 10)) (resting 10) eq_refl)
      as (_ & _ & Hmap & o' & Htv & _ & Hreq & Hid & Hacc & _ & _ & _ & Hev).
    exists o'. repeat split; try assumption.
Defined.

(** A record with a zero magic. *)
Lemma malformed_cmd_dropped_witness :
  order_map_
    (execute_cmd one_contract positive_volume_rule gateway_up send_failed_code
       (mkTraderCommand 0 CMD_NEW_ORDER "strategy" (order_req (buy 10 false 7))
                        (mkTraderCancelReq 0) (mkTraderCancelTickerReq 0))
       (engine_with (resting 10)))
  = order_map_ (engine_with (resting 10)) /\
  exists msg,
    events
      (execute_cmd one_contract positive_volume_rule gateway_up
         send_failed_code
         (mkTraderCommand 0 CMD_NEW_ORDER "strategy"
                          (order_req (buy 10 false 7))
                          (mkTraderCancelReq 0) (mkTraderCancelTickerReq 0))
         (engine_with (resting 10)))
    = events (engine_with (resting 10)) ++ [Log LError msg].
Proof.
  apply (malformed_cmd_dropped one_contract positive_volume_rule gateway_up
           send_failed_code).
  left. discriminate.
Defined.

(** Scenario 6 of the specification: a cancel for order 999 on an empty
    registry. *)
Lemma unknown_callback_dropped_witness :
  order_map_
    (step one_contract positive_volume_rule gateway_up send_failed_code
          rejected_code (CanceledCb (canceled 999 1)) initial_engine)
  = order_map_ initial_engine /\
  next_engine_order_id_
    (step one_contract positive_volume_rule gateway_up send_failed_code
          rejected_code (CanceledCb (canceled 999 1)) initial_engine)
  = next_engine_order_id_ initial_engine /\
  exists msg,
    events
      (step one_contract positive_volume_rule gateway_up send_failed_code
            rejected_code (CanceledCb (canceled 999 1)) initial_engine)
    = events initial_engine ++ [Lock; Log LWarn msg; Unlock] /\
    count_events is_risk_hook [Lock; Log LWarn msg; Unlock] = 0%nat.
Proof.
  apply (unknown_callback_dropped one_contract positive_volume_rule gateway_up
           send_failed_code rejected_code initial_engine
           (CanceledCb (canceled 999 1)) 999);
    reflexivity.
Defined.

(** Scenario 5 of the specification: the order for a volume of 0 goes past the
    risk manager with [without_check] set, and the gateway declines it. *)
Lemma risk_check_unless_bypassed_witness :
  count_events is_risk_check
    (events
       (send_order one_contract positive_volume_rule gateway_down
                   send_failed_code (buy 0 true 7) initial_engine).2)
  = 0%nat /\
  (send_order one_contract positive_volume_rule gateway_down send_failed_code
              (buy 0 true 7) initial_engine).1 = false /\
  events
    (send_order one_contract positive_volume_rule gateway_down
                send_failed_code (buy 0 true 7) initial_engine).2
  = [Lock; GatewaySendOrder (req (order_of_cmd (buy 0 true 7) rb2010 1));
     Log LError "[StrategyEngine::send_order] Failed to send_order.";
     RiskOnOrderRejected (order_of_cmd (buy 0 true 7) rb2010 1)
                         send_failed_code;
     Unlock].
Proof.
  destruct (risk_check_unless_bypassed one_contract positive_volume_rule
              gateway_down send_failed_code (buy 0 true 7) initial_engine
              rb2010 eq_refl)
    as [Hcount Hbypass].
  split; [exact Hcount|].
  destruct (Hbypass eq_refl) as [_ Hdown]. apply Hdown. reflexivity.
Defined.

(** C9 as stated fails: a new-order command with [without_check] unset whose
    ticker index (99) the contract table does not know is turned away before
    the risk manager is asked. *)
Lemma unknown_contract_skips_risk_check :
  without_check (order_req (buy 10 false 99)) = false /\
  count_events is_risk_check
    (events
       (send_order one_contract positive_volume_rule gateway_up
                   send_failed_code (buy 10 false 99) initial_engine).2)
  = 0%nat.
Proof. split; vm_compute; reflexivity. Qed.

(** The same command, seen from the contract table. *)
Lemma send_order_unknown_contract_witness :
  (send_order one_contract positive_volume_rule gateway_up send_failed_code
              (buy 10 false 99) initial_engine).1 = false /\
  order_map_
    (send_order one_contract positive_volume_rule gateway_up send_failed_code
                (buy 10 false 99) initial_engine).2
  = order_map_ initial_engine /\
  events
    (send_order one_contract positive_volume_rule gateway_up send_failed_code
                (buy 10 false 99) initial_engine).2
  = events initial_engine
    ++ [Log LError "[TradingEngine::send_order] Contract not found"].
Proof.
  apply (send_order_unknown_contract one_contract positive_volume_rule
           gateway_up send_failed_code (buy 10 false 99) initial_engine).
  reflexivity.
Defined.

(** * The further properties at work *)

(** Callbacks for order 2, which the registry does not hold, leave order 1
    where it is. *)
Lemma callbacks_leave_other_orders_witness :
  order_map_
    (run one_contract positive_volume_rule gateway_up send_failed_code
         rejected_code
         [TradedCb (secondary_trade 2 5); CanceledCb (canceled 2 1)]
         (engine_with (resting 10))) !! 1
  = order_map_ (engine_with (resting 10)) !! 1.
Proof.
  apply (callbacks_leave_other_orders one_contract positive_volume_rule
           gateway_up send_failed_code rejected_code).
  reflexivity.
Defined.

(** The same callbacks register nothing. *)
Lemma callbacks_never_add_orders_witness :
  order_map_
    (run one_contract positive_volume_rule gateway_up send_failed_code
         rejected_code
         [TradedCb (secondary_trade 2 5); CanceledCb (canceled 2 1)]
         (engine_with (resting 10))) !! 2 = None.
Proof.
  apply not_elem_of_dom.
  intros Hin.
  apply (callbacks_never_add_orders one_contract positive_volume_rule
           gateway_up send_failed_code rejected_code
           [TradedCb (secondary_trade 2 5); CanceledCb (canceled 2 1)]
           (engine_with (resting 10)) eq_refl) in Hin.
  apply elem_of_dom in Hin as [o Ho].
  change (({[1 := resting 10]} : gmap Z Order) !! 2 = Some o) in Ho.
  rewrite lookup_singleton_ne in Ho by discriminate. discriminate.
Defined.

(** Acknowledged and filled for 4, the order for 10 is still the order that
    was sent. *)
Lemma callbacks_keep_request_witness :
  req (set_traded_volume 4 (acknowledged 10)) = req (resting 10) /\
  user_order_id (set_traded_volume 4 (acknowledged 10))
  = user_order_id (resting 10) /\
  strategy_id (set_traded_volume 4 (acknowledged 10))
  = strategy_id (resting 10) /\
  status (set_traded_volume 4 (acknowledged 10)) = status (resting 10) /\
  (accepted (resting 10) = true ->
   accepted (set_traded_volume 4 (acknowledged 10)) = true).
Proof.
  apply (callbacks_keep_request one_contract positive_volume_rule gateway_up
           send_failed_code rejected_code
           [AcceptedCb (mkOrderAcceptedRsp 1 555);
            TradedCb (secondary_trade 1 4)]
           (engine_with (resting 10)) 1);
    reflexivity.
Defined.

(** A fill of 10 completes the order for 10; the same fill reported again,
    and a cancel after it, complete nothing. *)
Lemma completion_at_most_once_witness :
  (count_events (completed_for 1)
     (events
        (run one_contract positive_volume_rule gateway_up send_failed_code
             rejected_code
             [TradedCb (secondary_trade 1 10); TradedCb (secondary_trade 1 10);
              CanceledCb (canceled 1 0)]
             (engine_with (resting 10))))
   <= 1)%nat.
Proof.
  destruct (completion_at_most_once one_contract positive_volume_rule
              gateway_up send_failed_code rejected_code
              [TradedCb (secondary_trade 1 10); TradedCb (secondary_trade 1 10);
               CanceledCb (canceled 1 0)]
              (engine_with (resting 10)) 1)
    as [Hle _].
  - intros k o Hko.
    change (({[1 := resting 10]} : gmap Z Order) !! k = Some o) in Hko.
    apply lookup_singleton_Some in Hko as [<- <-]. reflexivity.
  - reflexivity.
  - exact Hle.
Defined.

(** A fill for an order the empty registry never held reaches no risk
    hook. *)
Lemma no_risk_hook_for_absent_order_witness :
  count_events (risk_hook_for 1)
    (events
       (run one_contract positive_volume_rule gateway_up send_failed_code
            rejected_code [TradedCb (secondary_trade 1 4)] initial_engine))
  = count_events (risk_hook_for 1) (events initial_engine).
Proof.
  apply (no_risk_hook_for_absent_order one_contract positive_volume_rule
           gateway_up send_failed_code rejected_code).
  - intros k o Hko. simpl in Hko. rewrite lookup_empty in Hko. discriminate.
  - reflexivity.
  - reflexivity.
Defined.

(** The broker rejects the acknowledged order. *)
Lemma rejection_erases_order_witness :
  order_map_
    (on_order_rejected rejected_code (mkOrderRejectedRsp 1 "no margin")
                       (engine_with (acknowledged 10))) !! 1 = None.
Proof.
  destruct (rejection_erases_order rejected_code
              (mkOrderRejectedRsp 1 "no margin")
              (engine_with (acknowledged 10)) (acknowledged 10) eq_refl)
    as [Hgone _].
  exact Hgone.
Defined.

(** A subscription for 10 is allotted in full. *)
Lemma primary_market_trade_ends_order_witness :
  order_map_ (on_order_traded (primary_trade 1 10) (engine_with (resting 10)))
    !! 1 = None /\
  count_events is_risk_completed
    (events (on_order_traded (primary_trade 1 10) (engine_with (resting 10))))
  = count_events is_risk_completed (events (engine_with (resting 10))).
Proof.
  destruct (primary_market_trade_ends_order (primary_trade 1 10)
              (engine_with (resting 10)) (resting 10) eq_refl eq_refl)
    as (Hgone & _ & Hcount).
  split; [exact Hgone|exact Hcount].
Defined.

(** A new order and a cancel leave the acknowledged order as it is. *)
Lemma commands_keep_orders_witness :
  order_map_
    (run one_contract positive_volume_rule gateway_up send_failed_code
         rejected_code [Command (buy 5 false 7); Command (cancel_cmd 1)]
         (engine_with (acknowledged 10))) !! 1
  = Some (acknowledged 10).
Proof.
  apply (commands_keep_orders one_contract positive_volume_rule gateway_up
           send_failed_code rejected_code);
    reflexivity.
Defined.

(** An order is sent, filled and canceled, and a cancel-all follows. *)
Lemma mutex_discipline_witness :
  mutex_ok false
    (events
       (run one_contract positive_volume_rule gateway_up send_failed_code
            rejected_code
            [Command (buy 10 false 7); TradedCb (secondary_trade 1 3);
             Command (cancel_cmd 555); CanceledCb (canceled 1 7)]
            initial_engine))
  = true.
Proof.
  apply (mutex_discipline one_contract positive_volume_rule gateway_up
           send_failed_code rejected_code).
  reflexivity.
Defined.

(** The gateway cancels what is left of the one registered order. *)
Lemma drained_registry_is_empty_witness :
  order_map_
    (run one_contract positive_volume_rule gateway_up send_failed_code
         rejected_code
         (drain (order_map_ (engine_with (set_traded_volume 4 (acknowledged 10)))))
         (engine_with (set_traded_volume 4 (acknowledged 10))))
  = ∅.
Proof.
  destruct (drained_registry_is_empty one_contract positive_volume_rule
              gateway_up send_failed_code rejected_code
              (engine_with (set_traded_volume 4 (acknowledged 10))))
    as [Hempty _].
  - intros k o Hko.
    change (({[1 := set_traded_volume 4 (acknowledged 10)]} : gmap Z Order)
              !! k = Some o) in Hko.
    apply lookup_singleton_Some in Hko as [<- <-].
    unfold int_range, INT_MIN, INT_MAX. simpl. lia.
  - exact Hempty.
Defined.

(** Logins on "ctp": one that goes through, one that stops at the trades,
    one whose gateway refuses the login, and one whose risk manager fails to
    initialise. *)
Lemma login_steps_in_order_witness :
  (exists s',
     login one_contract known_api open_door one_account two_positions
           no_trades open_door ctp_config fresh_session = Some (true, s') /\
     is_logon_ s' = true /\ pollings s' = 1%nat /\
     stages s' = [0; 1; 2; 3; 4; 5]%nat) /\
  (exists s',
     login one_contract known_api open_door one_account two_positions
           trades_unavailable open_door ctp_config fresh_session
     = Some (false, s') /\
     is_logon_ s' = false /\ pollings s' = 0%nat /\
     stages s' = [0; 1; 2; 3; 4]%nat /\
     last (session_events s')
     = Some (SLog LError "[TradingEngine::login] Failed to query trades")) /\
  (exists s',
     login one_contract known_api closed_door one_account two_positions
           no_trades open_door ctp_config fresh_session
     = Some (false, s') /\
     is_logon_ s' = false /\ pollings s' = 0%nat /\
     stages s' = [0; 1]%nat /\
     last (session_events s')
     = Some (SLog LError "[TradingEngine::login] Failed to login")) /\
  (exists s',
     login one_contract known_api open_door one_account two_positions
           no_trades closed_door ctp_config fresh_session
     = Some (false, s') /\
     is_logon_ s' = false /\ pollings s' = 0%nat /\
     stages s' = [0; 1; 2; 3; 4; 5]%nat /\
     last (session_events s')
     = Some (SLog LError "[TradingEngine::login] 风险管理对象初始化失败")).
Proof.
  split; [|split; [|split]].
  - destruct (login one_contract known_api open_door one_account two_positions
                no_trades open_door ctp_config fresh_session)
      as [[r s']|] eqn:Hlogin; [|vm_compute in Hlogin; discriminate].
    assert (Hr : r = true) by (vm_compute in Hlogin; congruence).
    subst r. exists s'. split; [reflexivity|].
    destruct (login_steps_in_order one_contract known_api open_door
                one_account two_positions no_trades open_door ctp_config
                fresh_session s' true Hlogin)
      as (_ & _ & _ & _ & Hdone & _ & Hstages & _).
    destruct (Hdone eq_refl) as (Hon & _ & Hpoll). split; [exact Hon|].
    split; [exact Hpoll|]. rewrite Hstages. reflexivity.
  - destruct (login one_contract known_api open_door one_account two_positions
                trades_unavailable open_door ctp_config fresh_session)
      as [[r s']|] eqn:Hlogin; [|vm_compute in Hlogin; discriminate].
    assert (Hr : r = false) by (vm_compute in Hlogin; congruence).
    subst r. exists s'. split; [reflexivity|].
    destruct (login_steps_in_order one_contract known_api open_door
                one_account two_positions trades_unavailable open_door
                ctp_config fresh_session s' false Hlogin)
      as (_ & _ & _ & Hfailed & _ & _ & Hstages & Hlast).
    destruct (Hfailed eq_refl) as (Hoff & Hpoll). split; [exact Hoff|].
    split; [exact Hpoll|]. split; [rewrite Hstages; reflexivity|].
    rewrite (Hlast eq_refl). reflexivity.
  - destruct (login one_contract known_api closed_door one_account
                two_positions no_trades open_door ctp_config fresh_session)
      as [[r s']|] eqn:Hlogin; [|vm_compute in Hlogin; discriminate].
    destruct (login_steps_in_order one_contract known_api closed_door
                one_account two_positions no_trades open_door
                ctp_config fresh_session s' r Hlogin)
      as (_ & _ & _ & Hfailed & _ & Hr & Hstages & Hlast).
    assert (Hr' : r = false) by (rewrite Hr; reflexivity).
    subst r. exists s'. split; [reflexivity|].
    destruct (Hfailed eq_refl) as (Hoff & Hpoll). split; [exact Hoff|].
    split; [exact Hpoll|]. split; [rewrite Hstages; reflexivity|].
    rewrite (Hlast eq_refl). reflexivity.
  - destruct (login one_contract known_api open_door one_account
                two_positions no_trades closed_door ctp_config fresh_session)
      as [[r s']|] eqn:Hlogin; [|vm_compute in Hlogin; discriminate].
    destruct (login_steps_in_order one_contract known_api open_door
                one_account two_positions no_trades closed_door
                ctp_config fresh_session s' r Hlogin)
      as (_ & _ & _ & Hfailed & _ & Hr & Hstages & Hlast).
    assert (Hr' : r = false) by (rewrite Hr; reflexivity).
    subst r. exists s'. split; [reflexivity|].
    destruct (Hfailed eq_refl) as (Hoff & Hpoll). split; [exact Hoff|].
    split; [exact Hpoll|]. split; [rewrite Hstages; reflexivity|].
    rewrite (Hlast eq_refl). reflexivity.
Defined.

(** Ticks around a login that fails are not published. *)
Lemma market_data_needs_login_witness :
  exists s',
    session_run one_contract known_api open_door one_account two_positions
                trades_unavailable open_door
                [Tick a_tick; Login ctp_config; Tick a_tick] fresh_session
    = Some s' /\
    published s' = 0%nat.
Proof.
  destruct (session_run one_contract known_api open_door one_account
              two_positions trades_unavailable open_door
              [Tick a_tick; Login ctp_config; Tick a_tick] fresh_session)
    as [s'|] eqn:Hrun; [|vm_compute in Hrun; discriminate].
  exists s'. split; [reflexivity|].
  destruct (market_data_needs_login one_contract known_api open_door
              one_account two_positions trades_unavailable open_door
              [Tick a_tick; Login ctp_config; Tick a_tick] fresh_session s'
              Hrun)
    as [_ Hoff].
  apply Hoff. vm_compute in Hrun. injection Hrun as <-. reflexivity.
Defined.
